(** * Chirpy: authentication and authorization of the REST service

    A shallow embedding of the Go sources [main.go], [internal/auth] and
    [sql/queries/*.sql].  Go strings are byte strings ([string] of
    [ascii]); [time.Time] and [time.Duration] are integers counting
    nanoseconds; a handler is a function over an explicit world made of
    the response writer's call log and the database.  What the handlers
    print on standard output is left out.

    Code that the repository imports but does not contain (the Go
    standard library, google/uuid, golang-jwt, x/crypto/bcrypt) is
    modelled after its documented behaviour; where that behaviour rests
    on a primitive that cannot be written down here (HMAC, Blowfish, the
    Unicode case tables, the wire encodings) the primitive is a class
    field. *)

From Stdlib Require Import ZArith NArith Ascii List Lia.
From stdpp Require Import base option list strings gmap.

Local Open Scope N_scope.

(** ** unicode/utf8 *)

Module Utf8.

Definition RuneError : N := 65533.   (* U+FFFD *)
Definition RuneSelf : N := 128.
Definition MaxRune : N := 1114111.   (* U+10FFFF *)

Definition between (lo hi b : N) : bool := (lo <=? b) && (b <=? hi).

(** The [first] table of package utf8: for a leading byte, the length
    of the sequence and the range accepted for the second byte. *)
Definition first (b0 : N) : option (nat * N * N) :=
  if between 194 223 b0 then Some (2%nat, 128, 191)
  else if b0 =? 224 then Some (3%nat, 160, 191)
  else if between 225 236 b0 then Some (3%nat, 128, 191)
  else if b0 =? 237 then Some (3%nat, 128, 159)
  else if between 238 239 b0 then Some (3%nat, 128, 191)
  else if b0 =? 240 then Some (4%nat, 144, 191)
  else if between 241 243 b0 then Some (4%nat, 128, 191)
  else if b0 =? 244 then Some (4%nat, 128, 143)
  else None.

Definition low6 (b : N) : N := N.land b 63.

(** [utf8.DecodeRuneInString]: the first rune of [s] and its width in
    bytes; an invalid or truncated sequence is [(RuneError, 1)]. *)
Definition DecodeRuneInString (s : string) : N * nat :=
  match s with
  | EmptyString => (RuneError, 0%nat)
  | String c0 t =>
    let b0 := N_of_ascii c0 in
    if b0 <? RuneSelf then (b0, 1%nat)
    else
      match first b0, t with
      | Some (sz, lo, hi), String c1 t1 =>
        let b1 := N_of_ascii c1 in
        if negb (between lo hi b1) then (RuneError, 1%nat)
        else if (sz =? 2)%nat then
          (N.lor (N.shiftl (N.land b0 31) 6) (low6 b1), 2%nat)
        else
          match t1 with
          | String c2 t2 =>
            let b2 := N_of_ascii c2 in
            if negb (between 128 191 b2) then (RuneError, 1%nat)
            else if (sz =? 3)%nat then
              (N.lor (N.shiftl (N.land b0 15) 12)
                 (N.lor (N.shiftl (low6 b1) 6) (low6 b2)), 3%nat)
            else
              match t2 with
              | String c3 _ =>
                let b3 := N_of_ascii c3 in
                if negb (between 128 191 b3) then (RuneError, 1%nat)
                else
                  (N.lor (N.shiftl (N.land b0 7) 18)
                     (N.lor (N.shiftl (low6 b1) 12)
                        (N.lor (N.shiftl (low6 b2) 6) (low6 b3))), 4%nat)
              | EmptyString => (RuneError, 1%nat)
              end
          | EmptyString => (RuneError, 1%nat)
          end
      | _, _ => (RuneError, 1%nat)
      end
  end.

Definition byte (n : N) : ascii := ascii_of_N n.
Definition contb (n : N) : ascii := byte (N.lor 128 (low6 n)).

(** [utf8.AppendRune]: surrogates and values past [MaxRune] are written
    as U+FFFD. *)
Definition EncodeRune (r : N) : string :=
  if r <? 128 then String (byte r) EmptyString
  else if r <? 2048 then
    String (byte (N.lor 192 (N.shiftr r 6))) (String (contb r) EmptyString)
  else if (MaxRune <? r) || between 55296 57343 r then
    String (byte 239) (String (byte 191) (String (byte 189) EmptyString))
  else if r <? 65536 then
    String (byte (N.lor 224 (N.shiftr r 12)))
      (String (contb (N.shiftr r 6)) (String (contb r) EmptyString))
  else
    String (byte (N.lor 240 (N.shiftr r 18)))
      (String (contb (N.shiftr r 12))
         (String (contb (N.shiftr r 6)) (String (contb r) EmptyString))).

End Utf8.

(** ** Go strings: indexing, slicing and iteration by rune *)

Module GoString.

Fixpoint len (s : string) : nat :=
  match s with EmptyString => 0%nat | String _ t => S (len t) end.

Fixpoint take (n : nat) (s : string) : string :=
  match n, s with
  | S n, String c t => String c (take n t)
  | _, _ => EmptyString
  end.

Fixpoint drop (n : nat) (s : string) : string :=
  match n, s with
  | S n, String _ t => drop n t
  | _, _ => s
  end.

(** [s[lo:]]: a run-time panic (here [None]) unless [lo <= len(s)]. *)
Definition slice_from (lo : nat) (s : string) : option string :=
  if (lo <=? len s)%nat then Some (drop lo s) else None.

Fixpoint concat (l : list string) : string :=
  match l with [] => EmptyString | s :: l => s +:+ concat l end.

(** [for _, r := range s]: the runes of [s], each with the bytes it was
    decoded from.  Every step consumes at least one byte, so [len s]
    steps are enough. *)
Fixpoint runes_go (fuel : nat) (s : string) : list (N * string) :=
  match fuel, s with
  | S fuel, String _ _ =>
    let '(r, w) := Utf8.DecodeRuneInString s in
    (r, take w s) :: runes_go fuel (drop w s)
  | _, _ => []
  end.

Definition runes (s : string) : list (N * string) := runes_go (len s) s.

End GoString.

(** ** unicode *)

Class UnicodeTables := {
  (** [unicode.To(unicode.LowerCase, r)] for a rune above U+007F: the
      case tables of the Go distribution. *)
  lowerCase : N -> N
}.

Module Unicode.

(** [unicode.IsSpace]: the Latin-1 cases and the [White_Space] table. *)
Definition IsSpace (r : N) : bool :=
  Utf8.between 9 13 r || (r =? 32) || (r =? 133) || (r =? 160)
  || (r =? 5760) || Utf8.between 8192 8202 r
  || Utf8.between 8232 8233 r || (r =? 8239) || (r =? 8287)
  || (r =? 12288).

Definition ToLower {tables : UnicodeTables} (r : N) : N :=
  if r <=? 127 then (if Utf8.between 65 90 r then r + 32 else r)
  else lowerCase r.

End Unicode.

(** ** strings *)

Module Strings.

Import GoString.

Fixpoint HasPrefix (s prefix : string) : bool :=
  match prefix, s with
  | EmptyString, _ => true
  | String p ps, String c cs => bool_decide (p = c) && HasPrefix cs ps
  | String _ _, EmptyString => false
  end.

Definition TrimPrefix (s prefix : string) : string :=
  if HasPrefix s prefix then drop (len prefix) s else s.

Fixpoint drop_spaces (cs : list (N * string)) : list (N * string) :=
  match cs with
  | (r, b) :: cs' => if Unicode.IsSpace r then drop_spaces cs' else cs
  | [] => []
  end.

(** [strings.TrimSpace]: leading and trailing white space, as defined
    by Unicode, removed. *)
Definition TrimSpace (s : string) : string :=
  concat (snd <$> rev (drop_spaces (rev (drop_spaces (runes s))))).

Definition flush (cur : string) : list string :=
  match cur with EmptyString => [] | _ => [cur] end.

Fixpoint fields_go (cur : string) (cs : list (N * string)) : list string :=
  match cs with
  | [] => flush cur
  | (r, b) :: cs =>
    if Unicode.IsSpace r then flush cur ++ fields_go EmptyString cs
    else fields_go (cur +:+ b) cs
  end.

(** [strings.Fields]: the maximal runs of non-space runes. *)
Definition Fields (s : string) : list string :=
  fields_go EmptyString (runes s).

Fixpoint Repeat (s : string) (count : nat) : string :=
  match count with
  | O => EmptyString
  | S count => s +:+ Repeat s count
  end.

Fixpoint isASCII (s : string) : bool :=
  match s with
  | EmptyString => true
  | String c t => (N_of_ascii c <? Utf8.RuneSelf) && isASCII t
  end.

(** [strings.Map(mapping, s)] for a mapping that never returns a
    negative rune: every rune is re-encoded, an invalid byte as U+FFFD. *)
Definition Map (mapping : N -> N) (s : string) : string :=
  concat ((fun c => Utf8.EncodeRune (mapping (fst c))) <$> runes s).

Definition ToLower {tables : UnicodeTables} (s : string) : string :=
  Map Unicode.ToLower s.

End Strings.

(** ** encoding/hex *)

Module Hex.

Definition digit (n : N) : ascii :=
  if n <? 10 then ascii_of_N (48 + n) else ascii_of_N (87 + n).

Definition hi (c : ascii) : ascii := digit (N_of_ascii c / 16).
Definition lo (c : ascii) : ascii := digit (N_of_ascii c mod 16).

(** Two lower-case hexadecimal digits, high nibble first. *)
Definition of_byte (c : ascii) : string :=
  String (hi c) (String (lo c) EmptyString).

Fixpoint EncodeToString (s : string) : string :=
  match s with
  | EmptyString => EmptyString
  | String c t => of_byte c +:+ EncodeToString t
  end.

(** The value of a hexadecimal digit of either case. *)
Definition value (c : ascii) : option N :=
  let n := N_of_ascii c in
  if Utf8.between 48 57 n then Some (n - 48)
  else if Utf8.between 97 102 n then Some (n - 87)
  else if Utf8.between 65 70 n then Some (n - 55)
  else None.

(** [xtob] of google/uuid: a byte from two hexadecimal digits. *)
Definition xtob (x1 x2 : ascii) : option ascii :=
  match value x1, value x2 with
  | Some h, Some l => Some (ascii_of_N (16 * h + l))
  | _, _ => None
  end.

End Hex.

(** ** errors

    An error value is its message together with the sentinel errors that
    [errors.Is] finds in its chain; [fmt.Errorf("...: %w", err)] keeps the
    chain and extends the message. *)

Inductive sentinel :=
| sql_ErrNoRows
| jwt_ErrTokenMalformed
| jwt_ErrTokenUnverifiable
| jwt_ErrTokenSignatureInvalid
| jwt_ErrTokenInvalidClaims
| jwt_ErrTokenExpired
| jwt_ErrTokenNotValidYet
| bcrypt_ErrMismatchedHashAndPassword
| bcrypt_ErrPasswordTooLong.

Global Instance sentinel_eq_dec : EqDecision sentinel.
Proof. solve_decision. Defined.

Record error := mkError { chain : list sentinel; message : string }.

Global Instance error_eq_dec : EqDecision error.
Proof. solve_decision. Defined.

Module Errors.
Definition New (msg : string) : error := mkError [] msg.
Definition Of (s : sentinel) (msg : string) : error := mkError [s] msg.
Definition Is (e : error) (target : sentinel) : bool :=
  bool_decide (target ∈ chain e).
(** [fmt.Errorf(prefix + ": %w", e)] *)
Definition Wrap (prefix : string) (e : error) : error :=
  mkError (chain e) (prefix +:+ ": " +:+ message e).
End Errors.

(** A Go result pair [(value, err)]. *)
Inductive result (A : Type) :=
| Ok (a : A)
| Err (e : error).
Global Arguments Ok {A} a.
Global Arguments Err {A} e.

Definition is_ok {A} (r : result A) : bool :=
  match r with Ok _ => true | Err _ => false end.

(** The value of a result that is known not to be an error. *)
Definition or_else {A} (r : result A) (d : A) : A :=
  match r with Ok a => a | Err _ => d end.

(** ** github.com/google/uuid *)

Module Uuid.

(** [type UUID [16]byte] *)
Inductive UUID :=
  Bytes (b0 b1 b2 b3 b4 b5 b6 b7 b8 b9 b10 b11 b12 b13 b14 b15 : ascii).

Global Instance UUID_eq_dec : EqDecision UUID.
Proof. solve_decision. Defined.

Definition Nil : UUID :=
  let z := zero in Bytes z z z z z z z z z z z z z z z z.

Definition of_list (l : list ascii) : option UUID :=
  match l with
  | [b0; b1; b2; b3; b4; b5; b6; b7; b8; b9; b10; b11; b12; b13; b14; b15] =>
    Some (Bytes b0 b1 b2 b3 b4 b5 b6 b7 b8 b9 b10 b11 b12 b13 b14 b15)
  | _ => None
  end.

(** [UUID.String]: xxxxxxxx-xxxx-xxxx-xxxx-xxxxxxxxxxxx, lower case. *)
Definition String (u : UUID) : string :=
  let '(Bytes b0 b1 b2 b3 b4 b5 b6 b7 b8 b9 b10 b11 b12 b13 b14 b15) := u in
  let h := Hex.of_byte in
  h b0 +:+ h b1 +:+ h b2 +:+ h b3 +:+ "-" +:+ h b4 +:+ h b5 +:+ "-"
  +:+ h b6 +:+ h b7 +:+ "-" +:+ h b8 +:+ h b9 +:+ "-"
  +:+ h b10 +:+ h b11 +:+ h b12 +:+ h b13 +:+ h b14 +:+ h b15.

Definition at_ (l : list ascii) (i : nat) : ascii := nth i l zero.

Definition lower (c : ascii) : ascii :=
  let n := N_of_ascii c in
  if Utf8.between 65 90 n then ascii_of_N (n + 32) else c.

(** [strings.EqualFold(s[:9], "urn:uuid:")]: on this ASCII target the
    Unicode fold is the ASCII one. *)
Definition is_urn_prefix (l : list ascii) : bool :=
  bool_decide (lower <$> take 9 l = String.list_ascii_of_string "urn:uuid:").

Definition invalid_format : error := Errors.New "invalid UUID format".

(** The tail of [uuid.Parse], on the 36-byte form. *)
Definition parse_hyphenated (l : list ascii) : result UUID :=
  if negb (forallb (fun i => bool_decide (at_ l i = "-"%char))
             [8; 13; 18; 23]%nat)
  then Err invalid_format
  else
    match mapM (fun x => Hex.xtob (at_ l x) (at_ l (x + 1)))
            [0; 2; 4; 6; 9; 11; 14; 16; 19; 21; 24; 26; 28; 30; 32; 34]%nat
            ≫= of_list with
    | Some u => Ok u
    | None => Err invalid_format
    end.

(** [uuid.Parse]: the plain form, the urn form, the braced form (whose
    braces are not inspected) and the form without hyphens. *)
Definition Parse (s : string) : result UUID :=
  let l := String.list_ascii_of_string s in
  match length l with
  | 36%nat => parse_hyphenated l
  | 45%nat =>
    if is_urn_prefix l then parse_hyphenated (drop 9 l)
    else Err (Errors.New "invalid urn prefix")
  | 38%nat => parse_hyphenated (drop 1 l)
  | 32%nat =>
    match mapM (fun i => Hex.xtob (at_ l (2 * i)) (at_ l (2 * i + 1)))
            (seq 0 16) ≫= of_list with
    | Some u => Ok u
    | None => Err invalid_format
    end
  | _ => Err (Errors.New "invalid UUID length")
  end.

End Uuid.
Export Uuid (UUID).

Local Close Scope N_scope.
Local Open Scope Z_scope.

(** ** time *)

Module GoTime.
(** Instants and durations in nanoseconds. *)
Definition Nanosecond : Z := 1.
Definition Second : Z := 1000000000.
Definition Hour : Z := 3600 * Second.
(** [t.Truncate(d)]: [t] rounded down to a multiple of [d]. *)
Definition Truncate (t d : Z) : Z := (t / d * d)%Z.
Definition Add (t d : Z) : Z := (t + d)%Z.
(** [t.Before(u)] *)
Definition Before (t u : Z) : bool := (t <? u)%Z.
End GoTime.


(** ** github.com/golang-jwt/jwt/v5 *)

(** [jwt.RegisteredClaims]; a [*NumericDate] is an optional instant.  The
    audience and the token id, which the service neither sets nor checks,
    are left out. *)
Record RegisteredClaims := {
  Issuer : string;
  Subject : string;
  ExpiresAt : option Z;
  NotBefore : option Z;
  IssuedAt : option Z
}.

Record Token := {
  Alg : string;                  (* the header's signing method *)
  Claims : RegisteredClaims;
  Signature : string
}.

Definition whole_seconds (d : option Z) : bool :=
  match d with
  | Some t => bool_decide (GoTime.Truncate t GoTime.Second = t)
  | None => true
  end.

(** Tokens that the JSON segments carry without change: ASCII text and
    dates in whole seconds. *)
Definition portable (t : Token) : bool :=
  Strings.isASCII (Alg t) && Strings.isASCII (Issuer (Claims t))
  && Strings.isASCII (Subject (Claims t))
  && whole_seconds (ExpiresAt (Claims t))
  && whole_seconds (NotBefore (Claims t))
  && whole_seconds (IssuedAt (Claims t)).

Class JwtLib := {
  (** The HMAC, under the hash that the method names and under the key,
      of the token's signing string (its header and claims segments). *)
  hmac : string -> string -> RegisteredClaims -> string;
  (** The compact serialisation, three base64url segments, and its
      parser. *)
  compact : Token -> string;
  parseCompact : string -> option Token;
  parseCompact_compact :
    forall t, portable t = true -> parseCompact (compact t) = Some t
}.

Module Jwt.
Section Jwt.
Context {jwtlib : JwtLib}.

Definition TimePrecision : Z := GoTime.Second.

(** [jwt.NewNumericDate(t)] is [&NumericDate{t.Truncate(TimePrecision)}]:
    the library keeps and serialises dates in whole seconds. *)
Definition NewNumericDate (t : Z) : option Z :=
  Some (GoTime.Truncate t TimePrecision).

(** [jwt.NewWithClaims(method, claims).SignedString(key)] for an HMAC
    method and a [[]byte] key. *)
Definition SignedString (method : string) (c : RegisteredClaims)
    (key : string) : result string :=
  Ok (compact {| Alg := method; Claims := c;
                 Signature := hmac method key c |}).

Definition isHMAC (alg : string) : bool :=
  bool_decide (alg ∈ ["HS256"; "HS384"; "HS512"]).

(** The other registered methods; their [Verify] refuses a [[]byte]
    key. *)
Definition isRegistered (alg : string) : bool :=
  bool_decide (alg ∈ ["RS256"; "RS384"; "RS512"; "ES256"; "ES384"; "ES512";
                      "PS256"; "PS384"; "PS512"; "EdDSA"; "none"]).

(** [Validator.Validate] with the default options: [exp] and [nbf] are
    checked when present, against the current time.  [verifyExpiresAt]
    succeeds when [now.Before(exp)], [verifyNotBefore] when
    [!now.Before(nbf)]; the issued-at date is not checked. *)
Definition validate (now : Z) (c : RegisteredClaims) : list sentinel :=
  match ExpiresAt c with
  | Some exp => if GoTime.Before now exp then [] else [jwt_ErrTokenExpired]
  | None => []
  end ++
  match NotBefore c with
  | Some nbf => if GoTime.Before now nbf then [jwt_ErrTokenNotValidYet] else []
  | None => []
  end.

(** [jwt.ParseWithClaims(tokenString, &claims, keyFunc)] where the key
    function returns [key]; [now] is the validator's clock reading. *)
Definition ParseWithClaims (now : Z) (tokenString key : string)
    : result Token :=
  match parseCompact tokenString with
  | None => Err (Errors.Of jwt_ErrTokenMalformed "token is malformed")
  | Some tok =>
    if isHMAC (Alg tok) then
      if bool_decide (Signature tok = hmac (Alg tok) key (Claims tok)) then
        match validate now (Claims tok) with
        | [] => Ok tok
        | es => Err (mkError (jwt_ErrTokenInvalidClaims :: es)
                       "token has invalid claims")
        end
      else Err (Errors.Of jwt_ErrTokenSignatureInvalid
                  "token signature is invalid")
    else if isRegistered (Alg tok) then
      Err (Errors.Of jwt_ErrTokenSignatureInvalid
             "token signature is invalid: key is of invalid type")
    else Err (Errors.Of jwt_ErrTokenUnverifiable
                "token is unverifiable: signing method is unavailable")
  end.

End Jwt.
End Jwt.

(** ** golang.org/x/crypto/bcrypt *)

Class BcryptLib := {
  Salt : Type;                   (* sixteen bytes read from crypto/rand *)
  Digest : Type;                 (* the 23 bytes the cipher produces *)
  (** Whether [GenerateFromPassword] refuses a password of more than 72
      bytes (it does since x/crypto v0.5.0; earlier releases accept it). *)
  rejectsLongPasswords : bool;
  (** The expensive Blowfish key setup followed by the encryption of the
      magic text.  The key setup ([blowfish.NewSaltedCipher],
      [blowfish.ExpandKey]) reads its key as a cyclic stream of 18 words
      of four bytes and nothing else of it: the 72 bytes given here. *)
  eksBlowfish : nat -> Salt -> string -> Digest;
  (** The encoded form [$2a$cost$salt.digest] and its parser,
      [newFromHash]. *)
  formatHash : nat -> Salt -> Digest -> string;
  parseHash : string -> result (nat * Salt * Digest);
  parseHash_formatHash :
    forall cost s d, (4 <= cost <= 31)%nat ->
      parseHash (formatHash cost s d) = Ok (cost, s, d)
}.

Module Bcrypt.
Section Bcrypt.
Context {bcryptlib : BcryptLib}.

Definition DefaultCost : nat := 10.

(** [n] bytes of [key] repeated; [rest] is what remains of the current
    pass. *)
Fixpoint cyclic (n : nat) (key rest : string) : string :=
  match n with
  | O => EmptyString
  | S n =>
    match rest with
    | String c t => String c (cyclic n key t)
    | EmptyString =>
      match key with
      | String c t => String c (cyclic n key t)
      | EmptyString => EmptyString
      end
    end
  end.

(** [expensiveBlowfishSetup] gives the cipher the password and a
    trailing NUL as its key. *)
Definition keyStream (password : string) : string :=
  let ckey := password +:+ String zero EmptyString in
  cyclic 72 ckey ckey.

Definition bcrypt (password : string) (cost : nat) (salt : Salt) : Digest :=
  eksBlowfish cost salt (keyStream password).

Definition GenerateFromPassword (password : string) (cost : nat)
    (salt : Salt) : result string :=
  if rejectsLongPasswords && (72 <? GoString.len password)%nat then
    Err (Errors.Of bcrypt_ErrPasswordTooLong
           "bcrypt: password length exceeds 72 bytes")
  else Ok (formatHash cost salt (bcrypt password cost salt)).

(** [nil] is [None]. *)
Definition CompareHashAndPassword (hashedPassword password : string)
    : option error :=
  match parseHash hashedPassword with
  | Err e => Some e
  | Ok (cost, salt, d) =>
    let otherHash := bcrypt password cost salt in
    if bool_decide (formatHash cost salt d = formatHash cost salt otherHash)
    then None
    else Some (Errors.Of bcrypt_ErrMismatchedHashAndPassword
                 "crypto/bcrypt: hashedPassword is not the hash of the given password")
  end.

End Bcrypt.
End Bcrypt.

(** ** net/http *)

(** [http.Header]: the canonical field name to the values received. *)
Abbreviation Header := (gmap string (list string)).

Module Http.

Definition Get (h : Header) (key : string) : string :=
  match h !! key with
  | Some (v :: _) => v
  | _ => EmptyString
  end.

Definition StatusOK : Z := 200.
Definition StatusCreated : Z := 201.
Definition StatusNoContent : Z := 204.
Definition StatusBadRequest : Z := 400.
Definition StatusUnauthorized : Z := 401.
Definition StatusForbidden : Z := 403.
Definition StatusNotFound : Z := 404.
Definition StatusInternalServerError : Z := 500.

(** The calls a handler makes on its [http.ResponseWriter]. *)
Inductive call (B : Type) :=
| SetHeader (key value : string)
| WriteHeader (code : Z)
| Write (body : B).
Global Arguments SetHeader {B} key value.
Global Arguments WriteHeader {B} code.
Global Arguments Write {B} body.

(** The status the client receives: that of the first [WriteHeader];
    a [Write] before any [WriteHeader] sends 200. *)
Fixpoint status {B} (log : list (call B)) : option Z :=
  match log with
  | [] => None
  | WriteHeader code :: _ => Some code
  | Write _ :: _ => Some StatusOK
  | SetHeader _ _ :: log => status log
  end.

End Http.

(** ** internal/auth *)

Module Auth.
Section Auth.
Context {jwtlib : JwtLib} {bcryptlib : BcryptLib}.

Definition HashPassword (password : string) (salt : Salt) : result string :=
  match Bcrypt.GenerateFromPassword password Bcrypt.DefaultCost salt with
  | Err e => Err (Errors.Wrap "HashPassword" e)
  | Ok hash => Ok hash
  end.

Definition CheckPasswordHash (password hash : string) : option error :=
  Bcrypt.CompareHashAndPassword hash password.

(** [now1] and [now2] are the two readings of [time.Now()]. *)
Definition MakeJWT (userID : UUID) (tokenSecret : string) (expiresIn : Z)
    (now1 now2 : Z) : result string :=
  let claims :=
    {| Issuer := "chirpy";
       IssuedAt := Jwt.NewNumericDate now1;
       ExpiresAt := Jwt.NewNumericDate (GoTime.Add now2 expiresIn);
       Subject := Uuid.String userID;
       NotBefore := None |} in
  match Jwt.SignedString "HS256" claims tokenSecret with
  | Err e => Err (Errors.Wrap "MakeJWT" e)
  | Ok tokenString => Ok tokenString
  end.

(** [now] is the clock reading of the library's validator. *)
Definition ValidateJWT (tokenString tokenSecret : string) (now : Z)
    : result UUID :=
  match Jwt.ParseWithClaims now tokenString tokenSecret with
  | Err e => Err (Errors.Wrap "ValidateJWT" e)
  | Ok tok =>
    let uuidString := Subject (Claims tok) in
    let issuer := Issuer (Claims tok) in
    if negb (bool_decide (issuer = "chirpy")) then
      Err (Errors.New "invalid issuer")
    else
      match Uuid.Parse uuidString with
      | Err e => Err (Errors.Wrap "ValidateJWT" e)
      | Ok tokenUUID => Ok tokenUUID
      end
  end.

Definition GetBearerToken (headers : Header) : result string :=
  let tokenString := Http.Get headers "Authorization" in
  if bool_decide (tokenString = "") then
    Err (Errors.New "No token string provided")
  else
    Ok (Strings.TrimSpace (Strings.TrimPrefix tokenString "Bearer ")).

(** [byteToken] is what [rand.Read] left in the 32-byte buffer. *)
Definition MakeRefreshToken (byteToken : string) : result string :=
  Ok (Hex.EncodeToString byteToken).

End Auth.
End Auth.

(** ** internal/database: the rows and the queries of [sql/queries] *)

Record User := {
  user_ID : UUID;
  user_CreatedAt : Z;
  user_UpdatedAt : Z;
  user_Email : string;
  user_HashedPassword : string;
  user_IsChirpyRed : bool
}.

Record RefreshToken := {
  rt_Token : string;
  rt_CreatedAt : Z;
  rt_UpdatedAt : Z;
  rt_UserID : UUID;
  rt_ExpiresAt : Z;
  rt_RevokedAt : option Z        (* sql.NullTime *)
}.

Record Chirp := {
  chirp_ID : UUID;
  chirp_CreatedAt : Z;
  chirp_UpdatedAt : Z;
  chirp_Body : string;
  chirp_UserID : UUID
}.

Record CreateRefreshTokenParams := { crt_Token : string; crt_UserID : UUID }.
Record CreateChirpParams := { cc_Body : string; cc_UserID : UUID }.

(** What a request draws from outside the program: the clock
    ([time.Now()] and SQL's [NOW()], one reading for the whole request),
    the bytes of [crypto/rand] and the value of [gen_random_uuid()]. *)
Record Env := {
  now : Z;
  randomBytes : string;
  randomUUID : UUID
}.

(** The methods of [*database.Queries] that the handlers below call,
    over a store of type [S]. *)
Class Queries (S : Type) := {
  GetUserByEmail : Env -> string -> S -> result User * S;
  CreateRefreshToken :
    Env -> CreateRefreshTokenParams -> S -> result RefreshToken * S;
  GetRefreshToken : Env -> string -> S -> result RefreshToken * S;
  RevokeRefreshToken : Env -> string -> S -> option error * S;
  GetChirp : Env -> UUID -> S -> result Chirp * S;
  DeleteChirp : Env -> UUID -> S -> option error * S;
  CreateChirp : Env -> CreateChirpParams -> S -> result Chirp * S
}.

(** The queries run on the tables themselves. *)
Module Postgres.

Record DB := {
  users : list User;
  refresh_tokens : list RefreshToken;
  chirps : list Chirp
}.

(** A [:one] query: the first row, or [sql.ErrNoRows]. *)
Definition one {A} (rows : list A) : result A :=
  match rows with
  | r :: _ => Ok r
  | [] => Err (Errors.Of sql_ErrNoRows "sql: no rows in result set")
  end.

(** SELECT * FROM users WHERE email = $1 *)
Definition GetUserByEmail (e : Env) (email : string) (db : DB)
    : result User * DB :=
  (one (filter (fun u => user_Email u = email) (users db)), db).

Definition sixtyDays : Z := 60 * 24 * GoTime.Hour.

(** Modelled from the spec: the schema of [refresh_tokens] is not among
    the sources; the spec gives "token unique" and "user-id FK". *)
Definition refresh_token_admissible (db : DB) (p : CreateRefreshTokenParams)
    : bool :=
  bool_decide (crt_Token p ∉ rt_Token <$> refresh_tokens db)
  && bool_decide (crt_UserID p ∈ user_ID <$> users db).

(** INSERT INTO refresh_tokens (token, created_at, updated_at, user_id,
    expires_at) VALUES ($1, NOW(), NOW(), $2, NOW() + INTERVAL '60 DAYS')
    RETURNING * *)
Definition CreateRefreshToken (e : Env) (p : CreateRefreshTokenParams)
    (db : DB) : result RefreshToken * DB :=
  if refresh_token_admissible db p then
    let row := {| rt_Token := crt_Token p;
                  rt_CreatedAt := now e;
                  rt_UpdatedAt := now e;
                  rt_UserID := crt_UserID p;
                  rt_ExpiresAt := (now e + sixtyDays)%Z;
                  rt_RevokedAt := None |} in
    (Ok row, {| users := users db;
                refresh_tokens := refresh_tokens db ++ [row];
                chirps := chirps db |})
  else (Err (Errors.New "pq: constraint violation"), db).

(** WHERE token = $1 AND revoked_at IS NULL AND expires_at > NOW() *)
Definition redeemable (e : Env) (token : string) (r : RefreshToken) : Prop :=
  rt_Token r = token ∧ rt_RevokedAt r = None ∧ (now e < rt_ExpiresAt r)%Z.

Global Instance redeemable_dec e token r : Decision (redeemable e token r).
Proof. unfold redeemable. apply _. Defined.

(** SELECT * FROM refresh_tokens
    WHERE token = $1 AND revoked_at IS NULL AND expires_at > NOW() *)
Definition GetRefreshToken (e : Env) (token : string) (db : DB)
    : result RefreshToken * DB :=
  (one (filter (redeemable e token) (refresh_tokens db)), db).

Definition revoke (e : Env) (token : string) (r : RefreshToken)
    : RefreshToken :=
  if bool_decide (rt_Token r = token) then
    {| rt_Token := rt_Token r;
       rt_CreatedAt := rt_CreatedAt r;
       rt_UpdatedAt := now e;
       rt_UserID := rt_UserID r;
       rt_ExpiresAt := rt_ExpiresAt r;
       rt_RevokedAt := Some (now e) |}
  else r.

(** UPDATE refresh_tokens SET revoked_at = NOW(), updated_at = NOW()
    WHERE token = $1 *)
Definition RevokeRefreshToken (e : Env) (token : string) (db : DB)
    : option error * DB :=
  (None, {| users := users db;
            refresh_tokens := revoke e token <$> refresh_tokens db;
            chirps := chirps db |}).

(** Modelled from the spec: the chirp queries ([sql/queries/chirps.sql])
    are not among the sources.  [GetChirp] selects the row by id,
    [DeleteChirp] deletes the rows of that id, [CreateChirp] inserts a
    row with a generated id and the current time. *)
Definition GetChirp (e : Env) (id : UUID) (db : DB) : result Chirp * DB :=
  (one (filter (fun c => chirp_ID c = id) (chirps db)), db).

Definition DeleteChirp (e : Env) (id : UUID) (db : DB) : option error * DB :=
  (None, {| users := users db;
            refresh_tokens := refresh_tokens db;
            chirps := filter (fun c => chirp_ID c ≠ id) (chirps db) |}).

Definition chirp_admissible (db : DB) (id : UUID) (p : CreateChirpParams)
    : bool :=
  bool_decide (id ∉ chirp_ID <$> chirps db)
  && bool_decide (cc_UserID p ∈ user_ID <$> users db).

Definition CreateChirp (e : Env) (p : CreateChirpParams) (db : DB)
    : result Chirp * DB :=
  if chirp_admissible db (randomUUID e) p then
    let row := {| chirp_ID := randomUUID e;
                  chirp_CreatedAt := now e;
                  chirp_UpdatedAt := now e;
                  chirp_Body := cc_Body p;
                  chirp_UserID := cc_UserID p |} in
    (Ok row, {| users := users db;
                refresh_tokens := refresh_tokens db;
                chirps := chirps db ++ [row] |})
  else (Err (Errors.New "pq: constraint violation"), db).

(** The statements that touch [refresh_tokens], as issued over time by
    any number of requests, each at its own clock reading.  ([ResetUsers]
    deletes from [users]; whether that reaches [refresh_tokens] is for the
    schema to say, which is not among the sources.) *)
Inductive statement :=
| Create (e : Env) (p : CreateRefreshTokenParams)
| Redeem (e : Env) (token : string)
| Revoke (e : Env) (token : string).

Definition execute (db : DB) (st : statement) : DB :=
  match st with
  | Create e p => snd (CreateRefreshToken e p db)
  | Redeem e token => snd (GetRefreshToken e token db)
  | Revoke e token => snd (RevokeRefreshToken e token db)
  end.

Definition execute_all (sts : list statement) (db : DB) : DB :=
  fold_left execute sts db.

End Postgres.

Global Instance postgres_queries : Queries Postgres.DB := {|
  GetUserByEmail := Postgres.GetUserByEmail;
  CreateRefreshToken := Postgres.CreateRefreshToken;
  GetRefreshToken := Postgres.GetRefreshToken;
  RevokeRefreshToken := Postgres.RevokeRefreshToken;
  GetChirp := Postgres.GetChirp;
  DeleteChirp := Postgres.DeleteChirp;
  CreateChirp := Postgres.CreateChirp
|}.

(** ** main.go *)

Module Main.

Record chirp := {
  c_Id : UUID;
  c_CreatedAt : Z;
  c_UpdatedAt : Z;
  c_Body : string;
  c_UserId : UUID
}.

Record user := {
  u_Id : UUID;
  u_CreatedAt : Z;
  u_UpdatedAt : Z;
  u_Email : string;
  u_Token : string;
  u_RefreshToken : string;
  u_IsChirpyRed : bool
}.

(** What a handler passes to [rw.Write]: a text, or the value given to
    [json.Marshal]. *)
Inductive body :=
| Text (s : string)
| JsonUser (u : user)
| JsonChirp (c : chirp)
| JsonToken (token : string)      (* response{Token} *)
| JsonError (msg : string).       (* response{Error} *)

(** [json.Marshal] of these structs has no failing case. *)
Definition Marshal (v : body) : result body := Ok v.

Record apiConfig := {
  platform : string;
  secret : string;
  polkaKey : string
}.

(** The parts of [*http.Request] that the handlers read; [rq_Decode] is
    the outcome of [json.NewDecoder(rq.Body).Decode(&v)], [None] when it
    returns an error. *)
Record Request (I : Type) := {
  rq_Header : Header;
  rq_PathValue : string -> string;
  rq_Decode : option I
}.
Global Arguments rq_Header {I} r.
Global Arguments rq_PathValue {I} r.
Global Arguments rq_Decode {I} r.

Record inputChirp := { in_Body : string }.
Record input := { in_Password : string; in_Email : string }.

(** The response writer's calls so far, and the store behind [a.qry]. *)
Record World (S : Type) := {
  rw : list (Http.call body);
  store : S
}.
Global Arguments rw {S} w.
Global Arguments store {S} w.
Global Arguments Build_World {S} rw store.

(** A statement either goes on with a value, returns from the handler,
    or panics. *)
Inductive flow (A : Type) :=
| Next (a : A)
| Return
| Panic.
Global Arguments Next {A} a.
Global Arguments Return {A}.
Global Arguments Panic {A}.

Definition M (S A : Type) : Type := World S -> flow A * World S.

Global Instance M_ret S : MRet (M S) := fun A a w => (Next a, w).
Global Instance M_bind S : MBind (M S) := fun A B f m w =>
  match m w with
  | (Next a, w') => f a w'
  | (Return, w') => (Return, w')
  | (Panic, w') => (Panic, w')
  end.

Section Statements.
Context {S : Type}.

Definition call (c : Http.call body) : M S unit := fun w =>
  (Next tt, {| rw := rw w ++ [c]; store := store w |}).
Definition SetHeader (key value : string) : M S unit :=
  call (Http.SetHeader key value).
Definition WriteHeader (code : Z) : M S unit := call (Http.WriteHeader code).
Definition Write (b : body) : M S unit := call (Http.Write b).

Definition return_ {A} : M S A := fun w => (Return, w).
Definition panic {A} : M S A := fun w => (Panic, w).
Definition skip : M S unit := mret tt.

(** A call of a method of [a.qry]. *)
Definition query {A} (q : S -> A * S) : M S A := fun w =>
  let '(a, s) := q (store w) in (Next a, {| rw := rw w; store := s |}).

(** [v, err := f(); if err != nil { onError; return }] *)
Definition check {A} (r : result A) (onError : error -> M S unit) : M S A :=
  match r with
  | Ok a => mret a
  | Err e => onError e ;; return_
  end.

(** A run-time panic inside an expression. *)
Definition eval {A} (o : option A) : M S A :=
  match o with Some a => mret a | None => panic end.

End Statements.

(** How a handler ended. *)
Inductive completion := Completed | Panicked.

Definition run {S} (h : M S unit) (w : World S) : completion * World S :=
  match h w with
  | (Panic, w') => (Panicked, w')
  | (_, w') => (Completed, w')
  end.

Section Handlers.
Context {tables : UnicodeTables} {jwtlib : JwtLib} {bcryptlib : BcryptLib}
  {S : Type} {qry : Queries S}.

Definition badWords : list string := ["kerfuffle"; "sharbert"; "fornax"].

(** The body of the inner loop of [cleanString], for the bad word [b]. *)
Definition censor_word (b cleaned w : string) : string :=
  if bool_decide (Strings.ToLower w = b) then cleaned +:+ " ****"
  else cleaned +:+ " " +:+ w.

(** The inner loop: the value of [cleaned] after the fields of [s]. *)
Definition censor (s b : string) : string :=
  fold_left (censor_word b) (Strings.Fields s) EmptyString.

(** [None] is the panic of [s[1:]]. *)
Definition cleanString (s : string) : option string :=
  let s := fold_left censor badWords s in
  GoString.slice_from 1 s.

Definition postChirps (a : apiConfig) (e : Env) (rq : Request inputChirp)
    : M S unit :=
  chrp ← match rq_Decode rq with
         | Some chrp => mret chrp
         | None => WriteHeader Http.StatusInternalServerError ;; return_
         end;
  tokenString ← check (Auth.GetBearerToken (rq_Header rq))
    (fun _ => WriteHeader Http.StatusUnauthorized);
  userID ← check (Auth.ValidateJWT tokenString (secret a) (now e))
    (fun _ => WriteHeader Http.StatusUnauthorized);
  (if bool_decide (in_Body chrp = "")
   then WriteHeader Http.StatusBadRequest ;; return_ else skip) ;;
  Body ← eval (cleanString (in_Body chrp));
  if (GoString.len Body <=? 140)%nat then
    r ← query (CreateChirp e {| cc_Body := Body; cc_UserID := userID |});
    r ← check r (fun _ => WriteHeader Http.StatusInternalServerError);
    let respBody :=
      {| c_Id := chirp_ID r; c_CreatedAt := chirp_CreatedAt r;
         c_UpdatedAt := chirp_UpdatedAt r; c_Body := chirp_Body r;
         c_UserId := chirp_UserID r |} in
    dat ← check (Marshal (JsonChirp respBody))
      (fun _ => WriteHeader Http.StatusInternalServerError);
    SetHeader "Content-Type" "application/json" ;;
    WriteHeader Http.StatusCreated ;;
    Write dat
  else
    dat ← check (Marshal (JsonError "Chirp is too long"))
      (fun _ => WriteHeader Http.StatusInternalServerError);
    SetHeader "Content-Type" "application/json" ;;
    WriteHeader Http.StatusBadRequest ;;
    Write dat.

Definition postLogin (a : apiConfig) (e : Env) (rq : Request input)
    : M S unit :=
  inp ← match rq_Decode rq with
        | Some inp => mret inp
        | None => WriteHeader Http.StatusInternalServerError ;; return_
        end;
  r ← query (GetUserByEmail e (in_Email inp));
  row ← check r (fun _ => WriteHeader Http.StatusInternalServerError);
  match Auth.CheckPasswordHash (in_Password inp) (user_HashedPassword row) with
  | Some _ =>
    SetHeader "Content-Type" "text/plain" ;;
    WriteHeader Http.StatusUnauthorized ;;
    Write (Text "Incorrect email or password") ;;
    return_
  | None => skip
  end ;;
  tokenString ← check
    (Auth.MakeJWT (user_ID row) (secret a) GoTime.Hour (now e) (now e))
    (fun _ => WriteHeader Http.StatusInternalServerError);
  refreshToken ← check (Auth.MakeRefreshToken (randomBytes e))
    (fun _ => WriteHeader Http.StatusInternalServerError);
  r ← query (CreateRefreshToken e
               {| crt_Token := refreshToken; crt_UserID := user_ID row |});
  _ ← check r (fun _ => WriteHeader Http.StatusInternalServerError);
  let loggedInUser :=
    {| u_Id := user_ID row; u_CreatedAt := user_CreatedAt row;
       u_UpdatedAt := user_UpdatedAt row; u_Email := user_Email row;
       u_IsChirpyRed := user_IsChirpyRed row;
       u_Token := tokenString; u_RefreshToken := refreshToken |} in
  dat ← check (Marshal (JsonUser loggedInUser))
    (fun _ => WriteHeader Http.StatusInternalServerError);
  SetHeader "Content-Type" "application/json" ;;
  WriteHeader Http.StatusOK ;;
  Write dat.

Definition postRefresh (a : apiConfig) (e : Env) (rq : Request unit)
    : M S unit :=
  refreshToken ← check (Auth.GetBearerToken (rq_Header rq))
    (fun _ => WriteHeader Http.StatusUnauthorized);
  r ← query (GetRefreshToken e refreshToken);
  refreshTokenRow ← check r
    (fun err =>
       if Errors.Is err sql_ErrNoRows
       then WriteHeader Http.StatusUnauthorized
       else WriteHeader Http.StatusInternalServerError);
  tokenString ← check
    (Auth.MakeJWT (rt_UserID refreshTokenRow) (secret a) GoTime.Hour
       (now e) (now e))
    (fun _ => WriteHeader Http.StatusInternalServerError);
  dat ← check (Marshal (JsonToken tokenString))
    (fun _ => WriteHeader Http.StatusInternalServerError);
  SetHeader "Content-Type" "application/json" ;;
  WriteHeader Http.StatusOK ;;
  Write dat.

Definition postRevoke (a : apiConfig) (e : Env) (rq : Request unit)
    : M S unit :=
  refreshToken ← check (Auth.GetBearerToken (rq_Header rq))
    (fun _ => WriteHeader Http.StatusUnauthorized);
  err ← query (RevokeRefreshToken e refreshToken);
  match err with
  | Some _ => WriteHeader Http.StatusInternalServerError
  | None => skip
  end ;;
  WriteHeader Http.StatusNoContent.

Definition deleteChirpsChirpID (a : apiConfig) (e : Env) (rq : Request unit)
    : M S unit :=
  chirpID ← check (Uuid.Parse (rq_PathValue rq "chirpID"))
    (fun _ => WriteHeader Http.StatusBadRequest);
  r ← query (GetChirp e chirpID);
  chirp ← check r
    (fun err =>
       if Errors.Is err sql_ErrNoRows
       then WriteHeader Http.StatusNotFound
       else WriteHeader Http.StatusInternalServerError);
  tokenString ← check (Auth.GetBearerToken (rq_Header rq))
    (fun _ => WriteHeader Http.StatusUnauthorized);
  userID ← check (Auth.ValidateJWT tokenString (secret a) (now e))
    (fun _ => WriteHeader Http.StatusUnauthorized);
  (if bool_decide (chirp_UserID chirp ≠ userID)
   then WriteHeader Http.StatusForbidden ;; return_ else skip) ;;
  err ← query (DeleteChirp e chirpID);
  match err with
  | Some _ => WriteHeader Http.StatusInternalServerError ;; return_
  | None => skip
  end ;;
  WriteHeader Http.StatusNoContent.

End Handlers.

End Main.

(** ** Instances of the library interfaces

    One instance of each interface, to show the interfaces inhabited and
    to run the handlers on concrete requests.  The wire formats write the
    fields one after the other, each self-delimiting; the MAC and the
    digest are arbitrary functions of their arguments. *)

Module Model.

Fixpoint bits (p : positive) : string :=
  match p with
  | xH => EmptyString
  | xO p => String "0" (bits p)
  | xI p => String "1" (bits p)
  end.

Fixpoint unbits (s : string) : option positive :=
  match s with
  | EmptyString => Some xH
  | String c t =>
    p ← unbits t;
    if bool_decide (c = "0"%char) then Some (xO p)
    else if bool_decide (c = "1"%char) then Some (xI p)
    else None
  end.

(** A field on the wire: every byte behind a ["1"], then a ["0"]. *)
Fixpoint put (field rest : string) : string :=
  match field with
  | EmptyString => String "0" rest
  | String c t => String "1" (String c (put t rest))
  end.

Fixpoint get (s : string) : option (string * string) :=
  match s with
  | String "0" rest => Some (EmptyString, rest)
  | String "1" (String c t) =>
    match get t with
    | Some (field, rest) => Some (String c field, rest)
    | None => None
    end
  | _ => None
  end.

Definition put_value {A} `{Countable A} (a : A) (rest : string) : string :=
  put (bits (encode a)) rest.

Definition get_value {A} `{Countable A} (s : string) : option (A * string) :=
  '(field, rest) ← get s;
  a ← unbits field ≫= decode;
  Some (a, rest).

Definition write_token (t : Token) : string :=
  put (Alg t)
    (put (Issuer (Claims t))
       (put (Subject (Claims t))
          (put_value (ExpiresAt (Claims t))
             (put_value (NotBefore (Claims t))
                (put_value (IssuedAt (Claims t))
                   (put (Signature t) EmptyString)))))).

Definition read_token (s : string) : option Token :=
  '(alg, s) ← get s;
  '(iss, s) ← get s;
  '(sub, s) ← get s;
  '(exp, s) ← get_value s;
  '(nbf, s) ← get_value s;
  '(iat, s) ← get_value s;
  '(sig, s) ← get s;
  if bool_decide (s = EmptyString) then
    Some {| Alg := alg;
            Claims := {| Issuer := iss; Subject := sub; ExpiresAt := exp;
                         NotBefore := nbf; IssuedAt := iat |};
            Signature := sig |}
  else None.

Definition mac (alg key : string) (c : RegisteredClaims) : string :=
  alg +:+ ":" +:+ key +:+ ":" +:+ Subject c.

Definition format_hash (cost : nat) (s d : string) : string :=
  put_value cost (put s (put d EmptyString)).

Definition parse_hash (h : string) : result (nat * string * string) :=
  match
    '(cost, h) ← get_value h;
    '(s, h) ← get h;
    '(d, h) ← get h;
    if bool_decide (h = EmptyString) then Some (cost, s, d) else None
  with
  | Some x => Ok x
  | None => Err (Errors.New "crypto/bcrypt: malformed hash")
  end.

Definition digest (cost : nat) (salt key : string) : string := salt +:+ key.

(** A database that cannot be reached: every query fails. *)
Definition down : error := Errors.New "dial tcp: connection refused".

(** A small deployment to run requests against. *)
Definition alice : UUID :=
  Uuid.Bytes "a" "l" "i" "c" "e" "0" "0" "0" "0" "0" "0" "0" "0" "0" "0" "1".
Definition bob : UUID :=
  Uuid.Bytes "b" "o" "b" "0" "0" "0" "0" "0" "0" "0" "0" "0" "0" "0" "0" "2".
Definition post1 : UUID :=
  Uuid.Bytes "p" "o" "s" "t" "0" "0" "0" "0" "0" "0" "0" "0" "0" "0" "0" "1".

Definition cfg : Main.apiConfig :=
  {| Main.platform := "dev"; Main.secret := "s3cret";
     Main.polkaKey := "polka" |}.

(** Ten and a half seconds after the epoch. *)
Definition env : Env :=
  {| now := 10500000000; randomBytes := "0123456789abcdef0123456789abcdef";
     randomUUID := post1 |}.

Definition bearer (token : string) : Header :=
  {[ "Authorization" := ["Bearer " +:+ token] ]}.

Definition request {I} (h : Header) (chirpID : string) (v : option I)
    : Main.Request I :=
  {| Main.rq_Header := h;
     Main.rq_PathValue := fun name =>
       if bool_decide (name = "chirpID") then chirpID else "";
     Main.rq_Decode := v |}.

Global Instance tables : UnicodeTables := {| lowerCase := fun r => r |}.

Global Instance jwt : JwtLib.
Proof.
  refine {| hmac := mac; compact := write_token; parseCompact := read_token |}.
  assert (Hget : ∀ field rest, get (put field rest) = Some (field, rest)).
  { induction field as [|c t IH]; intros rest; simpl; [reflexivity|].
    rewrite IH. reflexivity. }
  assert (Hbits : ∀ p, unbits (bits p) = Some p).
  { induction p as [p IH|p IH|]; simpl; [rewrite IH..|]; reflexivity. }
  assert (Hval : ∀ (d : option Z) rest,
            get_value (put_value d rest) = Some (d, rest)).
  { intros d rest. unfold get_value, put_value. rewrite Hget. simpl.
    rewrite Hbits. simpl. rewrite decode_encode. reflexivity. }
  intros [alg [iss sub exp nbf iat] sig] _. unfold read_token, write_token.
  simpl. rewrite !Hget. simpl. rewrite !Hget. simpl. rewrite !Hget. simpl.
  rewrite !Hval. simpl. rewrite !Hval. simpl. rewrite !Hval. simpl.
  rewrite !Hget. reflexivity.
Defined.

Global Instance bcrypt : BcryptLib.
Proof.
  refine {| Salt := string; Digest := string;
            rejectsLongPasswords := true;
            eksBlowfish := digest;
            formatHash := format_hash;
            parseHash := parse_hash |}.
  assert (Hget : ∀ field rest, get (put field rest) = Some (field, rest)).
  { induction field as [|c t IH]; intros rest; simpl; [reflexivity|].
    rewrite IH. reflexivity. }
  assert (Hbits : ∀ p, unbits (bits p) = Some p).
  { induction p as [p IH|p IH|]; simpl; [rewrite IH..|]; reflexivity. }
  intros cost s d _. unfold parse_hash, format_hash, get_value, put_value.
  rewrite Hget. simpl. rewrite Hbits. simpl. rewrite decode_encode. simpl.
  rewrite !Hget. simpl. rewrite !Hget. reflexivity.
Defined.

Global Instance unreachable : Queries unit := {|
  GetUserByEmail := fun _ _ s => (Err down, s);
  CreateRefreshToken := fun _ _ s => (Err down, s);
  GetRefreshToken := fun _ _ s => (Err down, s);
  RevokeRefreshToken := fun _ _ s => (Some down, s);
  GetChirp := fun _ _ s => (Err down, s);
  DeleteChirp := fun _ _ s => (Some down, s);
  CreateChirp := fun _ _ s => (Err down, s)
|}.

Definition access_token (u : UUID) : string :=
  or_else (Auth.MakeJWT u (Main.secret cfg) GoTime.Hour (now env) (now env)) "".

Definition user_row (id : UUID) (email password : string) : User :=
  {| user_ID := id; user_CreatedAt := 0; user_UpdatedAt := 0;
     user_Email := email;
     user_HashedPassword :=
       or_else (Auth.HashPassword password "0123456789abcdef") "";
     user_IsChirpyRed := false |}.

Definition token_row (token : string) (owner : UUID) (expires : Z)
    (revoked : option Z) : RefreshToken :=
  {| rt_Token := token; rt_CreatedAt := 0; rt_UpdatedAt := 0;
     rt_UserID := owner; rt_ExpiresAt := expires; rt_RevokedAt := revoked |}.

Definition db : Postgres.DB :=
  {| Postgres.users :=
       [user_row alice "alice@example.com" "correct horse";
        user_row bob "bob@example.com" "battery staple"];
     Postgres.refresh_tokens :=
       [token_row "live" alice 20000000000 None;
        token_row "revoked" alice 20000000000 (Some 5000000000);
        token_row "expired" bob 9000000000 None];
     Postgres.chirps :=
       [{| chirp_ID := post1; chirp_CreatedAt := 0; chirp_UpdatedAt := 0;
           chirp_Body := "hello"; chirp_UserID := bob |}] |}.

End Model.

(** ** Vocabulary of the statements below *)

(** A string that is empty or begins with a byte that continues no rune:
    what can follow a field. *)
Definition noncont (s : string) : Prop :=
  match s with
  | EmptyString => True
  | String c _ => Utf8.between 128 191 (N_of_ascii c) = false
  end.

Definition bytes (cs : list (N * string)) : string :=
  GoString.concat (snd <$> cs).

(** [cs] is the sequence of runes of its bytes: each rune is what
    [DecodeRuneInString] reads at its place. *)
Fixpoint decoding (cs : list (N * string)) : Prop :=
  match cs with
  | [] => True
  | (r, b) :: cs' =>
    b ≠ EmptyString
    ∧ Utf8.DecodeRuneInString (b +:+ bytes cs') = (r, GoString.len b)
    ∧ decoding cs'
  end.

(** A token is usable at the clock reading of [e] when some stored row
    carries it, is not revoked and expires later. *)
Definition usable (e : Env) (t : string) (db : Postgres.DB) : Prop :=
  ∃ row, row ∈ Postgres.refresh_tokens db ∧ Postgres.redeemable e t row.

Definition all_space (cs : list (N * string)) : Prop :=
  Forall (fun c => Unicode.IsSpace (fst c) = true) cs.

(** The first rune, if there is one, is not white space. *)
Definition no_space_at_head (cs : list (N * string)) : Prop :=
  ∀ c, head cs = Some c → Unicode.IsSpace (fst c) = false.

(** The constraint "token unique" on the table. *)
Definition unique_tokens (db : Postgres.DB) : Prop :=
  NoDup (rt_Token <$> Postgres.refresh_tokens db).

(** No row of the token is left with a null [revoked_at]. *)
Definition revoked (t : string) (db : Postgres.DB) : Prop :=
  ∀ row, row ∈ Postgres.refresh_tokens db → rt_Token row = t →
         rt_RevokedAt row ≠ None.

Definition issued (t : string) (db : Postgres.DB) : Prop :=
  t ∈ rt_Token <$> Postgres.refresh_tokens db.

Definition token_response (tokenString : string) : list (Http.call Main.body) :=
  [Http.SetHeader "Content-Type" "application/json";
   Http.WriteHeader Http.StatusOK;
   Http.Write (Main.JsonToken tokenString)].

(** [Authenticate] of the spec: the bearer token, validated. *)
Definition authenticate {jwtlib : JwtLib} (a : Main.apiConfig) (e : Env)
    (headers : Header) : option UUID :=
  match Auth.GetBearerToken headers with
  | Ok tokenString =>
    match Auth.ValidateJWT tokenString (Main.secret a) (now e) with
    | Ok userID => Some userID
    | Err _ => None
    end
  | Err _ => None
  end.

(** What [ValidateJWT] returns for a token past its expiry. *)
Definition expired_error : error :=
  Errors.Wrap "ValidateJWT"
    (mkError [jwt_ErrTokenInvalidClaims; jwt_ErrTokenExpired]
       "token has invalid claims").

(** ** internal/database: the other queries *)

Global Instance result_eq_dec {A} `{EqDecision A} : EqDecision (result A).
Proof. solve_decision. Defined.

Record CreateUserParams := { cu_Email : string; cu_HashedPassword : string }.

Record UpdateUserParams := {
  uu_Email : string;
  uu_HashedPassword : string;
  uu_ID : UUID
}.

(** The methods of [*database.Queries] on the users table that the
    handlers of accounts call. *)
Class UserQueries (S : Type) := {
  CreateUser : Env -> CreateUserParams -> S -> result User * S;
  UpdateUser : Env -> UpdateUserParams -> S -> result User * S;
  UpdateToChirpyRed : Env -> UUID -> S -> result User * S
}.

(** [ResetUsers].  What [DELETE FROM users] does to the rows that refer
    to a user is for the schema to say, which is not among the sources:
    the method is kept abstract. *)
Class ResetQueries (S : Type) := {
  ResetUsers : Env -> S -> option error * S
}.

(** The [:many] queries of chirps, whose SQL is not among the sources.
    The generated method returns the rows, or [nil] and an error. *)
Class ListQueries (S : Type) := {
  GetAllChirps : Env -> S -> result (list Chirp) * S;
  GetChirpsByUserID : Env -> UUID -> S -> result (list Chirp) * S
}.

(** The queries of [sql/queries/user.sql] on the users table, run on the
    tables themselves. *)
Module UserSql.

Import Postgres.

(** Modelled from the spec: the schema of [users] is not among the
    sources; the spec gives "identity (opaque unique id)" and "email
    unique". *)
Definition user_admissible (db : DB) (id : UUID) (p : CreateUserParams)
    : bool :=
  bool_decide (id ∉ user_ID <$> users db)
  && bool_decide (cu_Email p ∉ user_Email <$> users db).

(** INSERT INTO users (id, created_at, updated_at, email, hashed_password)
    VALUES (gen_random_uuid(), NOW(), NOW(), $1, $2) RETURNING *

    Modelled from the spec: the statement names no value for
    [is_chirpy_red], so the row takes the column's default; the spec has
    the flag "mutated on privilege upgrade", a user starts without it. *)
Definition CreateUser (e : Env) (p : CreateUserParams) (db : DB)
    : result User * DB :=
  if user_admissible db (randomUUID e) p then
    let row := {| user_ID := randomUUID e;
                  user_CreatedAt := now e;
                  user_UpdatedAt := now e;
                  user_Email := cu_Email p;
                  user_HashedPassword := cu_HashedPassword p;
                  user_IsChirpyRed := false |} in
    (Ok row, {| users := users db ++ [row];
                refresh_tokens := refresh_tokens db;
                chirps := chirps db |})
  else (Err (Errors.New "pq: constraint violation"), db).

(** SET email = $1, hashed_password = $2 WHERE id = $3 *)
Definition update (p : UpdateUserParams) (u : User) : User :=
  if bool_decide (user_ID u = uu_ID p) then
    {| user_ID := user_ID u;
       user_CreatedAt := user_CreatedAt u;
       user_UpdatedAt := user_UpdatedAt u;
       user_Email := uu_Email p;
       user_HashedPassword := uu_HashedPassword p;
       user_IsChirpyRed := user_IsChirpyRed u |}
  else u.

(** "email unique": the update is refused when it gives a row the email
    of a row that it leaves alone. *)
Definition email_taken (db : DB) (p : UpdateUserParams) : bool :=
  bool_decide (uu_ID p ∈ user_ID <$> users db)
  && bool_decide
       (uu_Email p
        ∈ user_Email <$> filter (fun u => user_ID u ≠ uu_ID p) (users db)).

(** UPDATE users SET email = $1, hashed_password = $2 WHERE id = $3
    RETURNING users.* *)
Definition UpdateUser (e : Env) (p : UpdateUserParams) (db : DB)
    : result User * DB :=
  if email_taken db p then (Err (Errors.New "pq: constraint violation"), db)
  else
    let rows := update p <$> users db in
    (one (filter (fun u => user_ID u = uu_ID p) rows),
     {| users := rows;
        refresh_tokens := refresh_tokens db;
        chirps := chirps db |}).

(** SET is_chirpy_red = TRUE WHERE id = $1 *)
Definition upgrade (id : UUID) (u : User) : User :=
  if bool_decide (user_ID u = id) then
    {| user_ID := user_ID u;
       user_CreatedAt := user_CreatedAt u;
       user_UpdatedAt := user_UpdatedAt u;
       user_Email := user_Email u;
       user_HashedPassword := user_HashedPassword u;
       user_IsChirpyRed := true |}
  else u.

(** UPDATE users SET is_chirpy_red = TRUE WHERE id = $1
    RETURNING users.* *)
Definition UpdateToChirpyRed (e : Env) (id : UUID) (db : DB)
    : result User * DB :=
  let rows := upgrade id <$> users db in
  (one (filter (fun u => user_ID u = id) rows),
   {| users := rows;
      refresh_tokens := refresh_tokens db;
      chirps := chirps db |}).

(** SELECT * FROM users WHERE id = $1 *)
Definition GetUserByID (e : Env) (id : UUID) (db : DB) : result User * DB :=
  (one (filter (fun u => user_ID u = id) (users db)), db).

End UserSql.

Global Instance postgres_user_queries : UserQueries Postgres.DB := {|
  CreateUser := UserSql.CreateUser;
  UpdateUser := UserSql.UpdateUser;
  UpdateToChirpyRed := UserSql.UpdateToChirpyRed
|}.

(** ** strconv *)

Module Strconv.

(** The decimal digits of [n], written in front of [acc]; at most
    [fuel] of them. *)
Fixpoint digits (fuel : nat) (n : N) (acc : string) : string :=
  match fuel with
  | O => acc
  | S fuel =>
    let acc := String (ascii_of_N (48 + n mod 10)) acc in
    if (n <? 10)%N then acc else digits fuel (n / 10)%N acc
  end.

(** [%d] of an [int32]: ten digits are enough. *)
Definition FormatInt32 (z : Z) : string :=
  if z <? 0 then String "-" (digits 10 (Z.to_N (- z)) EmptyString)
  else digits 10 (Z.to_N z) EmptyString.

End Strconv.

(** ** main.go: accounts *)

Module Accounts.

Import Main.

(** The body of a webhook: [Event] and [Data.UserID]. *)
Record webhook := { wh_Event : string; wh_UserID : string }.

Section Handlers.
Context {jwtlib : JwtLib} {bcryptlib : BcryptLib}
  {S : Type} {qry : Queries S} {users : UserQueries S}.

(** [salt] is what [bcrypt.GenerateFromPassword] reads from
    [crypto/rand]. *)
Definition postUsers (a : apiConfig) (e : Env) (salt : Salt)
    (rq : Request input) : M S unit :=
  newUser ← match rq_Decode rq with
            | Some newUser => mret newUser
            | None => WriteHeader Http.StatusInternalServerError ;; return_
            end;
  (if bool_decide (in_Email newUser = "")
      || bool_decide (in_Password newUser = "")
   then WriteHeader Http.StatusBadRequest ;; return_ else skip) ;;
  Password ← check (Auth.HashPassword (in_Password newUser) salt)
    (fun _ => WriteHeader Http.StatusInternalServerError);
  r ← query (CreateUser e {| cu_Email := in_Email newUser;
                              cu_HashedPassword := Password |});
  r ← check r (fun _ => WriteHeader Http.StatusInternalServerError);
  let respBody :=
    {| u_Id := user_ID r; u_CreatedAt := user_CreatedAt r;
       u_UpdatedAt := user_UpdatedAt r; u_Email := user_Email r;
       u_IsChirpyRed := user_IsChirpyRed r;
       u_Token := ""; u_RefreshToken := "" |} in
  dat ← check (Marshal (JsonUser respBody))
    (fun _ => WriteHeader Http.StatusInternalServerError);
  SetHeader "Content-Type" "application/json" ;;
  WriteHeader Http.StatusCreated ;;
  Write dat.

Definition putUsers (a : apiConfig) (e : Env) (salt : Salt)
    (rq : Request input) : M S unit :=
  tokenString ← check (Auth.GetBearerToken (rq_Header rq))
    (fun _ => WriteHeader Http.StatusUnauthorized);
  userID ← check (Auth.ValidateJWT tokenString (secret a) (now e))
    (fun _ => WriteHeader Http.StatusUnauthorized);
  inp ← match rq_Decode rq with
        | Some inp => mret inp
        | None => WriteHeader Http.StatusInternalServerError ;; return_
        end;
  Password ← check (Auth.HashPassword (in_Password inp) salt)
    (fun _ => WriteHeader Http.StatusInternalServerError);
  r ← query (UpdateUser e {| uu_Email := in_Email inp;
                              uu_HashedPassword := Password;
                              uu_ID := userID |});
  userRow ← check r (fun _ => WriteHeader Http.StatusInternalServerError);
  let respBody :=
    {| u_Id := user_ID userRow; u_CreatedAt := user_CreatedAt userRow;
       u_UpdatedAt := user_UpdatedAt userRow; u_Email := user_Email userRow;
       u_IsChirpyRed := user_IsChirpyRed userRow;
       u_Token := ""; u_RefreshToken := "" |} in
  dat ← check (Marshal (JsonUser respBody))
    (fun _ => WriteHeader Http.StatusInternalServerError);
  SetHeader "Content-Type" "application/json" ;;
  WriteHeader Http.StatusOK ;;
  Write dat.

(** [auth.GetAPIKey] is not among the sources: the handler is given for
    any function of the headers in its place. *)
Variable GetAPIKey : Header -> result string.

Definition postPolkaWebhooks (a : apiConfig) (e : Env) (rq : Request webhook)
    : M S unit :=
  match GetAPIKey (rq_Header rq) with
  | Ok apiKey =>
    if bool_decide (apiKey ≠ polkaKey a)
    then WriteHeader Http.StatusUnauthorized ;; return_ else skip
  | Err _ => WriteHeader Http.StatusUnauthorized ;; return_
  end ;;
  inp ← match rq_Decode rq with
        | Some inp => mret inp
        | None => WriteHeader Http.StatusInternalServerError ;; return_
        end;
  (if bool_decide (wh_Event inp ≠ "user.upgraded")
   then WriteHeader Http.StatusNoContent ;; return_ else skip) ;;
  userID ← check (Uuid.Parse (wh_UserID inp))
    (fun _ => WriteHeader Http.StatusInternalServerError);
  r ← query (UpdateToChirpyRed e userID);
  _ ← check r
    (fun err =>
       if Errors.Is err sql_ErrNoRows
       then WriteHeader Http.StatusInternalServerError
       else WriteHeader Http.StatusInternalServerError);
  WriteHeader Http.StatusNoContent.

End Handlers.

End Accounts.

(** ** main.go: reading chirps *)

Module Reading.

Import Main.

(** What [getChirps] passes to [json.Marshal]: a slice of chirps. *)
Inductive body := JsonChirps (chirps : list chirp).

Definition to_chirp (r : Chirp) : chirp :=
  {| c_Id := chirp_ID r; c_CreatedAt := chirp_CreatedAt r;
     c_UpdatedAt := chirp_UpdatedAt r; c_Body := chirp_Body r;
     c_UserId := chirp_UserID r |}.

(** The two results of a [:many] method, as the handler's variables
    receive them. *)
Definition rows_of (r : result (list Chirp)) : list Chirp :=
  match r with Ok rows => rows | Err _ => [] end.
Definition err_of {A} (r : result A) : option error :=
  match r with Ok _ => None | Err err => Some err end.

Section Handlers.
Context {S : Type} {qry : Queries S} {lists : ListQueries S}.

(** [URLQuery] is [rq.URL.Query().Get]; [log] the calls made so far on
    the response writer.  The handler declares [rows] and [err], and in
    the branch of an author declares, with [userID, err := ...], a second
    [err]: it is that one which [rows, err = a.qry.GetChirpsByUserID(...)]
    assigns, and the [err] tested after the branch is still [nil]. *)
Definition getChirps (a : apiConfig) (e : Env) (URLQuery : string -> string)
    (log : list (Http.call body)) (s : S) : list (Http.call body) * S :=
  let authorID := URLQuery "author_id" in
  let branch : option (list Chirp * option error) * S :=
    if bool_decide (authorID = "") then
      let '(r, s) := GetAllChirps e s in
      (Some (rows_of r, err_of r), s)
    else
      match Uuid.Parse authorID with
      | Err _ => (None, s)
      | Ok userID =>
        let '(r, s) := GetChirpsByUserID e userID s in
        (Some (rows_of r, None), s)
      end in
  match branch with
  | (None, s) =>
    (log ++ [Http.WriteHeader Http.StatusInternalServerError], s)
  | (Some (rows, Some _), s) =>
    (log ++ [Http.WriteHeader Http.StatusInternalServerError], s)
  | (Some (rows, None), s) =>
    let chirps := to_chirp <$> rows in
    (log ++ [Http.SetHeader "Content-Type" "application/json";
             Http.WriteHeader Http.StatusOK;
             Http.Write (JsonChirps chirps)], s)
  end.

Definition getChirpsChirpID (a : apiConfig) (e : Env) (rq : Request unit)
    : M S unit :=
  id ← check (Uuid.Parse (rq_PathValue rq "chirpID"))
    (fun _ => WriteHeader Http.StatusBadRequest);
  r ← query (GetChirp e id);
  row ← check r
    (fun err =>
       if Errors.Is err sql_ErrNoRows
       then WriteHeader Http.StatusNotFound
       else WriteHeader Http.StatusInternalServerError);
  let chrp := to_chirp row in
  dat ← check (Marshal (JsonChirp chrp))
    (fun _ => WriteHeader Http.StatusInternalServerError);
  SetHeader "Content-Type" "application/json" ;;
  WriteHeader Http.StatusOK ;;
  Write dat.

End Handlers.

End Reading.

(** ** main.go: the counter of visits and the reset *)

Module Admin.

Import Main.

(** [atomic.Int32]: addition wraps around. *)
Definition int32 (z : Z) : Z := (z + 2 ^ 31) mod 2 ^ 32 - 2 ^ 31.

(** The state behind [a]: the counter [a.fileserverHits] and the store
    behind [a.qry]. *)
Record Server (S : Type) := {
  fileserverHits : Z;
  database : S
}.
Global Arguments fileserverHits {S} s.
Global Arguments database {S} s.
Global Arguments Build_Server {S} fileserverHits database.

Section Handlers.
Context {S : Type} {reset : ResetQueries S}.

Definition Add (delta : Z) : M (Server S) unit := fun w =>
  (Next tt,
   {| rw := rw w;
      store := {| fileserverHits := int32 (fileserverHits (store w) + delta);
                  database := database (store w) |} |}).

Definition Store (val : Z) : M (Server S) unit := fun w =>
  (Next tt,
   {| rw := rw w;
      store := {| fileserverHits := val;
                  database := database (store w) |} |}).

Definition Load : M (Server S) Z := fun w =>
  (Next (fileserverHits (store w)), w).

(** Statements that know nothing of the counter, run on the server. *)
Definition on_database {A} (m : M S A) : M (Server S) A := fun w =>
  let '(r, w') := m {| rw := rw w; store := database (store w) |} in
  (r, {| rw := rw w';
         store := {| fileserverHits := fileserverHits (store w);
                     database := store w' |} |}).

(** [next.ServeHTTP(rw, rq)], for a handler built without [a]. *)
Definition ServeHTTP (next : M S unit) : M (Server S) unit :=
  on_database next.

Definition middlewareMetricsInc (a : apiConfig) (next : M S unit)
    : M (Server S) unit :=
  Add 1 ;;
  ServeHTTP next.

Definition page (hits : Z) : string :=
  String (ascii_of_N 10)
    ("<html>" +:+ String (ascii_of_N 10)
     ("  <body>" +:+ String (ascii_of_N 10)
      ("    <h1>Welcome, Chirpy Admin</h1>" +:+ String (ascii_of_N 10)
       ("    <p>Chirpy has been visited " +:+ Strconv.FormatInt32 hits
        +:+ " times!</p>" +:+ String (ascii_of_N 10)
        ("  </body>" +:+ String (ascii_of_N 10) "</html>"))))).

Definition getMetrics (a : apiConfig) : M (Server S) unit :=
  SetHeader "Content-Type" "text/html; charset=utf-8" ;;
  WriteHeader Http.StatusOK ;;
  hits ← Load;
  Write (Text (page hits)).

Definition postReset (a : apiConfig) (e : Env) : M (Server S) unit :=
  (if bool_decide (platform a ≠ "dev")
   then WriteHeader Http.StatusForbidden ;; return_ else skip) ;;
  Store 0 ;;
  err ← on_database (query (ResetUsers e));
  match err with
  | Some _ => WriteHeader Http.StatusInternalServerError ;; return_
  | None => skip
  end ;;
  SetHeader "Content-Type" "text/plain; charset=utf-8" ;;
  WriteHeader Http.StatusOK ;;
  Write (Text "counter reset").

End Handlers.

(** The server after a request: the handler runs on a response writer
    of its own, and its state stays behind. *)
Definition serve {S} (h : M S unit) (s : S) : S :=
  store (snd (run h {| rw := []; store := s |})).

End Admin.

(** ** Further instances and vocabulary *)

Module Unreachable.

(** Queries on a database that cannot be reached. *)
Global Instance lists : ListQueries unit := {|
  GetAllChirps := fun _ s => (Err Model.down, s);
  GetChirpsByUserID := fun _ _ s => (Err Model.down, s)
|}.

Global Instance reset : ResetQueries unit := {|
  ResetUsers := fun _ s => (Some Model.down, s)
|}.

End Unreachable.

(** A lower-case hexadecimal digit. *)
Definition hexdigit (c : ascii) : Prop :=
  c ∈ String.list_ascii_of_string "0123456789abcdef".

(** What [cleanString] makes of one field. *)
Definition mask {tables : UnicodeTables} (w : string) : string :=
  if bool_decide (Strings.ToLower w ∈ Main.badWords) then "****" else w.

(** The words, one space between two of them. *)
Definition join (ws : list string) : string :=
  match ws with
  | [] => EmptyString
  | w :: ws => w +:+ GoString.concat ((fun w => " " +:+ w) <$> ws)
  end.

(** The statement of [UpdateUser] leaves the row alone, or changes its
    email and its hash and nothing else. *)
Definition same_but_credentials (u u' : User) : Prop :=
  user_ID u' = user_ID u ∧ user_CreatedAt u' = user_CreatedAt u
  ∧ user_UpdatedAt u' = user_UpdatedAt u
  ∧ user_IsChirpyRed u' = user_IsChirpyRed u.

(** The row that [CreateRefreshToken] inserts at the clock reading of
    [e]. *)
Definition issued_row (e : Env) (token : string) (owner : UUID)
    : RefreshToken :=
  {| rt_Token := token; rt_CreatedAt := now e; rt_UpdatedAt := now e;
     rt_UserID := owner; rt_ExpiresAt := now e + Postgres.sixtyDays;
     rt_RevokedAt := None |}.

(** A word: the bytes of one or more runes, none of them white space. *)
Definition word (w : string) : Prop :=
  ∃ l, w = bytes l ∧ l ≠ [] ∧ decoding l
       ∧ Forall (fun c => Unicode.IsSpace (fst c) = false) l.

(** What one pass of [cleanString], for the bad word [b], makes of a
    field. *)
Definition mask_word {tables : UnicodeTables} (b w : string) : string :=
  if bool_decide (Strings.ToLower w = b) then "****" else w.

(** The answer of a successful login. *)
Definition login_response (row : User) (tokenString refreshToken : string)
    : list (Http.call Main.body) :=
  [Http.SetHeader "Content-Type" "application/json";
   Http.WriteHeader Http.StatusOK;
   Http.Write
     (Main.JsonUser
        {| Main.u_Id := user_ID row;
           Main.u_CreatedAt := user_CreatedAt row;
           Main.u_UpdatedAt := user_UpdatedAt row;
           Main.u_Email := user_Email row;
           Main.u_IsChirpyRed := user_IsChirpyRed row;
           Main.u_Token := tokenString;
           Main.u_RefreshToken := refreshToken |})].

(** The answer to a failed check of the password. *)
Definition login_refusal : list (Http.call Main.body) :=
  [Http.SetHeader "Content-Type" "text/plain";
   Http.WriteHeader Http.StatusUnauthorized;
   Http.Write (Main.Text "Incorrect email or password")].

(** The store with one more refresh token. *)
Definition with_token (db : Postgres.DB) (row : RefreshToken) : Postgres.DB :=
  {| Postgres.users := Postgres.users db;
     Postgres.refresh_tokens := Postgres.refresh_tokens db ++ [row];
     Postgres.chirps := Postgres.chirps db |}.

(** The answer of [postUsers] and [putUsers]: the row without its hash,
    the two token fields empty. *)
Definition user_response (code : Z) (row : User)
    : list (Http.call Main.body) :=
  [Http.SetHeader "Content-Type" "application/json";
   Http.WriteHeader code;
   Http.Write
     (Main.JsonUser
        {| Main.u_Id := user_ID row;
           Main.u_CreatedAt := user_CreatedAt row;
           Main.u_UpdatedAt := user_UpdatedAt row;
           Main.u_Email := user_Email row;
           Main.u_IsChirpyRed := user_IsChirpyRed row;
           Main.u_Token := "";
           Main.u_RefreshToken := "" |})].

(** The store with other rows of users. *)
Definition with_users (db : Postgres.DB) (rows : list User) : Postgres.DB :=
  {| Postgres.users := rows;
     Postgres.refresh_tokens := Postgres.refresh_tokens db;
     Postgres.chirps := Postgres.chirps db |}.

(** The row that [CreateUser] inserts at the clock reading of [e]. *)
Definition created_user (e : Env) (email hash : string) : User :=
  {| user_ID := randomUUID e; user_CreatedAt := now e;
     user_UpdatedAt := now e; user_Email := email;
     user_HashedPassword := hash; user_IsChirpyRed := false |}.

(** * Properties *)

(** ** Running the model *)

Example TrimSpace_ex : Strings.TrimSpace "  a b  " = "a b".
Proof. reflexivity. Qed.

Example Fields_ex : Strings.Fields " foo  bar baz " = ["foo"; "bar"; "baz"].
Proof. reflexivity. Qed.

Example Fields_nbsp_ex :
  Strings.Fields (String (ascii_of_N 194) (String (ascii_of_N 160) "x")) = ["x"].
Proof. reflexivity. Qed.

Example cleanString_ex :
  Main.cleanString "hello Kerfuffle  you FORNAX x" = Some "hello **** you **** x".
Proof. vm_compute. reflexivity. Qed.

Example Uuid_ex :
  Uuid.Parse "{6BA7B810-9dad-11d1-80b4-00c04fd430c8}"
  = Uuid.Parse "6ba7b8109dad11d180b400c04fd430c8".
Proof. vm_compute. reflexivity. Qed.

(** ** Runes and fields *)

Lemma first_range b0 sz lo hi :
  Utf8.first b0 = Some (sz, lo, hi) → (128 <= lo)%N ∧ (hi <= 191)%N.
Proof.
  unfold Utf8.first.
  repeat (match goal with |- context [if ?b then _ else _] => destruct b end;
          [intros [= <- <- <-]; lia|]).
  discriminate.
Qed.

Lemma between_sub lo hi b :
  (128 <= lo)%N → (hi <= 191)%N →
  Utf8.between 128 191 b = false → Utf8.between lo hi b = false.
Proof.
  unfold Utf8.between. intros Hlo Hhi Hb.
  apply andb_false_iff in Hb. apply andb_false_iff.
  destruct Hb as [Hb|Hb]; [left|right].
  - apply N.leb_gt in Hb. apply N.leb_gt. lia.
  - apply N.leb_gt in Hb. apply N.leb_gt. lia.
Qed.

Lemma Decode_noncont_1 c0 R T :
  noncont R → noncont T →
  Utf8.DecodeRuneInString (String c0 R) = Utf8.DecodeRuneInString (String c0 T).
Proof.
  intros HR HT. unfold Utf8.DecodeRuneInString.
  destruct (N_of_ascii c0 <? Utf8.RuneSelf)%N; [reflexivity|].
  destruct (Utf8.first (N_of_ascii c0)) as [[[sz lo] hi]|] eqn:Hf.
  - destruct (first_range _ _ _ _ Hf) as [Hlo Hhi].
    destruct R as [|r R], T as [|t T]; simpl in *;
      rewrite ?(between_sub lo hi _ Hlo Hhi HR), ?(between_sub lo hi _ Hlo Hhi HT);
      reflexivity.
  - destruct R, T; reflexivity.
Qed.

Lemma app_String c x y : String c x +:+ y = String c (x +:+ y).
Proof. reflexivity. Qed.
Lemma app_Empty y : EmptyString +:+ y = y.
Proof. reflexivity. Qed.

Lemma Decode_context x R T :
  x ≠ EmptyString → noncont R → noncont T →
  Utf8.DecodeRuneInString (x +:+ R) = Utf8.DecodeRuneInString (x +:+ T).
Proof.
  intros Hx HR HT.
  destruct x as [|c0 [|c1 [|c2 [|c3 x]]]]; [congruence|..];
    rewrite ?app_String, ?app_Empty.
  - apply Decode_noncont_1; assumption.
  - unfold Utf8.DecodeRuneInString.
    destruct (N_of_ascii c0 <? Utf8.RuneSelf)%N; [reflexivity|].
    destruct (Utf8.first (N_of_ascii c0)) as [[[sz lo] hi]|]; [|reflexivity].
    destruct (negb (Utf8.between lo hi (N_of_ascii c1))); [reflexivity|].
    destruct (sz =? 2)%nat; [reflexivity|].
    destruct R as [|r R], T as [|t T]; simpl in *; rewrite ?HR, ?HT; reflexivity.
  - unfold Utf8.DecodeRuneInString.
    destruct (N_of_ascii c0 <? Utf8.RuneSelf)%N; [reflexivity|].
    destruct (Utf8.first (N_of_ascii c0)) as [[[sz lo] hi]|]; [|reflexivity].
    destruct (negb (Utf8.between lo hi (N_of_ascii c1))); [reflexivity|].
    destruct (sz =? 2)%nat; [reflexivity|].
    destruct (negb (Utf8.between 128 191 (N_of_ascii c2))); [reflexivity|].
    destruct (sz =? 3)%nat; [reflexivity|].
    destruct R as [|r R], T as [|t T]; simpl in *; rewrite ?HR, ?HT; reflexivity.
  - reflexivity.
Qed.

Lemma Decode_width s :
  s ≠ EmptyString →
  (1 <= snd (Utf8.DecodeRuneInString s) <= GoString.len s)%nat.
Proof.
  intros Hs. destruct s as [|c0 s]; [congruence|]. unfold Utf8.DecodeRuneInString.
  repeat (match goal with
          | |- context [if ?b then _ else _] => destruct b
          | |- context [match ?x with _ => _ end] => destruct x
          end; simpl; try lia).
Qed.

Lemma app_assoc_s (x y z : string) : (x +:+ y) +:+ z = x +:+ y +:+ z.
Proof. induction x as [|c x IH]; [reflexivity|]. rewrite !app_String, IH. reflexivity. Qed.

Lemma app_nil_s (x : string) : x +:+ EmptyString = x.
Proof. induction x as [|c x IH]; [reflexivity|]. rewrite app_String, IH. reflexivity. Qed.

Lemma app_nonempty_l (x y : string) : x ≠ EmptyString → x +:+ y ≠ EmptyString.
Proof. destruct x; [congruence|rewrite app_String; discriminate]. Qed.

Lemma app_nonempty (x y : string) : y ≠ EmptyString → x +:+ y ≠ EmptyString.
Proof. destruct x; [rewrite app_Empty; auto|rewrite app_String; discriminate]. Qed.

Lemma take_drop n s : GoString.take n s +:+ GoString.drop n s = s.
Proof.
  revert s. induction n as [|n IH]; intros [|c s]; simpl; try reflexivity.
  rewrite app_String, IH. reflexivity.
Qed.

Lemma len_take n s : (n <= GoString.len s)%nat → GoString.len (GoString.take n s) = n.
Proof.
  revert s. induction n as [|n IH]; intros [|c s]; simpl; intros Hn;
    try reflexivity; try lia. rewrite IH by lia. reflexivity.
Qed.

Lemma len_drop n s : GoString.len (GoString.drop n s) = (GoString.len s - n)%nat.
Proof.
  revert s. induction n as [|n IH]; intros [|c s]; simpl; try reflexivity.
  apply IH.
Qed.

Lemma take_nonempty n s : (1 <= n)%nat → s ≠ EmptyString → GoString.take n s ≠ EmptyString.
Proof. destruct n, s; simpl; try lia; try congruence. Qed.

Lemma runes_go_decoding fuel : ∀ s,
  (GoString.len s <= fuel)%nat →
  decoding (GoString.runes_go fuel s) ∧ bytes (GoString.runes_go fuel s) = s.
Proof.
  induction fuel as [|fuel IH]; intros s Hlen.
  - destruct s; [split; [exact I|reflexivity]|simpl in Hlen; lia].
  - destruct s as [|c t]; [split; [exact I|reflexivity]|].
    assert (Hne : String c t ≠ EmptyString) by discriminate.
    pose proof (Decode_width (String c t) Hne) as Hw.
    cbn [GoString.runes_go].
    destruct (Utf8.DecodeRuneInString (String c t)) as [r w] eqn:Hdec.
    cbn [snd] in Hw.
    destruct (IH (GoString.drop w (String c t))) as [Hd Hb].
    { rewrite len_drop. simpl in *. lia. }
    cbn [decoding]. unfold bytes in *. cbn [fmap list_fmap snd GoString.concat].
    fold (@fmap list _ _ _ (@snd N string)) in *.
    rewrite Hb, take_drop. split; [|reflexivity].
    split; [apply take_nonempty; [lia|exact Hne]|].
    split; [|exact Hd]. rewrite len_take by lia. exact Hdec.
Qed.

Lemma runes_decoding s : decoding (GoString.runes s) ∧ bytes (GoString.runes s) = s.
Proof. apply runes_go_decoding. reflexivity. Qed.

Lemma RuneError_not_space : Unicode.IsSpace Utf8.RuneError = false.
Proof. reflexivity. Qed.

(** A white-space rune does not begin with a continuation byte. *)
Lemma space_noncont (s : string) :
  Unicode.IsSpace (fst (Utf8.DecodeRuneInString s)) = true → noncont s.
Proof.
  destruct s as [|c0 s]; [intros _; exact I|]. simpl.
  destruct (Utf8.between 128 191 (N_of_ascii c0)) eqn:Hb; [|reflexivity].
  intros Hsp. exfalso.
  unfold Utf8.between in Hb. apply andb_true_iff in Hb. destruct Hb as [Hlo Hhi].
  apply N.leb_le in Hlo. apply N.leb_le in Hhi.
  assert (Hself : (N_of_ascii c0 <? Utf8.RuneSelf)%N = false)
    by (apply N.ltb_ge; unfold Utf8.RuneSelf; lia).
  assert (Hfirst : Utf8.first (N_of_ascii c0) = None).
  { unfold Utf8.first, Utf8.between.
    repeat match goal with
           | |- context [(?a <=? ?b)%N] =>
             destruct (N.leb_spec a b); simpl; try lia
           | |- context [(?a =? ?b)%N] =>
             destruct (N.eqb_spec a b); simpl; try lia
           end. reflexivity. }
  rewrite Hself, Hfirst in Hsp. destruct s; simpl in Hsp; discriminate.
Qed.

Lemma fields_go_nonempty cs : ∀ cur, cur ≠ EmptyString → Strings.fields_go cur cs ≠ [].
Proof.
  induction cs as [|[r b] cs IH]; intros cur Hcur; simpl.
  - destruct cur; [congruence|discriminate].
  - destruct (Unicode.IsSpace r).
    + destruct cur; [congruence|discriminate].
    + apply IH. apply app_nonempty_l. exact Hcur.
Qed.

Lemma flush_cons cur w ws : Strings.flush cur = w :: ws → cur ≠ EmptyString ∧ w = cur ∧ ws = [].
Proof. destruct cur; simpl; [discriminate|]. intros [= <- <-]. auto. Qed.

Lemma flush_nonempty cur : cur ≠ EmptyString → Strings.flush cur = [cur].
Proof. destruct cur; [congruence|reflexivity]. Qed.

(** The first field found by [fields_go]: [cur] extended by bytes [m],
    up to a remainder [R] that is empty or begins a white-space rune. *)
Lemma fields_go_first cs :
  decoding cs → ∀ cur w ws,
  Strings.fields_go cur cs = w :: ws →
  ∃ m R, w = cur +:+ m ∧ noncont R
    ∧ (cur ≠ EmptyString → m +:+ R = bytes cs)
    ∧ (cur = EmptyString →
       w ≠ EmptyString
       ∧ Unicode.IsSpace (fst (Utf8.DecodeRuneInString (w +:+ R))) = false).
Proof.
  induction cs as [|[r b] cs IH]; intros Hdec cur w ws Hgo.
  - simpl in Hgo. apply flush_cons in Hgo. destruct Hgo as (Hcur & -> & _).
    exists EmptyString, EmptyString. rewrite app_nil_s.
    split; [reflexivity|]. split; [exact I|]. split; [reflexivity|congruence].
  - destruct Hdec as (Hb & Hr & Hdec). simpl in Hgo.
    destruct (Unicode.IsSpace r) eqn:Hsp.
    + destruct cur as [|c cur].
      * simpl in Hgo. destruct (IH Hdec _ _ _ Hgo) as (m & R & Hw & HR & _ & Hempty).
        exists m, R. split; [exact Hw|]. split; [exact HR|].
        split; [congruence|]. intros _. apply Hempty. reflexivity.
      * simpl in Hgo. injection Hgo as <- _.
        exists EmptyString, (bytes ((r, b) :: cs)). rewrite app_nil_s.
        split; [reflexivity|]. split.
        { apply space_noncont. unfold bytes. cbn [fmap list_fmap snd GoString.concat].
          fold (@fmap list _ _ _ (@snd N string)). fold (bytes cs).
          rewrite Hr. exact Hsp. }
        split; [reflexivity|discriminate].
    + assert (Hcur' : cur +:+ b ≠ EmptyString) by (apply app_nonempty; exact Hb).
      destruct (IH Hdec _ _ _ Hgo) as (m & R & Hw & HR & Hrest & _).
      specialize (Hrest Hcur').
      exists (b +:+ m), R. split; [rewrite Hw, app_assoc_s; reflexivity|].
      split; [exact HR|]. split.
      * intros _. unfold bytes. cbn [fmap list_fmap snd GoString.concat].
        fold (@fmap list _ _ _ (@snd N string)). fold (bytes cs).
        rewrite app_assoc_s, Hrest. reflexivity.
      * intros ->. rewrite app_Empty in Hw. subst w. split.
        { apply app_nonempty_l. exact Hb. }
        rewrite app_assoc_s, Hrest, Hr. exact Hsp.
Qed.

(** A field of [s] followed by nothing, or by a byte that continues no
    rune, still begins with a rune that is not white space. *)
Lemma Fields_first s w ws :
  Strings.Fields s = w :: ws →
  w ≠ EmptyString
  ∧ ∀ T, noncont T →
      Unicode.IsSpace (fst (Utf8.DecodeRuneInString (w +:+ T))) = false.
Proof.
  intros Hf. destruct (runes_decoding s) as [Hdec _].
  destruct (fields_go_first _ Hdec _ _ _ Hf) as (m & R & _ & HR & _ & Hw).
  destruct (Hw eq_refl) as [Hne Hsp]. split; [exact Hne|].
  intros T HT. rewrite (Decode_context w T R Hne HT HR). exact Hsp.
Qed.

Lemma Fields_nonspace_start x :
  x ≠ EmptyString →
  Unicode.IsSpace (fst (Utf8.DecodeRuneInString x)) = false →
  Strings.Fields x ≠ [].
Proof.
  intros Hx Hsp. unfold Strings.Fields, GoString.runes.
  destruct x as [|c t]; [congruence|]. cbn [GoString.len GoString.runes_go].
  pose proof (Decode_width (String c t) Hx) as Hw.
  destruct (Utf8.DecodeRuneInString (String c t)) as [r w]. cbn [fst snd] in *.
  cbn [Strings.fields_go]. rewrite Hsp. apply fields_go_nonempty.
  rewrite app_Empty. apply take_nonempty; [lia|exact Hx].
Qed.

Lemma Fields_space x : Strings.Fields (String " " x) = Strings.Fields x.
Proof. reflexivity. Qed.

Lemma bytes_app l1 l2 : bytes (l1 ++ l2) = bytes l1 +:+ bytes l2.
Proof.
  unfold bytes. induction l1 as [|[r b] l1 IH]; [reflexivity|].
  cbn [app fmap list_fmap snd GoString.concat].
  fold (@fmap list _ _ _ (@snd N string)). rewrite IH, app_assoc_s. reflexivity.
Qed.

Lemma bytes_cons r b cs : bytes ((r, b) :: cs) = b +:+ bytes cs.
Proof. reflexivity. Qed.

Lemma len_app x y : GoString.len (x +:+ y) = (GoString.len x + GoString.len y)%nat.
Proof. induction x as [|c x IH]; [reflexivity|]. rewrite app_String. simpl. rewrite IH. reflexivity. Qed.

Lemma take_app x y : GoString.take (GoString.len x) (x +:+ y) = x.
Proof.
  induction x as [|c x IH]; [destruct y; reflexivity|].
  rewrite app_String. simpl. rewrite IH. reflexivity.
Qed.

Lemma drop_app x y : GoString.drop (GoString.len x) (x +:+ y) = y.
Proof.
  induction x as [|c x IH]; [destruct y; reflexivity|].
  rewrite app_String. simpl. exact IH.
Qed.

Lemma drop_spaces_split cs :
  ∃ sp, cs = sp ++ Strings.drop_spaces cs ∧ all_space sp
        ∧ no_space_at_head (Strings.drop_spaces cs).
Proof.
  induction cs as [|[r b] cs IH].
  - exists []. split; [reflexivity|]. split; [constructor|]. intros c [=].
  - simpl. destruct (Unicode.IsSpace r) eqn:Hsp.
    + destruct IH as (sp & Hcs & Hall & Hhead). exists ((r, b) :: sp).
      split; [simpl; rewrite <- Hcs; reflexivity|].
      split; [constructor; assumption|exact Hhead].
    + exists []. split; [reflexivity|]. split; [constructor|].
      intros c [= <-]. exact Hsp.
Qed.

Lemma decoding_suffix l1 l2 : decoding (l1 ++ l2) → decoding l2.
Proof.
  induction l1 as [|[r b] l1 IH]; [auto|]. intros (_ & _ & Hd). exact (IH Hd).
Qed.

Lemma all_space_noncont sp : decoding sp → all_space sp → noncont (bytes sp).
Proof.
  destruct sp as [|[r b] sp]; [intros _ _; exact I|].
  intros (_ & Hr & _) Hall. inversion Hall as [|? ? Hsp _]; subst.
  apply space_noncont. rewrite bytes_cons, Hr. exact Hsp.
Qed.

Lemma decoding_prefix l1 sp :
  decoding (l1 ++ sp) → all_space sp → decoding l1.
Proof.
  intros Hd Hall. pose proof (all_space_noncont sp (decoding_suffix _ _ Hd) Hall) as HR.
  induction l1 as [|[r b] l1 IH]; [exact I|].
  destruct Hd as (Hb & Hr & Hd). split; [exact Hb|]. split; [|exact (IH Hd)].
  rewrite bytes_app, <- app_assoc_s in Hr.
  rewrite <- Hr, <- (app_nil_s (b +:+ bytes l1)) at 1.
  apply Decode_context; [apply app_nonempty_l; exact Hb|exact I|exact HR].
Qed.

Lemma runes_go_bytes cs : decoding cs → ∀ fuel,
  (GoString.len (bytes cs) <= fuel)%nat → GoString.runes_go fuel (bytes cs) = cs.
Proof.
  induction cs as [|[r b] cs IH]; intros Hd fuel Hfuel.
  - destruct fuel; reflexivity.
  - destruct Hd as (Hb & Hr & Hd). rewrite bytes_cons in *.
    rewrite len_app in Hfuel.
    assert (Hlen : (1 <= GoString.len b)%nat) by (destruct b; [congruence|simpl; lia]).
    destruct fuel as [|fuel]; [lia|].
    destruct (b +:+ bytes cs) as [|c t] eqn:Hs.
    { destruct b; [congruence|rewrite app_String in Hs; discriminate]. }
    cbn [GoString.runes_go]. rewrite Hr, <- Hs, take_app, drop_app.
    rewrite IH by (try assumption; lia). reflexivity.
Qed.

Lemma runes_bytes cs : decoding cs → GoString.runes (bytes cs) = cs.
Proof. intros Hd. apply runes_go_bytes; [exact Hd|reflexivity]. Qed.

(** [TrimSpace s] is [s] without the white-space runes at its two ends:
    the runes of [s] are white-space runes, the runes of the result, and
    white-space runes again, and the result neither begins nor ends with
    a white-space rune. *)
Lemma TrimSpace_runes (s : string) :
  ∃ lead trail,
    GoString.runes s = lead ++ GoString.runes (Strings.TrimSpace s) ++ trail
    ∧ all_space lead ∧ all_space trail
    ∧ no_space_at_head (GoString.runes (Strings.TrimSpace s))
    ∧ no_space_at_head (rev (GoString.runes (Strings.TrimSpace s))).
Proof.
  unfold Strings.TrimSpace. fold (bytes (rev (Strings.drop_spaces
    (rev (Strings.drop_spaces (GoString.runes s)))))).
  destruct (runes_decoding s) as [Hd _].
  destruct (drop_spaces_split (GoString.runes s)) as (lead & Hs & Hlead & Hhead).
  set (cs1 := Strings.drop_spaces (GoString.runes s)) in *.
  destruct (drop_spaces_split (rev cs1)) as (sp & Hrev & Hsp & Hlast).
  set (cs2' := Strings.drop_spaces (rev cs1)) in *.
  assert (Hcs1 : cs1 = rev cs2' ++ rev sp).
  { rewrite <- rev_app_distr, <- Hrev, rev_involutive. reflexivity. }
  assert (Htrail : all_space (rev sp)).
  { unfold all_space in *. rewrite Forall_forall in *. intros c Hin.
    apply Hsp. apply list_elem_of_In. apply in_rev, list_elem_of_In. exact Hin. }
  assert (Hd2 : decoding (rev cs2')).
  { apply (decoding_prefix _ (rev sp)); [|exact Htrail].
    rewrite <- Hcs1. apply (decoding_suffix lead). rewrite <- Hs. exact Hd. }
  rewrite (runes_bytes _ Hd2).
  exists lead, (rev sp). split; [rewrite <- Hcs1; exact Hs|].
  split; [exact Hlead|]. split; [exact Htrail|]. split.
  - intros c Hc. apply Hhead. rewrite Hcs1.
    destruct (rev cs2'); [discriminate|exact Hc].
  - rewrite rev_involutive. exact Hlast.
Qed.

(** ** Handlers, step by step *)

Ltac handler :=
  unfold Main.run, Main.check, Main.eval, Main.skip, Main.return_, Main.panic,
    Main.query, Main.WriteHeader, Main.SetHeader, Main.Write, Main.call,
    Main.Marshal, mbind, mret, Main.M_bind, Main.M_ret; simpl.

(** ** Bearer extraction *)

Lemma Get_empty (h : Header) (key : string) :
  Http.Get h key = "" ↔
  h !! key = None ∨ h !! key = Some [] ∨ ∃ vs, h !! key = Some ("" :: vs).
Proof.
  unfold Http.Get. destruct (h !! key) as [[|v vs]|]; split; intros Hh;
    try (left; reflexivity); try (right; left; reflexivity);
    try reflexivity.
  - subst v. right. right. exists vs. reflexivity.
  - destruct Hh as [Hh|[Hh|[vs' Hh]]]; congruence.
Qed.

(** C5, as the claim states it, fails: for the header value ["Bearer "],
    and for ["Bearer "] followed by a no-break space (U+00A0, which the
    server's own trimming of the header line leaves in place), the
    remainder after the prefix and the surrounding white space is empty,
    and the function returns that empty token with no error. *)
Lemma GetBearerToken_empty_remainder :
  let nbsp := String (ascii_of_N 194) (String (ascii_of_N 160) "") in
  let remainder (headers : Header) :=
    Strings.TrimSpace
      (Strings.TrimPrefix (Http.Get headers "Authorization") "Bearer ") in
  let plain : Header := {[ "Authorization" := ["Bearer "] ]} in
  let padded : Header := {[ "Authorization" := ["Bearer " +:+ nbsp] ]} in
  remainder plain = "" ∧ Auth.GetBearerToken plain = Ok ""
  ∧ remainder padded = "" ∧ Auth.GetBearerToken padded = Ok "".
Proof. vm_compute. repeat split. Qed.

(** C5, amended: [GetBearerToken] returns an error exactly when the
    Authorization field is absent or its first value is the empty string;
    in every other case it returns, with no error, that value with one
    leading ["Bearer "] removed when present and the surrounding white
    space trimmed, so with no white-space rune at either end, a result
    that may be empty.  It is a total function: no input makes it
    panic. *)
Theorem GetBearerToken_outcome (headers : Header) :
  match Auth.GetBearerToken headers with
  | Err _ =>
    headers !! "Authorization" = None
    ∨ headers !! "Authorization" = Some []
    ∨ ∃ vs, headers !! "Authorization" = Some ("" :: vs)
  | Ok token =>
    ∃ v vs, headers !! "Authorization" = Some (v :: vs) ∧ v ≠ ""
      ∧ token = Strings.TrimSpace (Strings.TrimPrefix v "Bearer ")
      ∧ no_space_at_head (GoString.runes token)
      ∧ no_space_at_head (rev (GoString.runes token))
  end.
Proof.
  unfold Auth.GetBearerToken. case_bool_decide as Hget.
  - apply Get_empty. exact Hget.
  - unfold Http.Get in *.
    destruct (headers !! "Authorization") as [[|v vs]|]; try congruence.
    exists v, vs. split; [reflexivity|]. split; [exact Hget|].
    split; [reflexivity|].
    destruct (TrimSpace_runes (Strings.TrimPrefix v "Bearer "))
      as (lead & trail & _ & _ & _ & Hhead & Hlast).
    split; assumption.
Qed.

(** ** The revoke handler *)

(** C9: when the request carries an Authorization value (a non-empty one:
    [Header.Get] does not tell an empty value from an absent field), the
    last call of [postRevoke] on the response writer is
    [WriteHeader(204)], and when the update fails it follows a
    [WriteHeader(500)]. *)
Theorem postRevoke_writes_204 {S : Type} {qry : Queries S}
    (a : Main.apiConfig) (e : Env) (rq : Main.Request unit) (w : Main.World S) :
  Http.Get (Main.rq_Header rq) "Authorization" ≠ "" →
  ∃ refreshToken,
    Auth.GetBearerToken (Main.rq_Header rq) = Ok refreshToken
    ∧ let '(err, s) := RevokeRefreshToken e refreshToken (Main.store w) in
      Main.run (Main.postRevoke a e rq) w =
      (Main.Completed,
       {| Main.rw :=
            (Main.rw w
             ++ match err with
                | Some _ => [Http.WriteHeader Http.StatusInternalServerError]
                | None => []
                end)
            ++ [Http.WriteHeader Http.StatusNoContent];
          Main.store := s |}).
Proof.
  intros Hget. unfold Main.postRevoke, Auth.GetBearerToken.
  rewrite bool_decide_eq_false_2 by exact Hget.
  eexists. split; [reflexivity|]. handler.
  destruct (RevokeRefreshToken e _ (Main.store w)) as [[err|] s]; simpl.
  - reflexivity.
  - rewrite app_nil_r. reflexivity.
Qed.

(** The revocation of a token when the database is down: 500, then 204. *)
Lemma postRevoke_writes_204_witness :
  Main.run (Main.postRevoke (Main.Build_apiConfig "dev" "k" "p")
              (Build_Env 0 "" Uuid.Nil)
              (Main.Build_Request unit {[ "Authorization" := ["Bearer abc"] ]}
                 (fun _ => "") None))
    (Main.Build_World [] tt)
  = (Main.Completed,
     Main.Build_World
       [Http.WriteHeader Http.StatusInternalServerError;
        Http.WriteHeader Http.StatusNoContent] tt).
Proof.
  destruct (postRevoke_writes_204 (qry := Model.unreachable)
              (Main.Build_apiConfig "dev" "k" "p") (Build_Env 0 "" Uuid.Nil)
              (Main.Build_Request unit {[ "Authorization" := ["Bearer abc"] ]}
                 (fun _ => "") None)
              (Main.Build_World [] tt)) as [t [Ht Hrun]].
  - vm_compute. discriminate.
  - vm_compute in Ht. injection Ht as <-. exact Hrun.
Defined.

(** What the client is sent on the failing path is the 500: the first
    [WriteHeader] decides and the 204 comes too late. *)
Lemma postRevoke_failure_status {S : Type} {qry : Queries S}
    (a : Main.apiConfig) (e : Env) (rq : Main.Request unit)
    (refreshToken : string) (err : error) (s s' : S) :
  Auth.GetBearerToken (Main.rq_Header rq) = Ok refreshToken →
  RevokeRefreshToken e refreshToken s = (Some err, s') →
  Http.status
    (Main.rw (snd (Main.run (Main.postRevoke a e rq) (Main.Build_World [] s))))
  = Some Http.StatusInternalServerError.
Proof.
  intros Hbearer Hrevoke. unfold Main.postRevoke. rewrite Hbearer. handler.
  rewrite Hrevoke. reflexivity.
Qed.

(** ** Refresh tokens: the queries *)

Section Rows.
Context {A : Type} (P : A → Prop) `{!∀ x, Decision (P x)}.

Lemma one_filter_Ok (l : list A) (r : A) :
  Postgres.one (filter P l) = Ok r → r ∈ l ∧ P r.
Proof.
  intros Hone. assert (Hin : r ∈ filter P l).
  { destruct (filter P l) as [|x xs]; [discriminate|].
    injection Hone as ->. left. }
  apply list_elem_of_filter in Hin. tauto.
Qed.

Lemma one_filter_found (l : list A) (x : A) :
  x ∈ l → P x → ∃ r, Postgres.one (filter P l) = Ok r.
Proof.
  intros Hin HP. assert (Hx : x ∈ filter P l).
  { apply list_elem_of_filter. auto. }
  destruct (filter P l) as [|r rs]; [inversion Hx|]. exists r. reflexivity.
Qed.

Lemma one_filter_none (l : list A) :
  (∀ x, x ∈ l → ¬ P x) →
  Postgres.one (filter P l)
  = Err (Errors.Of sql_ErrNoRows "sql: no rows in result set").
Proof.
  intros Hnone. destruct (filter P l) as [|r rs] eqn:Hf; [reflexivity|].
  assert (Hin : r ∈ filter P l) by (rewrite Hf; left).
  apply list_elem_of_filter in Hin. destruct Hin as [HP Hin].
  destruct (Hnone r Hin HP).
Qed.
End Rows.

(** The three ways of not being usable. *)
Lemma never_issued_not_usable e t db :
  t ∉ rt_Token <$> Postgres.refresh_tokens db → ¬ usable e t db.
Proof.
  intros Hnot (row & Hin & Htok & _). apply Hnot. rewrite <- Htok.
  apply list_elem_of_fmap. exists row. auto.
Qed.

Lemma revoked_not_usable e t db :
  (∀ row, row ∈ Postgres.refresh_tokens db → rt_Token row = t →
          rt_RevokedAt row ≠ None) →
  ¬ usable e t db.
Proof. intros Hrev (row & Hin & Htok & Hnull & _). exact (Hrev row Hin Htok Hnull). Qed.

Lemma expired_not_usable e t db :
  (∀ row, row ∈ Postgres.refresh_tokens db → rt_Token row = t →
          rt_ExpiresAt row <= now e) →
  ¬ usable e t db.
Proof.
  intros Hexp (row & Hin & Htok & _ & Hlt). specialize (Hexp row Hin Htok). lia.
Qed.

Lemma GetRefreshToken_Ok e t db row :
  fst (Postgres.GetRefreshToken e t db) = Ok row →
  row ∈ Postgres.refresh_tokens db ∧ Postgres.redeemable e t row.
Proof. apply one_filter_Ok. Qed.

Lemma GetRefreshToken_usable e t db :
  usable e t db → ∃ row, fst (Postgres.GetRefreshToken e t db) = Ok row.
Proof. intros (row & Hin & Hred). exact (one_filter_found _ _ row Hin Hred). Qed.

Lemma GetRefreshToken_not_usable e t db :
  ¬ usable e t db →
  fst (Postgres.GetRefreshToken e t db)
  = Err (Errors.Of sql_ErrNoRows "sql: no rows in result set").
Proof.
  intros Hnot. apply one_filter_none. intros row Hin Hred.
  apply Hnot. exists row. auto.
Qed.

(** The statements keep the tokens of the table distinct. *)
Lemma execute_unique_tokens db st :
  unique_tokens db → unique_tokens (Postgres.execute db st).
Proof.
  unfold unique_tokens. intros Hnd. destruct st as [e p|e t|e t]; simpl.
  - unfold Postgres.CreateRefreshToken.
    destruct (Postgres.refresh_token_admissible db p) eqn:Hadm; simpl;
      [|exact Hnd].
    apply andb_true_iff in Hadm. destruct Hadm as [Hfresh _].
    apply bool_decide_eq_true in Hfresh.
    rewrite fmap_app. apply NoDup_app. split; [exact Hnd|]. split.
    + intros t Hin Hin'. simpl in Hin'. apply list_elem_of_singleton in Hin'.
      subst t. exact (Hfresh Hin).
    + simpl. apply NoDup_singleton.
  - exact Hnd.
  - rewrite <- list_fmap_compose.
    rewrite (list_fmap_ext (rt_Token ∘ Postgres.revoke e t) rt_Token
               (Postgres.refresh_tokens db)); [exact Hnd|].
    intros i row _. simpl. unfold Postgres.revoke.
    case_bool_decide; reflexivity.
Qed.

(** With distinct tokens the row that the lookup returns is the row of
    the token. *)
Lemma GetRefreshToken_the_row e t db row row' :
  unique_tokens db →
  row ∈ Postgres.refresh_tokens db → rt_Token row = t →
  fst (Postgres.GetRefreshToken e t db) = Ok row' →
  row' = row.
Proof.
  unfold unique_tokens. intros Hnd Hin Htok Hrow'.
  destruct (GetRefreshToken_Ok e t db row' Hrow') as (Hin' & Htok' & _).
  apply list_elem_of_lookup in Hin. destruct Hin as [i Hi].
  apply list_elem_of_lookup in Hin'. destruct Hin' as [j Hj].
  assert (Hij : i = j).
  { apply (NoDup_lookup _ i j t Hnd); rewrite list_lookup_fmap.
    - rewrite Hi. simpl. congruence.
    - rewrite Hj. simpl. congruence. }
  subst j. congruence.
Qed.

(** ** The refresh handler *)

(** [postRefresh] over any store: its one query is [GetRefreshToken]. *)
Lemma postRefresh_run {jwtlib : JwtLib} {S : Type} {qry : Queries S}
    a e rq t (w : Main.World S) :
  Auth.GetBearerToken (Main.rq_Header rq) = Ok t →
  Main.run (Main.postRefresh a e rq) w =
  let '(r, s) := GetRefreshToken e t (Main.store w) in
  match r with
  | Ok row =>
    (Main.Completed,
     {| Main.rw :=
          Main.rw w
          ++ token_response
               (or_else
                  (Auth.MakeJWT (rt_UserID row) (Main.secret a) GoTime.Hour
                     (now e) (now e)) "");
        Main.store := s |})
  | Err err =>
    (Main.Completed,
     {| Main.rw :=
          Main.rw w
          ++ [Http.WriteHeader
                (if Errors.Is err sql_ErrNoRows then Http.StatusUnauthorized
                 else Http.StatusInternalServerError)];
        Main.store := s |})
  end.
Proof.
  intros Hbearer. unfold Main.postRefresh. rewrite Hbearer. handler.
  destruct (GetRefreshToken e t (Main.store w)) as [[row|err] s]; simpl.
  - rewrite <- !app_assoc. reflexivity.
  - destruct (Errors.Is err sql_ErrNoRows); reflexivity.
Qed.

(** C1: the lookup of the refresh flow succeeds exactly when a stored row
    for the token has a null [revoked_at] and an [expires_at] after the
    current time, and then yields such a row, whose user the new access
    token is minted for.  In every other state of the token (never issued,
    revoked, expired) the lookup is the one [sql.ErrNoRows] and the
    response the one bare 401. *)
Theorem refresh_redeems_iff_usable {jwtlib : JwtLib}
    (a : Main.apiConfig) (e : Env) (rq : Main.Request unit) (t : string)
    (db : Postgres.DB) (log : list (Http.call Main.body)) :
  Auth.GetBearerToken (Main.rq_Header rq) = Ok t →
  let lookup := fst (Postgres.GetRefreshToken e t db) in
  let out := Main.run (Main.postRefresh a e rq) (Main.Build_World log db) in
  (usable e t db ↔ ∃ row, lookup = Ok row)
  ∧ (∀ row, lookup = Ok row →
       row ∈ Postgres.refresh_tokens db ∧ rt_Token row = t
       ∧ rt_RevokedAt row = None ∧ now e < rt_ExpiresAt row
       ∧ ∃ tokenString,
           Auth.MakeJWT (rt_UserID row) (Main.secret a) GoTime.Hour
             (now e) (now e) = Ok tokenString
           ∧ out = (Main.Completed,
                    Main.Build_World (log ++ token_response tokenString) db))
  ∧ (¬ usable e t db →
       lookup = Err (Errors.Of sql_ErrNoRows "sql: no rows in result set")
       ∧ out = (Main.Completed,
                Main.Build_World
                  (log ++ [Http.WriteHeader Http.StatusUnauthorized]) db)).
Proof.
  intros Hbearer lookup out. subst lookup out.
  rewrite (postRefresh_run a e rq t _ Hbearer).
  change (GetRefreshToken e t (Main.store (Main.Build_World log db)))
    with (fst (Postgres.GetRefreshToken e t db), db).
  cbn [Main.store Main.rw]. split; [|split].
  - split; [apply GetRefreshToken_usable|].
    intros [row Hrow]. exists row. apply (GetRefreshToken_Ok e t db row Hrow).
  - intros row Hrow.
    destruct (GetRefreshToken_Ok e t db row Hrow) as (Hin & Htok & Hnull & Hlt).
    repeat (split; [assumption|]). eexists. split; [reflexivity|].
    rewrite Hrow. reflexivity.
  - intros Hnot. rewrite (GetRefreshToken_not_usable e t db Hnot).
    split; reflexivity.
Qed.

(** A live token is found; a revoked one is answered with the bare 401. *)
Lemma refresh_redeems_iff_usable_witness :
  (∃ row, fst (Postgres.GetRefreshToken Model.env "live" Model.db) = Ok row)
  ∧ snd (Main.run
           (Main.postRefresh Model.cfg Model.env
              (Model.request (Model.bearer "revoked") "" None))
           (Main.Build_World [] Model.db))
    = Main.Build_World [Http.WriteHeader Http.StatusUnauthorized] Model.db.
Proof.
  split.
  - apply (refresh_redeems_iff_usable Model.cfg Model.env
             (Model.request (Model.bearer "live") "" None) "live" Model.db []).
    + vm_compute. reflexivity.
    + exists (Model.token_row "live" Model.alice 20000000000 None).
      split; [left|]. unfold Postgres.redeemable. simpl. repeat split.
  - destruct (refresh_redeems_iff_usable Model.cfg Model.env
                (Model.request (Model.bearer "revoked") "" None) "revoked"
                Model.db []) as (_ & _ & Hfail).
    + vm_compute. reflexivity.
    + destruct Hfail as [_ ->]; [|reflexivity].
      apply revoked_not_usable. intros row Hin Htok.
      simpl in Hin. set_unfold in Hin.
      destruct Hin as [->|[->|[->|[]]]]; simpl in *; discriminate.
Defined.

(** C3: [postRefresh] leaves the store as it found it, so in particular
    every field of every row of [refresh_tokens]; a successful redemption
    finds its row still stored and answers with the new access token and
    nothing else. *)
Theorem postRefresh_leaves_rows_unchanged {jwtlib : JwtLib}
    (a : Main.apiConfig) (e : Env) (rq : Main.Request unit)
    (w : Main.World Postgres.DB) :
  let w' := snd (Main.run (Main.postRefresh a e rq) w) in
  Main.store w' = Main.store w
  ∧ ∀ t row,
      Auth.GetBearerToken (Main.rq_Header rq) = Ok t →
      fst (Postgres.GetRefreshToken e t (Main.store w)) = Ok row →
      row ∈ Postgres.refresh_tokens (Main.store w')
      ∧ ∃ tokenString,
          Auth.MakeJWT (rt_UserID row) (Main.secret a) GoTime.Hour
            (now e) (now e) = Ok tokenString
          ∧ Main.rw w' = Main.rw w ++ token_response tokenString.
Proof.
  destruct (Auth.GetBearerToken (Main.rq_Header rq)) as [t|err] eqn:Hbearer.
  - cbn zeta. rewrite (postRefresh_run a e rq t w Hbearer).
    change (GetRefreshToken e t (Main.store w))
      with (fst (Postgres.GetRefreshToken e t (Main.store w)), Main.store w).
    cbv iota beta.
    destruct (fst (Postgres.GetRefreshToken e t (Main.store w)))
      as [row|err] eqn:Hrow.
    + split; [reflexivity|]. intros t' row' [= <-] Hrow'.
      rewrite Hrow in Hrow'. injection Hrow' as <-. cbn [snd Main.store Main.rw].
      split; [apply (GetRefreshToken_Ok e t _ row Hrow)|].
      eexists. split; reflexivity.
    + split; [reflexivity|]. intros t' row' [= <-] Hrow'. congruence.
  - cbn zeta. unfold Main.postRefresh. rewrite Hbearer. handler.
    split; [reflexivity|]. intros t row [=].
Qed.

(** ** Revocation *)

Lemma revoke_Token e t row : rt_Token (Postgres.revoke e t row) = rt_Token row.
Proof. unfold Postgres.revoke. case_bool_decide; reflexivity. Qed.

Lemma RevokeRefreshToken_revoked e t db :
  revoked t (snd (Postgres.RevokeRefreshToken e t db)).
Proof.
  intros row Hin Htok. simpl in Hin. apply list_elem_of_fmap in Hin.
  destruct Hin as (row0 & -> & Hin0). rewrite revoke_Token in Htok.
  unfold Postgres.revoke. rewrite bool_decide_eq_true_2 by exact Htok.
  discriminate.
Qed.

Lemma RevokeRefreshToken_issued e t t' db :
  issued t' db → issued t' (snd (Postgres.RevokeRefreshToken e t db)).
Proof.
  unfold issued. simpl. rewrite <- list_fmap_compose.
  intros Hin. apply list_elem_of_fmap in Hin. destruct Hin as (row & -> & Hin).
  apply list_elem_of_fmap. exists row. split; [|exact Hin].
  simpl. rewrite revoke_Token. reflexivity.
Qed.

(** Once revoked, and issued, a token stays so under every statement: a
    second revocation rewrites [revoked_at] with another instant, a lookup
    changes nothing, and an insertion of the same token is refused. *)
Lemma execute_revoked t db st :
  issued t db → revoked t db →
  issued t (Postgres.execute db st) ∧ revoked t (Postgres.execute db st).
Proof.
  intros Hiss Hrev. destruct st as [e p|e t'|e t']; simpl.
  - unfold Postgres.CreateRefreshToken.
    destruct (Postgres.refresh_token_admissible db p) eqn:Hadm; simpl;
      [|split; assumption].
    apply andb_true_iff in Hadm. destruct Hadm as [Hfresh _].
    apply bool_decide_eq_true in Hfresh. split.
    + unfold issued. simpl. rewrite fmap_app. apply elem_of_app. left. exact Hiss.
    + intros row Hin Htok. simpl in Hin. apply elem_of_app in Hin.
      destruct Hin as [Hin|Hin]; [exact (Hrev row Hin Htok)|].
      apply list_elem_of_singleton in Hin. subst row. simpl in Htok.
      subst t. destruct (Hfresh Hiss).
  - split; assumption.
  - split; [apply (RevokeRefreshToken_issued e t' t db Hiss)|].
    intros row Hin Htok. simpl in Hin. apply list_elem_of_fmap in Hin.
    destruct Hin as (row0 & -> & Hin0). rewrite revoke_Token in Htok.
    unfold Postgres.revoke. case_bool_decide; [discriminate|].
    exact (Hrev row0 Hin0 Htok).
Qed.

Lemma execute_all_revoked t sts : ∀ db,
  issued t db → revoked t db →
  revoked t (Postgres.execute_all sts db).
Proof.
  unfold Postgres.execute_all.
  induction sts as [|st sts IH]; intros db Hiss Hrev; simpl; [exact Hrev|].
  destruct (execute_revoked t db st Hiss Hrev) as [Hiss' Hrev'].
  apply IH; assumption.
Qed.

(** C2: [RevokeRefreshToken] returns no error whatever the state of the
    token (live, revoked already, never issued) and [postRevoke] answers
    204; after it no lookup of the token succeeds, at any clock reading;
    and for a token that was issued this stays so after any further
    insertions, lookups and revocations. *)
Theorem revoke_is_final (a : Main.apiConfig) (e : Env) (rq : Main.Request unit)
    (t : string) (db : Postgres.DB) (log : list (Http.call Main.body)) :
  Auth.GetBearerToken (Main.rq_Header rq) = Ok t →
  let db' := snd (Postgres.RevokeRefreshToken e t db) in
  fst (Postgres.RevokeRefreshToken e t db) = None
  ∧ Main.run (Main.postRevoke a e rq) (Main.Build_World log db)
    = (Main.Completed,
       Main.Build_World (log ++ [Http.WriteHeader Http.StatusNoContent]) db')
  ∧ (∀ e', ¬ usable e' t db'
           ∧ fst (Postgres.GetRefreshToken e' t db')
             = Err (Errors.Of sql_ErrNoRows "sql: no rows in result set"))
  ∧ (issued t db → ∀ sts e',
       ¬ usable e' t (Postgres.execute_all sts db')
       ∧ fst (Postgres.GetRefreshToken e' t (Postgres.execute_all sts db'))
         = Err (Errors.Of sql_ErrNoRows "sql: no rows in result set")).
Proof.
  intros Hbearer db'.
  assert (Hdead : ∀ e' d, revoked t d →
            ¬ usable e' t d
            ∧ fst (Postgres.GetRefreshToken e' t d)
              = Err (Errors.Of sql_ErrNoRows "sql: no rows in result set")).
  { intros e' d Hrev. pose proof (revoked_not_usable e' t d Hrev) as Hnot.
    split; [exact Hnot|apply GetRefreshToken_not_usable; exact Hnot]. }
  split; [reflexivity|]. split; [|split].
  - unfold Main.postRevoke. rewrite Hbearer. handler. reflexivity.
  - intros e'. apply Hdead. apply RevokeRefreshToken_revoked.
  - intros Hiss sts e'. apply Hdead. apply execute_all_revoked.
    + apply RevokeRefreshToken_issued. exact Hiss.
    + apply RevokeRefreshToken_revoked.
Qed.

(** A live token, revoked, is not found again, not even after an attempt
    to insert it anew. *)
Lemma revoke_is_final_witness :
  let rq := Model.request (I := unit) (Model.bearer "live") "" None in
  let db' := snd (Postgres.RevokeRefreshToken Model.env "live" Model.db) in
  (∃ row, fst (Postgres.GetRefreshToken Model.env "live" Model.db) = Ok row)
  ∧ fst (Postgres.GetRefreshToken Model.env "live"
           (Postgres.execute_all
              [Postgres.Create Model.env
                 {| crt_Token := "live"; crt_UserID := Model.alice |};
               Postgres.Revoke Model.env "live"] db'))
    = Err (Errors.Of sql_ErrNoRows "sql: no rows in result set").
Proof.
  split.
  - eexists. vm_compute. reflexivity.
  - apply (revoke_is_final Model.cfg Model.env
             (Model.request (I := unit) (Model.bearer "live") "" None)
             "live" Model.db []).
    + vm_compute. reflexivity.
    + unfold issued. simpl. set_solver.
Defined.

(** ** Deleting a chirp *)

(** [deleteChirpsChirpID] over any store: [GetChirp] first, the
    authentication and the owner next, [DeleteChirp] last. *)
Lemma deleteChirpsChirpID_run {jwtlib : JwtLib} {S : Type} {qry : Queries S}
    a e rq chirpID (w : Main.World S) :
  Uuid.Parse (Main.rq_PathValue rq "chirpID") = Ok chirpID →
  Main.run (Main.deleteChirpsChirpID a e rq) w =
  let '(r, s1) := GetChirp e chirpID (Main.store w) in
  let answer code s :=
    (Main.Completed,
     {| Main.rw := Main.rw w ++ [Http.WriteHeader code]; Main.store := s |}) in
  match r with
  | Err err =>
    answer (if Errors.Is err sql_ErrNoRows then Http.StatusNotFound
            else Http.StatusInternalServerError) s1
  | Ok chirp =>
    match authenticate a e (Main.rq_Header rq) with
    | None => answer Http.StatusUnauthorized s1
    | Some userID =>
      if bool_decide (chirp_UserID chirp ≠ userID) then
        answer Http.StatusForbidden s1
      else
        let '(err, s2) := DeleteChirp e chirpID s1 in
        match err with
        | Some _ => answer Http.StatusInternalServerError s2
        | None => answer Http.StatusNoContent s2
        end
    end
  end.
Proof.
  intros Hparse. unfold Main.deleteChirpsChirpID, authenticate.
  rewrite Hparse. handler.
  destruct (GetChirp e chirpID (Main.store w)) as [[chirp|err] s1]; simpl.
  - destruct (Auth.GetBearerToken (Main.rq_Header rq)) as [tokenString|err];
      simpl; [|reflexivity].
    destruct (Auth.ValidateJWT tokenString (Main.secret a) (now e))
      as [userID|err]; simpl; [|reflexivity].
    case_bool_decide; simpl; [reflexivity|].
    destruct (DeleteChirp e chirpID s1) as [[err|] s2]; reflexivity.
  - destruct (Errors.Is err sql_ErrNoRows); reflexivity.
Qed.

(** C7: on a delete request whose path value parses to [chirpID]: when no
    chirp has that id the answer is 404, whatever the headers, so before
    any authentication or comparison of owners; when the chirp exists and
    the authenticated user is not its owner the answer is 403 and the
    store is unchanged; when the user is the owner the rows of that id
    are deleted, the others kept, and the answer is 204. *)
Theorem deleteChirp_checks_owner_after_existence {jwtlib : JwtLib}
    (a : Main.apiConfig) (e : Env) (rq : Main.Request unit) (chirpID : UUID)
    (db : Postgres.DB) (log : list (Http.call Main.body)) :
  Uuid.Parse (Main.rq_PathValue rq "chirpID") = Ok chirpID →
  let out := Main.run (Main.deleteChirpsChirpID a e rq)
               (Main.Build_World log db) in
  ((∀ c, c ∈ Postgres.chirps db → chirp_ID c ≠ chirpID) →
     out = (Main.Completed,
            Main.Build_World (log ++ [Http.WriteHeader Http.StatusNotFound]) db))
  ∧ (∀ chirp userID,
       fst (Postgres.GetChirp e chirpID db) = Ok chirp →
       authenticate a e (Main.rq_Header rq) = Some userID →
       (userID ≠ chirp_UserID chirp →
          out = (Main.Completed,
                 Main.Build_World
                   (log ++ [Http.WriteHeader Http.StatusForbidden]) db))
       ∧ (userID = chirp_UserID chirp →
          ∃ db', out = (Main.Completed,
                        Main.Build_World
                          (log ++ [Http.WriteHeader Http.StatusNoContent]) db')
            ∧ ∀ c, c ∈ Postgres.chirps db' ↔
                   c ∈ Postgres.chirps db ∧ chirp_ID c ≠ chirpID)).
Proof.
  intros Hparse out. subst out.
  rewrite (deleteChirpsChirpID_run a e rq chirpID _ Hparse).
  change (GetChirp e chirpID (Main.store (Main.Build_World log db)))
    with (fst (Postgres.GetChirp e chirpID db), db).
  cbn [Main.store Main.rw]. cbv zeta. split.
  - intros Hnone.
    assert (Herr : fst (Postgres.GetChirp e chirpID db)
                   = Err (Errors.Of sql_ErrNoRows "sql: no rows in result set")).
    { apply one_filter_none. intros c Hin Hid. exact (Hnone c Hin Hid). }
    rewrite Herr. reflexivity.
  - intros chirp userID Hchirp Hauth. rewrite Hchirp, Hauth. split.
    + intros Hne. rewrite bool_decide_eq_true_2 by congruence. reflexivity.
    + intros Heq. rewrite bool_decide_eq_false_2 by (intros Hne; congruence).
      eexists. split; [reflexivity|]. intros c. simpl.
      rewrite list_elem_of_filter. tauto.
Qed.

(** Alice, with her access token, may not delete the chirp of Bob. *)
Lemma deleteChirp_checks_owner_after_existence_witness :
  let rq := Model.request (I := unit)
              (Model.bearer (Model.access_token Model.alice))
              (Uuid.String Model.post1) None in
  Main.run (Main.deleteChirpsChirpID Model.cfg Model.env rq)
    (Main.Build_World [] Model.db)
  = (Main.Completed,
     Main.Build_World [Http.WriteHeader Http.StatusForbidden] Model.db).
Proof.
  intros rq.
  destruct (deleteChirp_checks_owner_after_existence Model.cfg Model.env rq
              Model.post1 Model.db []) as [_ Hfound].
  - vm_compute. reflexivity.
  - destruct (Hfound
                {| chirp_ID := Model.post1; chirp_CreatedAt := 0;
                   chirp_UpdatedAt := 0; chirp_Body := "hello";
                   chirp_UserID := Model.bob |} Model.alice) as [Hforbidden _].
    + vm_compute. reflexivity.
    + vm_compute. reflexivity.
    + apply Hforbidden. discriminate.
Defined.

(** ** Logging in *)

(** The two failures of [postLogin], over any store. *)
Lemma postLogin_run {jwtlib : JwtLib} {bcryptlib : BcryptLib}
    {S : Type} {qry : Queries S} a e rq inp (w : Main.World S) :
  Main.rq_Decode rq = Some inp →
  let '(r, s) := GetUserByEmail e (Main.in_Email inp) (Main.store w) in
  match r with
  | Err _ =>
    Main.run (Main.postLogin a e rq) w =
    (Main.Completed,
     {| Main.rw :=
          Main.rw w ++ [Http.WriteHeader Http.StatusInternalServerError];
        Main.store := s |})
  | Ok row =>
    ∀ err,
      Auth.CheckPasswordHash (Main.in_Password inp) (user_HashedPassword row)
      = Some err →
      Main.run (Main.postLogin a e rq) w =
      (Main.Completed,
       {| Main.rw :=
            Main.rw w
            ++ [Http.SetHeader "Content-Type" "text/plain";
                Http.WriteHeader Http.StatusUnauthorized;
                Http.Write (Main.Text "Incorrect email or password")];
          Main.store := s |})
  end.
Proof.
  intros Hdecode.
  destruct (GetUserByEmail e (Main.in_Email inp) (Main.store w))
    as [[row|err] s] eqn:Hrow.
  - intros err Hcheck. unfold Main.postLogin. rewrite Hdecode. handler.
    rewrite Hrow. simpl. rewrite Hcheck. simpl.
    rewrite <- !app_assoc. reflexivity.
  - unfold Main.postLogin. rewrite Hdecode. handler.
    rewrite Hrow. reflexivity.
Qed.

(** C6 fails on the code: a login with an email that matches no user is
    answered with a bare 500, since every error of [GetUserByEmail],
    [sql.ErrNoRows] among them, takes the internal-error branch; a login
    with a wrong password for a stored email is answered with 401 and the
    text "Incorrect email or password". *)
Theorem login_failures_differ {jwtlib : JwtLib} {bcryptlib : BcryptLib}
    (a : Main.apiConfig) (e : Env) (unknown wrong : Main.Request Main.input)
    (inp1 inp2 : Main.input) (row : User) (err : error)
    (db : Postgres.DB) (log : list (Http.call Main.body)) :
  Main.rq_Decode unknown = Some inp1 →
  (∀ u, u ∈ Postgres.users db → user_Email u ≠ Main.in_Email inp1) →
  Main.rq_Decode wrong = Some inp2 →
  fst (Postgres.GetUserByEmail e (Main.in_Email inp2) db) = Ok row →
  Auth.CheckPasswordHash (Main.in_Password inp2) (user_HashedPassword row)
  = Some err →
  Main.run (Main.postLogin a e unknown) (Main.Build_World log db)
  = (Main.Completed,
     Main.Build_World
       (log ++ [Http.WriteHeader Http.StatusInternalServerError]) db)
  ∧ Main.run (Main.postLogin a e wrong) (Main.Build_World log db)
    = (Main.Completed,
       Main.Build_World
         (log ++ [Http.SetHeader "Content-Type" "text/plain";
                  Http.WriteHeader Http.StatusUnauthorized;
                  Http.Write (Main.Text "Incorrect email or password")]) db).
Proof.
  intros Hdec1 Hnone Hdec2 Hrow Hcheck. split.
  - pose proof (postLogin_run a e unknown inp1 (Main.Build_World log db) Hdec1)
      as Hrun.
    change (GetUserByEmail e (Main.in_Email inp1)
              (Main.store (Main.Build_World log db)))
      with (fst (Postgres.GetUserByEmail e (Main.in_Email inp1) db), db) in Hrun.
    assert (Herr : fst (Postgres.GetUserByEmail e (Main.in_Email inp1) db)
                   = Err (Errors.Of sql_ErrNoRows "sql: no rows in result set")).
    { apply one_filter_none. intros u Hin Hemail. exact (Hnone u Hin Hemail). }
    rewrite Herr in Hrun. exact Hrun.
  - pose proof (postLogin_run a e wrong inp2 (Main.Build_World log db) Hdec2)
      as Hrun.
    change (GetUserByEmail e (Main.in_Email inp2)
              (Main.store (Main.Build_World log db)))
      with (fst (Postgres.GetUserByEmail e (Main.in_Email inp2) db), db) in Hrun.
    rewrite Hrow in Hrun. exact (Hrun err Hcheck).
Qed.

(** An email that no user has, and a wrong password for one that alice
    has. *)
Lemma login_failures_differ_witness :
  let login email password :=
    Main.rw (snd (Main.run
                    (Main.postLogin Model.cfg Model.env
                       (Model.request ∅ ""
                          (Some {| Main.in_Password := password;
                                   Main.in_Email := email |})))
                    (Main.Build_World [] Model.db))) in
  Http.status (login "carol@example.com" "correct horse") = Some 500
  ∧ Http.status (login "alice@example.com" "incorrect horse") = Some 401.
Proof.
  intros login. subst login. cbn beta.
  destruct (login_failures_differ Model.cfg Model.env
              (Model.request ∅ ""
                 (Some {| Main.in_Password := "correct horse";
                          Main.in_Email := "carol@example.com" |}))
              (Model.request ∅ ""
                 (Some {| Main.in_Password := "incorrect horse";
                          Main.in_Email := "alice@example.com" |}))
              {| Main.in_Password := "correct horse";
                 Main.in_Email := "carol@example.com" |}
              {| Main.in_Password := "incorrect horse";
                 Main.in_Email := "alice@example.com" |}
              (Model.user_row Model.alice "alice@example.com" "correct horse")
              (Errors.Of bcrypt_ErrMismatchedHashAndPassword
                 "crypto/bcrypt: hashedPassword is not the hash of the given password")
              Model.db []) as [H500 H401].
  - reflexivity.
  - intros u Hin. simpl in Hin. set_unfold in Hin.
    destruct Hin as [->|[->|[]]]; simpl; discriminate.
  - reflexivity.
  - vm_compute. reflexivity.
  - vm_compute. reflexivity.
  - rewrite H500, H401. split; reflexivity.
Defined.

(** ** The filter *)

Section Censor.
Context {tables : UnicodeTables}.

Lemma censor_fold b ws : ∀ acc,
  ∃ T, noncont T ∧ fold_left (Main.censor_word b) ws acc = acc +:+ T.
Proof.
  induction ws as [|w ws IH]; intros acc; simpl.
  - exists EmptyString. rewrite app_nil_s. split; [exact I|reflexivity].
  - destruct (IH (Main.censor_word b acc w)) as (T & HT & ->).
    unfold Main.censor_word. case_bool_decide.
    + exists (" ****" +:+ T). split; [reflexivity|]. rewrite app_assoc_s. reflexivity.
    + exists (" " +:+ w +:+ T). split; [reflexivity|].
      rewrite !app_assoc_s. reflexivity.
Qed.

Lemma censor_keeps_fields (s b : string) :
  Strings.Fields s ≠ [] → Strings.Fields (Main.censor s b) ≠ [].
Proof.
  intros Hs. unfold Main.censor.
  destruct (Strings.Fields s) as [|w ws] eqn:Hf; [congruence|].
  destruct (Fields_first s w ws Hf) as [Hw Hsolid].
  cbn [fold_left].
  destruct (censor_fold b ws (Main.censor_word b EmptyString w)) as (T & HT & ->).
  unfold Main.censor_word. case_bool_decide.
  - rewrite app_Empty. change (" ****" +:+ T) with (String " " ("****" +:+ T)).
    rewrite Fields_space. apply Fields_nonspace_start; [discriminate|reflexivity].
  - rewrite app_Empty, app_assoc_s.
    change (" " +:+ w +:+ T) with (String " " (w +:+ T)).
    rewrite Fields_space. apply Fields_nonspace_start.
    + apply app_nonempty_l. exact Hw.
    + apply Hsolid. exact HT.
Qed.

Lemma cleanString_some_fields (s : string) :
  Strings.Fields s ≠ [] → ∃ out, Main.cleanString s = Some out.
Proof.
  intros Hs. unfold Main.cleanString, Main.badWords. cbn [fold_left].
  pose proof (censor_keeps_fields _ "fornax"
                (censor_keeps_fields _ "sharbert"
                   (censor_keeps_fields _ "kerfuffle" Hs))) as Hout.
  destruct (Main.censor _ "fornax") as [|c out]; [destruct Hout; reflexivity|].
  exists out. reflexivity.
Qed.
End Censor.

(** ** Creating a chirp *)

Lemma censor_no_fields {tables : UnicodeTables} (s b : string) :
  Strings.Fields s = [] → Main.censor s b = "".
Proof. intros Hs. unfold Main.censor. rewrite Hs. reflexivity. Qed.

(** A string without fields, one of white space only, leaves
    [cleanString] with the empty string to slice from index 1. *)
Lemma cleanString_no_fields {tables : UnicodeTables} (s : string) :
  Strings.Fields s = [] → Main.cleanString s = None.
Proof.
  intros Hs. unfold Main.cleanString, Main.badWords. simpl.
  rewrite (censor_no_fields s _ Hs). reflexivity.
Qed.

(** [cleanString] panics on the strings without a field, and on no
    other. *)
Lemma cleanString_panics_iff {tables : UnicodeTables} (s : string) :
  Main.cleanString s = None ↔ Strings.Fields s = [].
Proof.
  split; [|apply cleanString_no_fields].
  intros Hnone. destruct (Strings.Fields s) as [|w ws] eqn:Hf; [reflexivity|].
  destruct (cleanString_some_fields s) as [out Hout]; [rewrite Hf; discriminate|].
  congruence.
Qed.

(** C10 fails on the code: for an authenticated request whose body is
    not empty but holds white space only, [cleanString] slices the empty
    string from index 1 and the handler panics, having written
    nothing. *)
Theorem postChirps_blank_body_panics {tables : UnicodeTables} {jwtlib : JwtLib}
    {S : Type} {qry : Queries S}
    (a : Main.apiConfig) (e : Env) (rq : Main.Request Main.inputChirp)
    (chrp : Main.inputChirp) (userID : UUID) (w : Main.World S) :
  Main.rq_Decode rq = Some chrp →
  authenticate a e (Main.rq_Header rq) = Some userID →
  Main.in_Body chrp ≠ "" →
  Strings.Fields (Main.in_Body chrp) = [] →
  Main.cleanString (Main.in_Body chrp) = None
  ∧ Main.run (Main.postChirps a e rq) w = (Main.Panicked, w).
Proof.
  intros Hdecode Hauth Hnonempty Hblank.
  pose proof (cleanString_no_fields _ Hblank) as Hclean.
  split; [exact Hclean|].
  unfold authenticate in Hauth. unfold Main.postChirps. rewrite Hdecode.
  destruct (Auth.GetBearerToken (Main.rq_Header rq)) as [tokenString|];
    [|discriminate].
  destruct (Auth.ValidateJWT tokenString (Main.secret a) (now e)) as [u|] eqn:Hv;
    [|discriminate].
  handler. rewrite Hv. simpl.
  rewrite bool_decide_eq_false_2 by exact Hnonempty. simpl.
  rewrite Hclean. simpl. destruct w. reflexivity.
Qed.

(** The body of one space, sent by alice. *)
Lemma postChirps_blank_body_panics_witness :
  Main.run (Main.postChirps Model.cfg Model.env
              (Model.request (Model.bearer (Model.access_token Model.alice)) ""
                 (Some {| Main.in_Body := " " |})))
    (Main.Build_World [] Model.db)
  = (Main.Panicked, Main.Build_World [] Model.db).
Proof.
  apply (postChirps_blank_body_panics Model.cfg Model.env
           (Model.request (Model.bearer (Model.access_token Model.alice)) ""
              (Some {| Main.in_Body := " " |}))
           {| Main.in_Body := " " |} Model.alice).
  - reflexivity.
  - vm_compute. reflexivity.
  - discriminate.
  - reflexivity.
Defined.

(** ** Identifiers in text form *)

Lemma xtob_hex (c : ascii) : Hex.xtob (Hex.hi c) (Hex.lo c) = Some c.
Proof. destruct c as [[] [] [] [] [] [] [] []]; reflexivity. Qed.

Lemma hi_ascii (c : ascii) : (N_of_ascii (Hex.hi c) <? Utf8.RuneSelf)%N = true.
Proof. destruct c as [[] [] [] [] [] [] [] []]; reflexivity. Qed.

Lemma lo_ascii (c : ascii) : (N_of_ascii (Hex.lo c) <? Utf8.RuneSelf)%N = true.
Proof. destruct c as [[] [] [] [] [] [] [] []]; reflexivity. Qed.

(** [uuid.Parse] reads back what [UUID.String] prints. *)
Lemma Parse_String (u : UUID) : Uuid.Parse (Uuid.String u) = Ok u.
Proof.
  destruct u.
  cbv beta iota zeta delta [Uuid.String Hex.of_byte String.append].
  unfold Uuid.Parse. cbn -[Hex.hi Hex.lo Hex.xtob].
  unfold Uuid.parse_hyphenated. cbn -[Hex.hi Hex.lo Hex.xtob].
  rewrite !xtob_hex. reflexivity.
Qed.

Lemma String_isASCII (u : UUID) : Strings.isASCII (Uuid.String u) = true.
Proof.
  destruct u.
  cbv beta iota zeta delta [Uuid.String Hex.of_byte String.append].
  cbn -[Hex.hi Hex.lo N.ltb N_of_ascii]. rewrite !hi_ascii, !lo_ascii.
  reflexivity.
Qed.

(** ** Access tokens *)

Lemma Truncate_le (t : Z) : GoTime.Truncate t GoTime.Second <= t.
Proof.
  unfold GoTime.Truncate, GoTime.Second.
  pose proof (Z.mul_div_le t 1000000000). lia.
Qed.

Lemma Truncate_gt (t : Z) : t - GoTime.Second < GoTime.Truncate t GoTime.Second.
Proof.
  unfold GoTime.Truncate, GoTime.Second.
  pose proof (Z.mod_pos_bound t 1000000000).
  pose proof (Z.div_mod t 1000000000). lia.
Qed.

Lemma Truncate_whole (t : Z) :
  whole_seconds (Jwt.NewNumericDate t) = true.
Proof.
  unfold whole_seconds, Jwt.NewNumericDate, Jwt.TimePrecision.
  apply bool_decide_eq_true. unfold GoTime.Truncate, GoTime.Second.
  rewrite Z.div_mul by lia. reflexivity.
Qed.

(** The claims that [MakeJWT] signs. *)
Lemma MakeJWT_Ok {jwtlib : JwtLib} u secret ttl now1 now2 :
  ∃ tok,
    Auth.MakeJWT u secret ttl now1 now2 = Ok (compact tok)
    ∧ portable tok = true
    ∧ Alg tok = "HS256"
    ∧ Signature tok = hmac "HS256" secret (Claims tok)
    ∧ Issuer (Claims tok) = "chirpy"
    ∧ Subject (Claims tok) = Uuid.String u
    ∧ ExpiresAt (Claims tok)
      = Some (GoTime.Truncate (now2 + ttl) GoTime.Second)
    ∧ NotBefore (Claims tok) = None.
Proof.
  eexists. split; [reflexivity|]. split; [|repeat split].
  unfold portable. cbn [Alg Claims Issuer Subject ExpiresAt NotBefore IssuedAt].
  rewrite String_isASCII.
  rewrite (Truncate_whole now1), (Truncate_whole (GoTime.Add now2 ttl)).
  reflexivity.
Qed.

(** The window of a token: it validates, under the secret that signed it,
    exactly before its [exp], the instant [now2 + ttl] cut to the second. *)
Lemma ValidateJWT_MakeJWT {jwtlib : JwtLib} u secret ttl now1 now2 :
  ∃ tokenString,
    Auth.MakeJWT u secret ttl now1 now2 = Ok tokenString
    ∧ ∀ now,
        Auth.ValidateJWT tokenString secret now
        = if now <? GoTime.Truncate (now2 + ttl) GoTime.Second
          then Ok u else Err expired_error.
Proof.
  destruct (MakeJWT_Ok u secret ttl now1 now2)
    as (tok & Hmake & Hport & Halg & Hsig & Hiss & Hsub & Hexp & Hnbf).
  exists (compact tok). split; [exact Hmake|]. intros t.
  unfold Auth.ValidateJWT, Jwt.ParseWithClaims.
  rewrite (parseCompact_compact tok Hport), Halg, Hsig.
  change (Jwt.isHMAC "HS256") with true. cbv iota.
  rewrite bool_decide_eq_true_2 by reflexivity.
  unfold Jwt.validate. rewrite Hexp, Hnbf. unfold GoTime.Before.
  destruct (t <? GoTime.Truncate (now2 + ttl) GoTime.Second); simpl.
  - rewrite Hiss, Hsub, Parse_String. reflexivity.
  - reflexivity.
Qed.

(** C4, as the claim states it, fails: a token issued with a time to live
    of one nanosecond, ten and a half seconds after the epoch, carries
    the expiry of that instant cut to the second, ten seconds, and is
    expired when validated at the instant of issue; so for every HMAC and
    every wire format. *)
Lemma short_ttl_expired_at_issue :
  0 < GoTime.Nanosecond
  ∧ ∀ J : JwtLib,
      ∃ tokenString,
        Auth.MakeJWT Model.alice "s3cret" GoTime.Nanosecond
          10500000000 10500000000 = Ok tokenString
        ∧ Auth.ValidateJWT tokenString "s3cret" 10500000000
          = Err expired_error.
Proof.
  split; [reflexivity|]. intros J.
  destruct (ValidateJWT_MakeJWT Model.alice "s3cret" GoTime.Nanosecond
              10500000000 10500000000) as (tokenString & Hmake & Hwindow).
  exists tokenString. split; [exact Hmake|]. rewrite Hwindow. reflexivity.
Qed.

(** C4, amended: for every user id and every positive time to live, the
    token issued validates, under the secret that signed it, exactly at
    the instants before its expiry, which is the instant of issue plus
    the time to live, cut to the whole second.  So with a time to live of
    one second or more it validates at the instant of issue and yields
    the user id, and with any time to live it fails with the expiry
    error from the instant of issue plus the time to live on. *)
Theorem issue_then_validate {jwtlib : JwtLib}
    (u : UUID) (secret : string) (ttl now1 now2 : Z) :
  0 < ttl →
  ∃ tokenString,
    Auth.MakeJWT u secret ttl now1 now2 = Ok tokenString
    ∧ (∀ now, Auth.ValidateJWT tokenString secret now = Ok u
              ↔ now < GoTime.Truncate (now2 + ttl) GoTime.Second)
    ∧ (GoTime.Second <= ttl → Auth.ValidateJWT tokenString secret now2 = Ok u)
    ∧ (∀ now, now2 + ttl <= now →
         ∃ err, Auth.ValidateJWT tokenString secret now = Err err
                ∧ Errors.Is err jwt_ErrTokenExpired = true).
Proof.
  intros Hpos.
  destruct (ValidateJWT_MakeJWT u secret ttl now1 now2)
    as (tokenString & Hmake & Hwindow).
  exists tokenString. split; [exact Hmake|]. split; [|split].
  - intros t. rewrite Hwindow.
    destruct (Z.ltb_spec t (GoTime.Truncate (now2 + ttl) GoTime.Second));
      split; intros Hyp; try reflexivity; try assumption; try discriminate; lia.
  - intros Hlong. rewrite Hwindow.
    pose proof (Truncate_gt (now2 + ttl)) as Hgt.
    destruct (Z.ltb_spec now2 (GoTime.Truncate (now2 + ttl) GoTime.Second));
      [reflexivity|lia].
  - intros t Hlate. exists expired_error. rewrite Hwindow.
    pose proof (Truncate_le (now2 + ttl)) as Hle.
    destruct (Z.ltb_spec t (GoTime.Truncate (now2 + ttl) GoTime.Second));
      [lia|]. split; reflexivity.
Qed.

(** A token of one hour, at issue and an hour later. *)
Lemma issue_then_validate_witness :
  ∃ tokenString,
    Auth.MakeJWT Model.alice "s3cret" GoTime.Hour 10500000000 10500000000
    = Ok tokenString
    ∧ Auth.ValidateJWT tokenString "s3cret" 10500000000 = Ok Model.alice
    ∧ ∃ err, Auth.ValidateJWT tokenString "s3cret" 3610500000000 = Err err
             ∧ Errors.Is err jwt_ErrTokenExpired = true.
Proof.
  destruct (issue_then_validate (jwtlib := Model.jwt) Model.alice "s3cret"
              GoTime.Hour 10500000000 10500000000 ltac:(reflexivity))
    as (tokenString & Hmake & Hwindow & Hnow & Hlate).
  exists tokenString. split; [exact Hmake|]. split.
  - apply Hnow. unfold GoTime.Hour, GoTime.Second. lia.
  - apply Hlate. unfold GoTime.Hour, GoTime.Second. lia.
Defined.

(** ** Passwords *)

Lemma HashPassword_Ok {bcryptlib : BcryptLib} (p : string) (salt : Salt) (h : string) :
  Auth.HashPassword p salt = Ok h →
  h = formatHash Bcrypt.DefaultCost salt
        (Bcrypt.bcrypt p Bcrypt.DefaultCost salt).
Proof.
  unfold Auth.HashPassword, Bcrypt.GenerateFromPassword.
  destruct (rejectsLongPasswords && _); [discriminate|].
  intros [= <-]. reflexivity.
Qed.

Lemma formatHash_inj {bcryptlib : BcryptLib} (salt : Salt) (d d' : Digest) :
  formatHash Bcrypt.DefaultCost salt d = formatHash Bcrypt.DefaultCost salt d' →
  d = d'.
Proof.
  intros Heq.
  assert (Hcost : (4 <= Bcrypt.DefaultCost <= 31)%nat)
    by (unfold Bcrypt.DefaultCost; lia).
  pose proof (parseHash_formatHash _ salt d Hcost) as Hd.
  rewrite Heq, (parseHash_formatHash _ salt d' Hcost) in Hd.
  congruence.
Qed.

(** Seventy-two bytes, and one byte more. *)
Lemma keyStream_long :
  Bcrypt.keyStream (Strings.Repeat "a" 73) = Bcrypt.keyStream (Strings.Repeat "a" 72).
Proof. reflexivity. Qed.

(** The key is read as a cycle, its NUL included. *)
Lemma keyStream_cycle :
  Bcrypt.keyStream (String "a" (String zero "a")) = Bcrypt.keyStream "a".
Proof. reflexivity. Qed.

Lemma CheckPasswordHash_formatHash {bcryptlib : BcryptLib} (p p' : string) (salt : Salt) :
  Auth.CheckPasswordHash p'
    (formatHash Bcrypt.DefaultCost salt (Bcrypt.bcrypt p Bcrypt.DefaultCost salt))
  = if bool_decide
         (formatHash Bcrypt.DefaultCost salt
            (Bcrypt.bcrypt p Bcrypt.DefaultCost salt)
          = formatHash Bcrypt.DefaultCost salt
              (Bcrypt.bcrypt p' Bcrypt.DefaultCost salt))
    then None
    else Some (Errors.Of bcrypt_ErrMismatchedHashAndPassword
                 "crypto/bcrypt: hashedPassword is not the hash of the given password").
Proof.
  unfold Auth.CheckPasswordHash, Bcrypt.CompareHashAndPassword.
  rewrite parseHash_formatHash by (unfold Bcrypt.DefaultCost; lia).
  reflexivity.
Qed.

Lemma CheckPasswordHash_None {bcryptlib : BcryptLib} (p p' : string) (salt : Salt) :
  Auth.CheckPasswordHash p'
    (formatHash Bcrypt.DefaultCost salt (Bcrypt.bcrypt p Bcrypt.DefaultCost salt))
  = None
  ↔ Bcrypt.bcrypt p' Bcrypt.DefaultCost salt
    = Bcrypt.bcrypt p Bcrypt.DefaultCost salt.
Proof.
  rewrite CheckPasswordHash_formatHash.
  case_bool_decide as Heq; split; intros Hyp.
  - symmetry. exact (formatHash_inj salt _ _ Heq).
  - reflexivity.
  - discriminate.
  - destruct Heq. rewrite Hyp. reflexivity.
Qed.

(** C8, amended: for every password that hashing accepts, verifying it
    against the credential produced succeeds; verifying another password
    succeeds exactly when bcrypt gives it, under the credential's cost
    and salt, the digest of the first, and fails otherwise with the
    mismatch error.  The digest depends on the password through the 72
    bytes that the key setup reads only, so passwords with that stream
    in common verify against each other. *)
Theorem verify_after_hash {bcryptlib : BcryptLib} (p : string) (salt : Salt) (h : string) :
  Auth.HashPassword p salt = Ok h →
  Auth.CheckPasswordHash p h = None
  ∧ (∀ p', Auth.CheckPasswordHash p' h = None
           ↔ Bcrypt.bcrypt p' Bcrypt.DefaultCost salt
             = Bcrypt.bcrypt p Bcrypt.DefaultCost salt)
  ∧ (∀ p', Bcrypt.keyStream p' = Bcrypt.keyStream p →
           Auth.CheckPasswordHash p' h = None)
  ∧ (∀ p' err, Auth.CheckPasswordHash p' h = Some err →
               Errors.Is err bcrypt_ErrMismatchedHashAndPassword = true).
Proof.
  intros Hhash. apply HashPassword_Ok in Hhash. subst h.
  split; [apply CheckPasswordHash_None; reflexivity|].
  split; [intros p'; apply CheckPasswordHash_None|]. split.
  - intros p' Hstream. apply CheckPasswordHash_None. unfold Bcrypt.bcrypt.
    rewrite Hstream. reflexivity.
  - intros p' err. rewrite CheckPasswordHash_formatHash.
    case_bool_decide; [discriminate|]. intros [= <-]. reflexivity.
Qed.

(** A password against its own credential. *)
Lemma verify_after_hash_witness :
  ∃ h, Auth.HashPassword (bcryptlib := Model.bcrypt) "correct horse" "0123456789abcdef"
       = Ok h
       ∧ Auth.CheckPasswordHash "correct horse" h = None.
Proof.
  exists (or_else
            (Auth.HashPassword (bcryptlib := Model.bcrypt) "correct horse"
               "0123456789abcdef") "").
  split; [reflexivity|].
  destruct (verify_after_hash (bcryptlib := Model.bcrypt) "correct horse"
              "0123456789abcdef" _ eq_refl) as [Hself _].
  exact Hself.
Defined.

(** C8, as the claim states it, fails: a password of 72 bytes and the
    password of 73 bytes that extends it are distinct, and the second
    verifies against the credential of the first; so for every salt and
    whatever the cipher computes. *)
Lemma distinct_passwords_verify :
  Strings.Repeat "a" 72 ≠ Strings.Repeat "a" 73
  ∧ ∀ (B : BcryptLib) (salt : Salt),
      ∃ h, Auth.HashPassword (Strings.Repeat "a" 72) salt = Ok h
           ∧ Auth.CheckPasswordHash (Strings.Repeat "a" 73) h = None.
Proof.
  split; [discriminate|]. intros B salt.
  exists (formatHash Bcrypt.DefaultCost salt
            (Bcrypt.bcrypt (Strings.Repeat "a" 72) Bcrypt.DefaultCost salt)).
  split.
  - unfold Auth.HashPassword, Bcrypt.GenerateFromPassword.
    change (72 <? GoString.len (Strings.Repeat "a" 72))%nat with false.
    rewrite andb_false_r. reflexivity.
  - apply CheckPasswordHash_None. unfold Bcrypt.bcrypt.
    rewrite keyStream_long. reflexivity.
Qed.

(** ** A session, run *)

(** A login, a refresh with the token it issued, its revocation, and a
    refresh again. *)
Example session :
  let run {I} (h : Main.apiConfig → Env → Main.Request I → Main.M Postgres.DB unit)
      (rq : Main.Request I) (db : Postgres.DB) :=
    snd (Main.run (h Model.cfg Model.env rq) (Main.Build_World [] db)) in
  let refreshToken := Hex.EncodeToString (randomBytes Model.env) in
  let w1 := run Main.postLogin
              (Model.request ∅ ""
                 (Some {| Main.in_Password := "correct horse";
                          Main.in_Email := "alice@example.com" |})) Model.db in
  let w2 := run Main.postRefresh
              (Model.request (Model.bearer refreshToken) "" None)
              (Main.store w1) in
  let w3 := run Main.postRevoke
              (Model.request (Model.bearer refreshToken) "" None)
              (Main.store w2) in
  let w4 := run Main.postRefresh
              (Model.request (Model.bearer refreshToken) "" None)
              (Main.store w3) in
  Http.status <$> [Main.rw w1; Main.rw w2; Main.rw w3; Main.rw w4]
  = [Some 200; Some 200; Some 204; Some 401]
  ∧ length (Postgres.refresh_tokens (Main.store w1)) = 4%nat
  ∧ Main.store w2 = Main.store w1.
Proof. vm_compute. repeat split. Qed.

(** ** Refresh tokens in text form *)

Lemma hi_hexdigit (c : ascii) : hexdigit (Hex.hi c).
Proof.
  destruct c as [[] [] [] [] [] [] [] []];
    apply (bool_decide_unpack _); vm_compute; exact I.
Qed.

Lemma lo_hexdigit (c : ascii) : hexdigit (Hex.lo c).
Proof.
  destruct c as [[] [] [] [] [] [] [] []];
    apply (bool_decide_unpack _); vm_compute; exact I.
Qed.

Lemma EncodeToString_cons c t :
  Hex.EncodeToString (String c t)
  = String (Hex.hi c) (String (Hex.lo c) (Hex.EncodeToString t)).
Proof. reflexivity. Qed.

Lemma EncodeToString_len s :
  GoString.len (Hex.EncodeToString s) = (2 * GoString.len s)%nat.
Proof.
  induction s as [|c t IH]; [reflexivity|].
  rewrite EncodeToString_cons. cbn [GoString.len]. rewrite IH. lia.
Qed.

Lemma EncodeToString_hexdigits s :
  Forall hexdigit (String.list_ascii_of_string (Hex.EncodeToString s)).
Proof.
  induction s as [|c t IH]; [constructor|].
  rewrite EncodeToString_cons. cbn [String.list_ascii_of_string].
  constructor; [apply hi_hexdigit|]. constructor; [apply lo_hexdigit|exact IH].
Qed.

Lemma EncodeToString_inj s : ∀ s',
  Hex.EncodeToString s = Hex.EncodeToString s' → s = s'.
Proof.
  induction s as [|c t IH]; intros [|c' t']; rewrite ?EncodeToString_cons;
    try reflexivity; try discriminate.
  intros [= Hhi Hlo Ht]. f_equal; [|exact (IH _ Ht)].
  pose proof (xtob_hex c) as Hc. rewrite Hhi, Hlo, xtob_hex in Hc. congruence.
Qed.

(** X1: whatever bytes the random source delivers, [MakeRefreshToken]
    returns, with no error, a token of twice as many characters, each a
    lower-case hexadecimal digit, and distinct bytes give distinct
    tokens. *)
Theorem MakeRefreshToken_hex (byteToken : string) :
  ∃ refreshToken,
    Auth.MakeRefreshToken byteToken = Ok refreshToken
    ∧ GoString.len refreshToken = (2 * GoString.len byteToken)%nat
    ∧ Forall hexdigit (String.list_ascii_of_string refreshToken)
    ∧ ∀ byteToken',
        Auth.MakeRefreshToken byteToken' = Ok refreshToken →
        byteToken' = byteToken.
Proof.
  exists (Hex.EncodeToString byteToken). split; [reflexivity|].
  split; [apply EncodeToString_len|]. split; [apply EncodeToString_hexdigits|].
  intros byteToken' [= Heq]. exact (EncodeToString_inj _ _ Heq).
Qed.

(** ** A token through the Authorization field *)

Lemma drop_spaces_none cs :
  no_space_at_head cs → Strings.drop_spaces cs = cs.
Proof.
  destruct cs as [|[r b] cs]; [reflexivity|]. intros Hhead.
  pose proof (Hhead (r, b) eq_refl) as Hr. simpl in *. rewrite Hr. reflexivity.
Qed.

Lemma TrimSpace_none s :
  no_space_at_head (GoString.runes s) →
  no_space_at_head (rev (GoString.runes s)) →
  Strings.TrimSpace s = s.
Proof.
  intros Hhead Hlast. unfold Strings.TrimSpace.
  rewrite (drop_spaces_none _ Hhead), (drop_spaces_none _ Hlast), rev_involutive.
  apply runes_decoding.
Qed.

(** X2: a token that neither begins nor ends with a white-space rune,
    sent as [Authorization: Bearer <token>], is what [GetBearerToken]
    returns: nothing of it is lost between the client and the handler. *)
Lemma Get_bearer (token : string) :
  Http.Get (Model.bearer token) "Authorization" = "Bearer " +:+ token.
Proof.
  unfold Model.bearer, Http.Get. rewrite lookup_singleton_eq. reflexivity.
Qed.

Lemma TrimPrefix_bearer (token : string) :
  Strings.TrimPrefix ("Bearer " +:+ token) "Bearer " = token.
Proof. destruct token; reflexivity. Qed.

Theorem GetBearerToken_round_trip (token : string) :
  no_space_at_head (GoString.runes token) →
  no_space_at_head (rev (GoString.runes token)) →
  Auth.GetBearerToken (Model.bearer token) = Ok token.
Proof.
  intros Hhead Hlast. unfold Auth.GetBearerToken. rewrite Get_bearer.
  rewrite bool_decide_eq_false_2 by discriminate.
  rewrite TrimPrefix_bearer, (TrimSpace_none _ Hhead Hlast). reflexivity.
Qed.

(** The token ["abc.def"]. *)
Lemma GetBearerToken_round_trip_witness :
  Auth.GetBearerToken (Model.bearer "abc.def") = Ok "abc.def".
Proof.
  apply GetBearerToken_round_trip.
  - intros c [= <-]. reflexivity.
  - intros c [= <-]. reflexivity.
Defined.

(** The runes of a text of ASCII characters are its characters. *)
Lemma runes_go_ascii s : ∀ fuel,
  Strings.isASCII s = true → (GoString.len s <= fuel)%nat →
  GoString.runes_go fuel s
  = (fun c => (N_of_ascii c, String c EmptyString))
    <$> String.list_ascii_of_string s.
Proof.
  induction s as [|c t IH]; intros fuel Hascii Hfuel.
  - destruct fuel; reflexivity.
  - destruct fuel as [|fuel]; [simpl in Hfuel; lia|].
    simpl in Hascii. apply andb_true_iff in Hascii. destruct Hascii as [Hc Ht].
    cbn [GoString.runes_go Utf8.DecodeRuneInString]. rewrite Hc.
    cbn [GoString.take GoString.drop String.list_ascii_of_string fmap list_fmap].
    destruct t; (f_equal; apply IH; [exact Ht|simpl in *; lia]).
Qed.

Lemma hexdigit_ascii c : hexdigit c → (N_of_ascii c <? Utf8.RuneSelf)%N = true.
Proof.
  unfold hexdigit. cbn [String.list_ascii_of_string]. intros Hc.
  repeat (apply elem_of_cons in Hc; destruct Hc as [->|Hc]; [reflexivity|]).
  inversion Hc.
Qed.

Lemma hexdigit_not_space c : hexdigit c → Unicode.IsSpace (N_of_ascii c) = false.
Proof.
  unfold hexdigit. cbn [String.list_ascii_of_string]. intros Hc.
  repeat (apply elem_of_cons in Hc; destruct Hc as [->|Hc]; [reflexivity|]).
  inversion Hc.
Qed.

Lemma hexdigits_isASCII s :
  Forall hexdigit (String.list_ascii_of_string s) → Strings.isASCII s = true.
Proof.
  induction s as [|c t IH]; [reflexivity|]. cbn [String.list_ascii_of_string].
  intros Hall. inversion Hall as [|? ? Hc Ht]; subst. simpl.
  rewrite (hexdigit_ascii c Hc), (IH Ht). reflexivity.
Qed.

Lemma no_space_ends (cs : list (N * string)) :
  Forall (fun c => Unicode.IsSpace (fst c) = false) cs →
  no_space_at_head cs ∧ no_space_at_head (rev cs).
Proof.
  intros Hall. rewrite Forall_forall in Hall. split; intros c Hc.
  - apply Hall. apply head_Some_elem_of. exact Hc.
  - apply Hall. apply head_Some_elem_of in Hc.
    apply list_elem_of_In, in_rev, list_elem_of_In. exact Hc.
Qed.

(** A token of hexadecimal digits passes through the field as it is. *)
Lemma GetBearerToken_hex (byteToken : string) :
  Auth.GetBearerToken (Model.bearer (Hex.EncodeToString byteToken))
  = Ok (Hex.EncodeToString byteToken).
Proof.
  pose proof (EncodeToString_hexdigits byteToken) as Hhex.
  assert (Hall : Forall (fun c => Unicode.IsSpace (fst c) = false)
                   (GoString.runes (Hex.EncodeToString byteToken))).
  { unfold GoString.runes.
    rewrite runes_go_ascii by (try apply hexdigits_isASCII; auto).
    rewrite Forall_fmap. eapply Forall_impl; [exact Hhex|].
    intros c Hc. simpl. apply hexdigit_not_space. exact Hc. }
  destruct (no_space_ends _ Hall) as [Hhead Hlast].
  unfold Auth.GetBearerToken. rewrite Get_bearer.
  rewrite bool_decide_eq_false_2 by discriminate.
  rewrite TrimPrefix_bearer, (TrimSpace_none _ Hhead Hlast). reflexivity.
Qed.

(** ** The fields of a text, and the text of some fields *)

Lemma decoding_app l1 l2 :
  decoding l1 → decoding l2 → noncont (bytes l2) → decoding (l1 ++ l2).
Proof.
  intros Hd1 Hd2 HT. induction l1 as [|[r b] l1 IH]; [exact Hd2|].
  destruct Hd1 as (Hb & Hr & Hd1). cbn [app decoding].
  split; [exact Hb|]. split; [|exact (IH Hd1)].
  rewrite bytes_app, <- app_assoc_s, <- Hr.
  rewrite <- (app_nil_s (b +:+ bytes l1)) at 2.
  apply Decode_context; [apply app_nonempty_l; exact Hb|exact HT|exact I].
Qed.

Lemma decoding_before l1 l2 :
  decoding (l1 ++ l2) → noncont (bytes l2) → decoding l1.
Proof.
  intros Hd HT. induction l1 as [|[r b] l1 IH]; [exact I|].
  destruct Hd as (Hb & Hr & Hd). split; [exact Hb|]. split; [|exact (IH Hd)].
  rewrite bytes_app, <- app_assoc_s in Hr.
  rewrite <- Hr, <- (app_nil_s (b +:+ bytes l1)) at 1.
  apply Decode_context; [apply app_nonempty_l; exact Hb|exact I|exact HT].
Qed.

Lemma fields_go_nonspace l : ∀ cur cs,
  Forall (fun c => Unicode.IsSpace (fst c) = false) l →
  Strings.fields_go cur (l ++ cs) = Strings.fields_go (cur +:+ bytes l) cs.
Proof.
  induction l as [|[r b] l IH]; intros cur cs Hall.
  - rewrite app_nil_s. reflexivity.
  - inversion Hall as [|? ? Hr Hl]; subst. simpl in Hr.
    cbn [app Strings.fields_go]. rewrite Hr, (IH _ _ Hl), bytes_cons, app_assoc_s.
    reflexivity.
Qed.

Lemma runes_space rest :
  GoString.runes (String " " rest) = (32%N, " ") :: GoString.runes rest.
Proof. destruct rest; reflexivity. Qed.

Lemma word_nonempty w : word w → w ≠ EmptyString.
Proof.
  intros (l & -> & Hl & Hd & _). destruct l as [|[r b] l]; [congruence|].
  destruct Hd as (Hb & _). rewrite bytes_cons. apply app_nonempty_l. exact Hb.
Qed.

Lemma runes_word w T :
  word w → noncont T →
  ∃ l, w = bytes l ∧ Forall (fun c => Unicode.IsSpace (fst c) = false) l
       ∧ GoString.runes (w +:+ T) = l ++ GoString.runes T.
Proof.
  intros (l & -> & Hl & Hd & Hall) HT. exists l. split; [reflexivity|].
  split; [exact Hall|]. destruct (runes_decoding T) as [HdT HbT].
  rewrite <- HbT at 1. rewrite <- bytes_app. apply runes_bytes.
  apply decoding_app; [exact Hd|exact HdT|rewrite HbT; exact HT].
Qed.

Lemma Fields_word_space w rest :
  word w → Strings.Fields (w +:+ String " " rest) = w :: Strings.Fields rest.
Proof.
  intros Hw. pose proof (word_nonempty w Hw) as Hne.
  destruct (runes_word w (String " " rest) Hw) as (l & -> & Hall & Hrunes);
    [reflexivity|].
  unfold Strings.Fields. rewrite Hrunes, runes_space.
  rewrite (fields_go_nonspace _ _ _ Hall), app_Empty.
  cbn [Strings.fields_go]. change (Unicode.IsSpace 32) with true.
  cbv iota. rewrite (flush_nonempty _ Hne). reflexivity.
Qed.

Lemma Fields_word w : word w → Strings.Fields w = [w].
Proof.
  intros Hw. pose proof (word_nonempty w Hw) as Hne.
  destruct (runes_word w EmptyString Hw) as (l & -> & Hall & Hrunes);
    [exact I|].
  rewrite app_nil_s in Hrunes. unfold Strings.Fields. rewrite Hrunes.
  change (GoString.runes "") with (@nil (N * string)).
  rewrite (fields_go_nonspace _ _ _ Hall), app_Empty.
  cbn [Strings.fields_go]. apply flush_nonempty. exact Hne.
Qed.

(** The fields of a text made of words, a space before each, are the
    words. *)
Lemma Fields_spaced ws :
  Forall word ws →
  Strings.Fields (GoString.concat ((fun w => " " +:+ w) <$> ws)) = ws.
Proof.
  induction ws as [|w ws IH]; intros Hall; [reflexivity|].
  inversion Hall as [|? ? Hw Hws]; subst. specialize (IH Hws).
  cbn [fmap list_fmap GoString.concat].
  fold (@fmap list _ _ _ (fun w : string => " " +:+ w)).
  rewrite app_assoc_s.
  change (" " +:+ ?x) with (String " " x). rewrite Fields_space.
  destruct ws as [|w' ws].
  - cbn [fmap list_fmap GoString.concat]. rewrite app_nil_s.
    apply Fields_word. exact Hw.
  - cbn [fmap list_fmap GoString.concat] in *.
    fold (@fmap list _ _ _ (fun w : string => " " +:+ w)) in *.
    rewrite app_assoc_s in *.
    change (" " +:+ ?x) with (String " " x) in *.
    rewrite Fields_space in IH.
    rewrite (Fields_word_space _ _ Hw), IH. reflexivity.
Qed.

Lemma Fields_join ws : Forall word ws → Strings.Fields (join ws) = ws.
Proof.
  intros Hall. destruct ws as [|w ws]; [reflexivity|].
  inversion Hall as [|? ? Hw Hws]; subst. unfold join.
  destruct ws as [|w' ws].
  - cbn [fmap list_fmap GoString.concat]. rewrite app_nil_s.
    apply Fields_word. exact Hw.
  - pose proof (Fields_spaced _ Hws) as Hrest.
    cbn [fmap list_fmap GoString.concat] in *.
    fold (@fmap list _ _ _ (fun w : string => " " +:+ w)) in *.
    rewrite app_assoc_s in *.
    change (" " +:+ ?x) with (String " " x) in *.
    rewrite Fields_space in Hrest.
    rewrite (Fields_word_space _ _ Hw), Hrest. reflexivity.
Qed.

(** What [fields_go] returns are words: [l0] holds the runes of the
    field under way. *)
Lemma fields_go_words cs : ∀ l0,
  decoding (l0 ++ cs) →
  Forall (fun c => Unicode.IsSpace (fst c) = false) l0 →
  Forall word (Strings.fields_go (bytes l0) cs).
Proof.
  assert (Hflush : ∀ l0, decoding l0 →
            Forall (fun c => Unicode.IsSpace (fst c) = false) l0 →
            Forall word (Strings.flush (bytes l0))).
  { intros l0 Hd Hall. destruct (bytes l0) as [|c t] eqn:Hb; [constructor|].
    cbn [Strings.flush]. constructor; [|constructor].
    exists l0. split; [symmetry; exact Hb|]. split; [|split; assumption].
    intros ->. discriminate. }
  induction cs as [|[r b] cs IH]; intros l0 Hd Hall.
  - rewrite app_nil_r in Hd. cbn [Strings.fields_go]. exact (Hflush l0 Hd Hall).
  - cbn [Strings.fields_go]. destruct (Unicode.IsSpace r) eqn:Hr.
    + apply Forall_app. split.
      * apply Hflush; [|exact Hall]. apply (decoding_before _ _ Hd).
        apply space_noncont. pose proof (decoding_suffix _ _ Hd) as (_ & Hdec & _).
        rewrite bytes_cons, Hdec. exact Hr.
      * apply (IH []); [|constructor].
        apply (decoding_suffix (l0 ++ [(r, b)])). rewrite <- app_assoc. exact Hd.
    + assert (Hb : bytes l0 +:+ b = bytes (l0 ++ [(r, b)])).
      { rewrite bytes_app, bytes_cons. change (bytes []) with EmptyString.
        rewrite app_nil_s. reflexivity. }
      rewrite Hb. apply IH.
      * rewrite <- app_assoc. exact Hd.
      * apply Forall_app. split; [exact Hall|]. constructor; [exact Hr|constructor].
Qed.

Lemma Fields_words s : Forall word (Strings.Fields s).
Proof.
  apply (fields_go_words _ []); [|constructor]. apply runes_decoding.
Qed.

Lemma stars_word : word "****".
Proof.
  exists (GoString.runes "****"). split; [reflexivity|]. split; [discriminate|].
  split; [apply runes_decoding|]. repeat constructor.
Qed.

(** ** The filter, as a function of the fields *)

Section Masks.
Context {tables : UnicodeTables}.

Lemma censor_word_mask b acc w :
  Main.censor_word b acc w = acc +:+ " " +:+ mask_word b w.
Proof. unfold Main.censor_word, mask_word. case_bool_decide; reflexivity. Qed.

Lemma censor_fold_spaced b ws : ∀ acc,
  fold_left (Main.censor_word b) ws acc
  = acc +:+ GoString.concat ((fun w => " " +:+ w) <$> (mask_word b <$> ws)).
Proof.
  induction ws as [|w ws IH]; intros acc.
  - cbn. rewrite app_nil_s. reflexivity.
  - cbn [fold_left fmap list_fmap GoString.concat]. rewrite IH, censor_word_mask.
    rewrite !app_assoc_s. reflexivity.
Qed.

Lemma censor_spaced s b :
  Main.censor s b
  = GoString.concat ((fun w => " " +:+ w) <$> (mask_word b <$> Strings.Fields s)).
Proof. unfold Main.censor. rewrite censor_fold_spaced, app_Empty. reflexivity. Qed.

Lemma mask_word_word b w : word w → word (mask_word b w).
Proof. intros Hw. unfold mask_word. case_bool_decide; [apply stars_word|exact Hw]. Qed.

Lemma Fields_censor s b :
  Strings.Fields (Main.censor s b) = mask_word b <$> Strings.Fields s.
Proof.
  rewrite censor_spaced. apply Fields_spaced. rewrite Forall_fmap.
  eapply Forall_impl; [apply Fields_words|]. intros w Hw. apply mask_word_word.
  exact Hw.
Qed.

Lemma ToLower_stars : Strings.ToLower "****" = "****".
Proof. reflexivity. Qed.

Lemma mask_word_stars b : b ≠ "****" → mask_word b "****" = "****".
Proof. intros Hb. unfold mask_word. case_bool_decide; reflexivity. Qed.

Lemma mask_three w :
  mask_word "fornax" (mask_word "sharbert" (mask_word "kerfuffle" w)) = mask w.
Proof.
  unfold mask, Main.badWords.
  destruct (decide (Strings.ToLower w = "kerfuffle")) as [Hk|Hk].
  { unfold mask_word at 3. rewrite (bool_decide_eq_true_2 _ Hk).
    rewrite !mask_word_stars by discriminate.
    rewrite bool_decide_eq_true_2 by (rewrite Hk; set_solver). reflexivity. }
  unfold mask_word at 3. rewrite (bool_decide_eq_false_2 _ Hk).
  destruct (decide (Strings.ToLower w = "sharbert")) as [Hs|Hs].
  { unfold mask_word at 2. rewrite (bool_decide_eq_true_2 _ Hs).
    rewrite !mask_word_stars by discriminate.
    rewrite bool_decide_eq_true_2 by (rewrite Hs; set_solver). reflexivity. }
  unfold mask_word at 2. rewrite (bool_decide_eq_false_2 _ Hs).
  unfold mask_word.
  destruct (decide (Strings.ToLower w = "fornax")) as [Hf|Hf].
  { rewrite (bool_decide_eq_true_2 _ Hf).
    rewrite bool_decide_eq_true_2 by (rewrite Hf; set_solver). reflexivity. }
  rewrite (bool_decide_eq_false_2 _ Hf).
  rewrite bool_decide_eq_false_2; [reflexivity|]. intros Hin.
  repeat (apply elem_of_cons in Hin; destruct Hin as [?|Hin]; [congruence|]).
  inversion Hin.
Qed.

Lemma mask_word_of w : word w → word (mask w).
Proof. intros Hw. unfold mask. case_bool_decide; [apply stars_word|exact Hw]. Qed.

Lemma mask_idem w : mask (mask w) = mask w.
Proof.
  unfold mask at 2 3. case_bool_decide as Hw; [|unfold mask; rewrite bool_decide_eq_false_2 by exact Hw; reflexivity].
  unfold mask. rewrite ToLower_stars. reflexivity.
Qed.

(** [cleanString] on a text with a field, in terms of the fields. *)
Lemma cleanString_join s :
  Strings.Fields s ≠ [] →
  Main.cleanString s = Some (join (mask <$> Strings.Fields s)).
Proof.
  intros Hs. unfold Main.cleanString, Main.badWords. cbn [fold_left].
  rewrite (censor_spaced _ "fornax"), !Fields_censor.
  assert (Hmask : mask_word "fornax"
                    <$> (mask_word "sharbert"
                           <$> (mask_word "kerfuffle" <$> Strings.Fields s))
                  = mask <$> Strings.Fields s).
  { rewrite <- !list_fmap_compose. apply list_fmap_ext.
    intros i w _. apply mask_three. }
  rewrite Hmask.
  destruct (Strings.Fields s) as [|w ws]; [congruence|].
  cbn [fmap list_fmap GoString.concat join].
  change (" " +:+ ?x) with (String " " x) at 1. rewrite app_String.
  reflexivity.
Qed.

(** X3: on a text with at least one field [cleanString] returns the
    fields of the text, in their order and one space apart, with every
    field that is one of the three bad words, in whatever case, replaced
    by four asterisks and every other field as it is.  So it drops the
    white space at the two ends, makes one space of every run of white
    space, and cleaning the result again changes nothing. *)
Theorem cleanString_masks (s : string) :
  Strings.Fields s ≠ [] →
  ∃ out,
    Main.cleanString s = Some out
    ∧ out = join (mask <$> Strings.Fields s)
    ∧ Strings.Fields out = mask <$> Strings.Fields s
    ∧ Main.cleanString out = Some out.
Proof.
  intros Hs. exists (join (mask <$> Strings.Fields s)).
  assert (Hwords : Forall word (mask <$> Strings.Fields s)).
  { rewrite Forall_fmap. eapply Forall_impl; [apply Fields_words|].
    intros w Hw. apply mask_word_of. exact Hw. }
  pose proof (Fields_join _ Hwords) as Hfields.
  split; [apply cleanString_join; exact Hs|]. split; [reflexivity|].
  split; [exact Hfields|].
  rewrite cleanString_join; rewrite Hfields.
  - rewrite <- list_fmap_compose.
    rewrite (list_fmap_ext (mask ∘ mask) mask (Strings.Fields s))
      by (intros i w _; apply mask_idem). reflexivity.
  - destruct (Strings.Fields s); [congruence|discriminate].
Qed.

End Masks.

(** A text with spaces at its ends, two spaces in a row and a bad word in
    capitals. *)
Lemma cleanString_masks_witness :
  ∃ out,
    Main.cleanString (tables := Model.tables) " a  FORNAX b " = Some out
    ∧ out = "a **** b".
Proof.
  destruct (cleanString_masks (tables := Model.tables) " a  FORNAX b ")
    as (out & Hout & -> & _).
  - discriminate.
  - eexists. split; [exact Hout|]. reflexivity.
Defined.

(** ** Creating a chirp: what is stored *)

(** [postChirps] past the decoding, the authentication and the filter,
    over any store. *)
Lemma postChirps_run {tables : UnicodeTables} {jwtlib : JwtLib}
    {S : Type} {qry : Queries S} a e rq chrp userID Body (w : Main.World S) :
  Main.rq_Decode rq = Some chrp →
  authenticate a e (Main.rq_Header rq) = Some userID →
  Main.in_Body chrp ≠ "" →
  Main.cleanString (Main.in_Body chrp) = Some Body →
  Main.run (Main.postChirps a e rq) w =
  if (GoString.len Body <=? 140)%nat then
    let '(r, s) :=
      CreateChirp e {| cc_Body := Body; cc_UserID := userID |} (Main.store w) in
    match r with
    | Ok row =>
      (Main.Completed,
       {| Main.rw :=
            Main.rw w
            ++ [Http.SetHeader "Content-Type" "application/json";
                Http.WriteHeader Http.StatusCreated;
                Http.Write (Main.JsonChirp (Reading.to_chirp row))];
          Main.store := s |})
    | Err _ =>
      (Main.Completed,
       {| Main.rw :=
            Main.rw w ++ [Http.WriteHeader Http.StatusInternalServerError];
          Main.store := s |})
    end
  else
    (Main.Completed,
     {| Main.rw :=
          Main.rw w
          ++ [Http.SetHeader "Content-Type" "application/json";
              Http.WriteHeader Http.StatusBadRequest;
              Http.Write (Main.JsonError "Chirp is too long")];
        Main.store := Main.store w |}).
Proof.
  intros Hdecode Hauth Hnonempty Hclean.
  unfold authenticate in Hauth. unfold Main.postChirps. rewrite Hdecode.
  destruct (Auth.GetBearerToken (Main.rq_Header rq)) as [tokenString|];
    [|discriminate].
  destruct (Auth.ValidateJWT tokenString (Main.secret a) (now e)) as [u|] eqn:Hv;
    [|discriminate].
  injection Hauth as ->. handler. rewrite Hv. simpl.
  rewrite bool_decide_eq_false_2 by exact Hnonempty. simpl.
  rewrite Hclean. simpl.
  destruct (GoString.len Body <=? 140)%nat; simpl.
  - destruct (CreateChirp e _ (Main.store w)) as [[row|err] s]; simpl.
    + rewrite <- !app_assoc. reflexivity.
    + reflexivity.
  - rewrite <- !app_assoc. reflexivity.
Qed.

Lemma Fields_empty : Strings.Fields "" = [].
Proof. reflexivity. Qed.

(** X4: the limit of 140 bytes is put on the chirp as it will be stored,
    not as it was sent.  For an authenticated request whose body has at
    least one field, the text compared with the limit, and stored, is
    the fields of the body one space apart with the bad words masked: a
    longer body is accepted when this text has at most 140 bytes, and the
    answer is 400 with the error "Chirp is too long", the store
    untouched, when it has more. *)
Theorem postChirps_limit_on_cleaned {tables : UnicodeTables} {jwtlib : JwtLib}
    {S : Type} {qry : Queries S}
    (a : Main.apiConfig) (e : Env) (rq : Main.Request Main.inputChirp)
    (chrp : Main.inputChirp) (userID : UUID) (w : Main.World S) :
  Main.rq_Decode rq = Some chrp →
  authenticate a e (Main.rq_Header rq) = Some userID →
  Strings.Fields (Main.in_Body chrp) ≠ [] →
  let Body := join (mask <$> Strings.Fields (Main.in_Body chrp)) in
  ((140 < GoString.len Body)%nat →
     Main.run (Main.postChirps a e rq) w =
     (Main.Completed,
      {| Main.rw :=
           Main.rw w
           ++ [Http.SetHeader "Content-Type" "application/json";
               Http.WriteHeader Http.StatusBadRequest;
               Http.Write (Main.JsonError "Chirp is too long")];
         Main.store := Main.store w |}))
  ∧ ((GoString.len Body <= 140)%nat →
     ∀ row s,
       CreateChirp e {| cc_Body := Body; cc_UserID := userID |} (Main.store w)
       = (Ok row, s) →
       Main.run (Main.postChirps a e rq) w =
       (Main.Completed,
        {| Main.rw :=
             Main.rw w
             ++ [Http.SetHeader "Content-Type" "application/json";
                 Http.WriteHeader Http.StatusCreated;
                 Http.Write (Main.JsonChirp (Reading.to_chirp row))];
           Main.store := s |})).
Proof.
  intros Hdecode Hauth Hfields Body.
  assert (Hnonempty : Main.in_Body chrp ≠ "").
  { intros Hempty. rewrite Hempty in Hfields. exact (Hfields Fields_empty). }
  pose proof (cleanString_join _ Hfields) as Hclean. fold Body in Hclean.
  rewrite (postChirps_run a e rq chrp userID Body w Hdecode Hauth Hnonempty Hclean).
  split.
  - intros Hlong. apply Nat.leb_gt in Hlong. rewrite Hlong. reflexivity.
  - intros Hshort row s Hcreate. apply Nat.leb_le in Hshort.
    rewrite Hshort, Hcreate. reflexivity.
Qed.

(** A body of 142 bytes, kept: an "a", 140 spaces and a "b", sent by
    alice. *)
Lemma postChirps_limit_on_cleaned_witness :
  let body := "a" +:+ Strings.Repeat " " 140 +:+ "b" in
  let e := {| now := 10500000000; randomBytes := ""; randomUUID := Uuid.Nil |} in
  GoString.len body = 142%nat
  ∧ ∃ db',
      Main.run (Main.postChirps Model.cfg e
                  (Model.request (Model.bearer (Model.access_token Model.alice))
                     "" (Some {| Main.in_Body := body |})))
        (Main.Build_World [] Model.db)
      = (Main.Completed,
         Main.Build_World
           [Http.SetHeader "Content-Type" "application/json";
            Http.WriteHeader Http.StatusCreated;
            Http.Write
              (Main.JsonChirp
                 {| Main.c_Id := Uuid.Nil; Main.c_CreatedAt := 10500000000;
                    Main.c_UpdatedAt := 10500000000; Main.c_Body := "a b";
                    Main.c_UserId := Model.alice |})] db').
Proof.
  intros body e. split; [reflexivity|].
  destruct (postChirps_limit_on_cleaned Model.cfg e
              (Model.request (Model.bearer (Model.access_token Model.alice))
                 "" (Some {| Main.in_Body := body |}))
              {| Main.in_Body := body |} Model.alice
              (Main.Build_World [] Model.db)) as [_ Hkept].
  - reflexivity.
  - vm_compute. reflexivity.
  - vm_compute. discriminate.
  - pose (row := {| chirp_ID := Uuid.Nil; chirp_CreatedAt := 10500000000;
                    chirp_UpdatedAt := 10500000000; chirp_Body := "a b";
                    chirp_UserID := Model.alice |}).
    exists {| Postgres.users := Postgres.users Model.db;
              Postgres.refresh_tokens := Postgres.refresh_tokens Model.db;
              Postgres.chirps := Postgres.chirps Model.db ++ [row] |}.
    apply (Hkept ltac:(vm_compute; lia) row). vm_compute. reflexivity.
Defined.

(** X5: whatever the request, [postChirps] leaves the users and the
    refresh tokens as they are, and the chirps too unless it adds one
    row at their end: a chirp of the user that the bearer token
    authenticates, a stored user, under a fresh id, stamped with the
    current time, its body the cleaned text of at most 140 bytes; the
    answer is then 201 with that chirp. *)
Theorem postChirps_stores_one_cleaned_chirp
    {tables : UnicodeTables} {jwtlib : JwtLib}
    (a : Main.apiConfig) (e : Env) (rq : Main.Request Main.inputChirp)
    (w : Main.World Postgres.DB) :
  let out := Main.run (Main.postChirps a e rq) w in
  let db := Main.store w in
  let db' := Main.store (snd out) in
  Postgres.users db' = Postgres.users db
  ∧ Postgres.refresh_tokens db' = Postgres.refresh_tokens db
  ∧ (Postgres.chirps db' = Postgres.chirps db
     ∨ ∃ chrp userID row,
         Main.rq_Decode rq = Some chrp
         ∧ authenticate a e (Main.rq_Header rq) = Some userID
         ∧ userID ∈ user_ID <$> Postgres.users db
         ∧ row = {| chirp_ID := randomUUID e;
                    chirp_CreatedAt := now e;
                    chirp_UpdatedAt := now e;
                    chirp_Body :=
                      join (mask <$> Strings.Fields (Main.in_Body chrp));
                    chirp_UserID := userID |}
         ∧ (GoString.len (chirp_Body row) <= 140)%nat
         ∧ (randomUUID e ∉ chirp_ID <$> Postgres.chirps db)
         ∧ Postgres.chirps db' = Postgres.chirps db ++ [row]
         ∧ out = (Main.Completed,
                  {| Main.rw :=
                       Main.rw w
                       ++ [Http.SetHeader "Content-Type" "application/json";
                           Http.WriteHeader Http.StatusCreated;
                           Http.Write (Main.JsonChirp (Reading.to_chirp row))];
                     Main.store := db' |})).
Proof.
  intros out db db'. subst out db db'.
  destruct (Main.rq_Decode rq) as [chrp|] eqn:Hdecode.
  2: { unfold Main.postChirps. rewrite Hdecode. handler. auto. }
  destruct (authenticate a e (Main.rq_Header rq)) as [userID|] eqn:Hauth.
  2: { unfold authenticate in Hauth. unfold Main.postChirps. rewrite Hdecode.
       destruct (Auth.GetBearerToken (Main.rq_Header rq)) as [tokenString|];
         [|handler; auto].
       destruct (Auth.ValidateJWT tokenString (Main.secret a) (now e)) eqn:Hv;
         [discriminate|]. handler. rewrite Hv. simpl. auto. }
  destruct (decide (Main.in_Body chrp = "")) as [Hempty|Hnonempty].
  { unfold authenticate in Hauth. unfold Main.postChirps. rewrite Hdecode.
    destruct (Auth.GetBearerToken (Main.rq_Header rq)) as [tokenString|];
      [|discriminate].
    destruct (Auth.ValidateJWT tokenString (Main.secret a) (now e)) eqn:Hv;
      [|discriminate]. handler. rewrite Hv. simpl.
    rewrite bool_decide_eq_true_2 by exact Hempty. simpl. auto. }
  destruct (Main.cleanString (Main.in_Body chrp)) as [Body|] eqn:Hclean.
  2: { unfold authenticate in Hauth. unfold Main.postChirps. rewrite Hdecode.
       destruct (Auth.GetBearerToken (Main.rq_Header rq)) as [tokenString|];
         [|discriminate].
       destruct (Auth.ValidateJWT tokenString (Main.secret a) (now e)) eqn:Hv;
         [|discriminate]. handler. rewrite Hv. simpl.
       rewrite bool_decide_eq_false_2 by exact Hnonempty. simpl.
       rewrite Hclean. simpl. auto. }
  assert (Hfields : Strings.Fields (Main.in_Body chrp) ≠ []).
  { intros Hnone. apply cleanString_no_fields in Hnone. congruence. }
  rewrite (cleanString_join _ Hfields) in Hclean. injection Hclean as <-.
  rewrite (postChirps_run a e rq chrp userID _ w Hdecode Hauth Hnonempty
             (cleanString_join _ Hfields)).
  destruct (Nat.leb_spec
              (GoString.len (join (mask <$> Strings.Fields (Main.in_Body chrp))))
              140) as [Hshort|Hlong]; [|simpl; auto].
  change (CreateChirp e ?p (Main.store w))
    with (Postgres.CreateChirp e p (Main.store w)).
  unfold Postgres.CreateChirp.
  destruct (Postgres.chirp_admissible (Main.store w) (randomUUID e) _) eqn:Hadm;
    [|simpl; auto].
  apply andb_true_iff in Hadm. destruct Hadm as [Hfresh Hfk].
  apply bool_decide_eq_true in Hfresh. apply bool_decide_eq_true in Hfk.
  cbn [snd Main.store Postgres.users Postgres.refresh_tokens Postgres.chirps
       cc_Body cc_UserID] in *.
  split; [reflexivity|]. split; [reflexivity|]. right.
  eexists chrp, userID, _. split; [reflexivity|]. split; [reflexivity|].
  split; [exact Hfk|]. split; [reflexivity|]. split; [exact Hshort|].
  split; [exact Hfresh|]. split; reflexivity.
Qed.

(** ** Deleting a chirp: what is removed *)

Lemma NoDup_fmap_eq {A B} (f : A → B) (l : list A) (x y : A) :
  NoDup (f <$> l) → x ∈ l → y ∈ l → f x = f y → x = y.
Proof.
  intros Hnd Hx Hy Hf.
  apply list_elem_of_lookup in Hx. destruct Hx as [i Hi].
  apply list_elem_of_lookup in Hy. destruct Hy as [j Hj].
  assert (Hij : i = j).
  { apply (NoDup_lookup _ i j (f x) Hnd); rewrite list_lookup_fmap.
    - rewrite Hi. reflexivity.
    - rewrite Hj. simpl. congruence. }
  subst j. congruence.
Qed.

(** X6: with the ids of the chirps distinct, [deleteChirpsChirpID]
    removes at most the chirp named in the path, and that only for its
    owner: whatever the request, users and refresh tokens stay as they
    are, no chirp is added or changed, and a chirp that is gone
    afterwards has the id that the path value parses to and belongs to
    the user that the bearer token authenticates. *)
Theorem deleteChirpsChirpID_removes_only_own {jwtlib : JwtLib}
    (a : Main.apiConfig) (e : Env) (rq : Main.Request unit)
    (w : Main.World Postgres.DB) :
  NoDup (chirp_ID <$> Postgres.chirps (Main.store w)) →
  let db := Main.store w in
  let db' := Main.store (snd (Main.run (Main.deleteChirpsChirpID a e rq) w)) in
  Postgres.users db' = Postgres.users db
  ∧ Postgres.refresh_tokens db' = Postgres.refresh_tokens db
  ∧ (Postgres.chirps db' = Postgres.chirps db
     ∨ ∃ chirpID,
         Postgres.chirps db'
         = filter (fun c => chirp_ID c ≠ chirpID) (Postgres.chirps db))
  ∧ ∀ c, c ∈ Postgres.chirps db → c ∉ Postgres.chirps db' →
         Uuid.Parse (Main.rq_PathValue rq "chirpID") = Ok (chirp_ID c)
         ∧ authenticate a e (Main.rq_Header rq) = Some (chirp_UserID c).
Proof.
  intros Hnd db db'. subst db db'.
  assert (Hsame : ∀ db0 : Postgres.DB,
            Postgres.users db0 = Postgres.users db0
            ∧ Postgres.refresh_tokens db0 = Postgres.refresh_tokens db0
            ∧ (Postgres.chirps db0 = Postgres.chirps db0
               ∨ ∃ chirpID,
                   Postgres.chirps db0
                   = filter (fun c => chirp_ID c ≠ chirpID) (Postgres.chirps db0))
            ∧ ∀ c, c ∈ Postgres.chirps db0 → c ∉ Postgres.chirps db0 →
                   Uuid.Parse (Main.rq_PathValue rq "chirpID") = Ok (chirp_ID c)
                   ∧ authenticate a e (Main.rq_Header rq)
                     = Some (chirp_UserID c)).
  { intros db0. split; [reflexivity|]. split; [reflexivity|].
    split; [left; reflexivity|]. intros c Hin Hout. destruct (Hout Hin). }
  destruct (Uuid.Parse (Main.rq_PathValue rq "chirpID")) as [chirpID|err]
    eqn:Hparse.
  2: { unfold Main.deleteChirpsChirpID. rewrite Hparse. handler. apply Hsame. }
  rewrite (deleteChirpsChirpID_run a e rq chirpID w Hparse).
  change (GetChirp e chirpID (Main.store w))
    with (fst (Postgres.GetChirp e chirpID (Main.store w)), Main.store w).
  cbv zeta iota beta.
  destruct (fst (Postgres.GetChirp e chirpID (Main.store w)))
    as [chirp|err] eqn:Hget; [|apply Hsame].
  destruct (authenticate a e (Main.rq_Header rq)) as [userID|] eqn:Hauth;
    [|apply Hsame].
  case_bool_decide as Howner; [apply Hsame|]. clear Hsame.
  change (DeleteChirp e chirpID (Main.store w))
    with (Postgres.DeleteChirp e chirpID (Main.store w)).
  unfold Postgres.DeleteChirp.
  cbn [snd Main.store Postgres.users Postgres.refresh_tokens Postgres.chirps].
  split; [reflexivity|]. split; [reflexivity|].
  split; [right; exists chirpID; reflexivity|].
  intros c Hin Hout.
  assert (Hid : chirp_ID c = chirpID).
  { destruct (decide (chirp_ID c = chirpID)) as [Hid|Hid]; [exact Hid|].
    destruct Hout. apply list_elem_of_filter. auto. }
  destruct (one_filter_Ok _ _ _ Hget) as [Hin' Hid'].
  assert (Hc : c = chirp).
  { apply (NoDup_fmap_eq chirp_ID _ c chirp Hnd Hin Hin'). congruence. }
  subst c. rewrite Hid, Howner. auto.
Qed.

(** Bob deletes his chirp: the users are as they were. *)
Lemma deleteChirpsChirpID_removes_only_own_witness :
  Postgres.users
    (Main.store
       (snd (Main.run
               (Main.deleteChirpsChirpID Model.cfg Model.env
                  (Model.request (I := unit)
                     (Model.bearer (Model.access_token Model.bob))
                     (Uuid.String Model.post1) None))
               (Main.Build_World [] Model.db))))
  = Postgres.users Model.db.
Proof.
  destruct (deleteChirpsChirpID_removes_only_own Model.cfg Model.env
              (Model.request (I := unit)
                 (Model.bearer (Model.access_token Model.bob))
                 (Uuid.String Model.post1) None)
              (Main.Build_World [] Model.db)) as [Husers _].
  - apply NoDup_singleton.
  - exact Husers.
Defined.

(** ** Access tokens: what is accepted *)



(** X8: a token made by [MakeJWT] under one secret and validated under
    another is refused with the error of an invalid signature, at every
    instant, whenever the two secrets give its claims different HMACs;
    secrets that give them the same HMAC are not told apart. *)
Theorem ValidateJWT_other_secret {jwtlib : JwtLib}
    (userID : UUID) (secret other : string) (expiresIn now1 now2 : Z) :
  let claims :=
    {| Issuer := "chirpy";
       Subject := Uuid.String userID;
       ExpiresAt := Jwt.NewNumericDate (now2 + expiresIn);
       NotBefore := None;
       IssuedAt := Jwt.NewNumericDate now1 |} in
  ∃ tokenString,
    Auth.MakeJWT userID secret expiresIn now1 now2 = Ok tokenString
    ∧ (hmac "HS256" other claims ≠ hmac "HS256" secret claims →
       ∀ now, ∃ err,
         Auth.ValidateJWT tokenString other now = Err err
         ∧ Errors.Is err jwt_ErrTokenSignatureInvalid = true)
    ∧ (hmac "HS256" other claims = hmac "HS256" secret claims →
       ∀ now,
         Auth.ValidateJWT tokenString other now
         = Auth.ValidateJWT tokenString secret now).
Proof.
  intros claims.
  pose (tok := {| Alg := "HS256"; Claims := claims;
                  Signature := hmac "HS256" secret claims |}).
  assert (Hport : portable tok = true).
  { unfold portable, tok, claims.
    cbn [Alg Claims Issuer Subject ExpiresAt NotBefore IssuedAt].
    rewrite String_isASCII.
    rewrite (Truncate_whole now1), (Truncate_whole (now2 + expiresIn)).
    reflexivity. }
  exists (compact tok). split; [reflexivity|]. split.
  - intros Hdiff t. unfold Auth.ValidateJWT, Jwt.ParseWithClaims.
    rewrite (parseCompact_compact tok Hport).
    cbn [tok Alg Claims Signature].
    change (Jwt.isHMAC "HS256") with true. cbv iota.
    rewrite bool_decide_eq_false_2 by congruence.
    eexists. split; reflexivity.
  - intros Hsame t. unfold Auth.ValidateJWT, Jwt.ParseWithClaims.
    rewrite (parseCompact_compact tok Hport).
    cbn [tok Alg Claims Signature]. rewrite Hsame. reflexivity.
Qed.

(** The token of alice, validated under another secret. *)
Example ValidateJWT_other_secret_ex :
  Errors.Is
    (match Auth.ValidateJWT (Model.access_token Model.alice) "0ther"
             (now Model.env) with
     | Err err => err
     | Ok _ => Errors.New ""
     end) jwt_ErrTokenSignatureInvalid = true.
Proof. vm_compute. reflexivity. Qed.

(** ** Logging in: the token issued *)

(** [postLogin] over any store, once the body is decoded. *)
Lemma postLogin_steps {jwtlib : JwtLib} {bcryptlib : BcryptLib}
    {S : Type} {qry : Queries S} a e rq inp (w : Main.World S) :
  Main.rq_Decode rq = Some inp →
  Main.run (Main.postLogin a e rq) w =
  let '(r, s1) := GetUserByEmail e (Main.in_Email inp) (Main.store w) in
  match r with
  | Err _ =>
    (Main.Completed,
     {| Main.rw := Main.rw w ++ [Http.WriteHeader Http.StatusInternalServerError];
        Main.store := s1 |})
  | Ok row =>
    match Auth.CheckPasswordHash (Main.in_Password inp)
            (user_HashedPassword row) with
    | Some _ =>
      (Main.Completed,
       {| Main.rw := Main.rw w ++ login_refusal; Main.store := s1 |})
    | None =>
      let refreshToken := Hex.EncodeToString (randomBytes e) in
      let '(r2, s2) :=
        CreateRefreshToken e
          {| crt_Token := refreshToken; crt_UserID := user_ID row |} s1 in
      match r2 with
      | Ok _ =>
        (Main.Completed,
         {| Main.rw :=
              Main.rw w
              ++ login_response row
                   (or_else
                      (Auth.MakeJWT (user_ID row) (Main.secret a) GoTime.Hour
                         (now e) (now e)) "")
                   refreshToken;
            Main.store := s2 |})
      | Err _ =>
        (Main.Completed,
         {| Main.rw :=
              Main.rw w ++ [Http.WriteHeader Http.StatusInternalServerError];
            Main.store := s2 |})
      end
    end
  end.
Proof.
  intros Hdecode. unfold Main.postLogin. rewrite Hdecode. handler.
  destruct (GetUserByEmail e (Main.in_Email inp) (Main.store w))
    as [[row|err] s1]; simpl; [|reflexivity].
  destruct (Auth.CheckPasswordHash (Main.in_Password inp)
              (user_HashedPassword row)); simpl.
  { rewrite <- !app_assoc. reflexivity. }
  destruct (CreateRefreshToken e _ s1) as [[row'|err] s2]; simpl.
  - rewrite <- !app_assoc. reflexivity.
  - reflexivity.
Qed.

(** [postLogin] on the tables. *)
Lemma postLogin_tables {jwtlib : JwtLib} {bcryptlib : BcryptLib}
    a e rq inp log (db : Postgres.DB) :
  Main.rq_Decode rq = Some inp →
  Main.run (Main.postLogin a e rq) (Main.Build_World log db) =
  match fst (Postgres.GetUserByEmail e (Main.in_Email inp) db) with
  | Err _ =>
    (Main.Completed,
     Main.Build_World
       (log ++ [Http.WriteHeader Http.StatusInternalServerError]) db)
  | Ok row =>
    match Auth.CheckPasswordHash (Main.in_Password inp)
            (user_HashedPassword row) with
    | Some _ => (Main.Completed, Main.Build_World (log ++ login_refusal) db)
    | None =>
      let refreshToken := Hex.EncodeToString (randomBytes e) in
      if Postgres.refresh_token_admissible db
           {| crt_Token := refreshToken; crt_UserID := user_ID row |}
      then
        (Main.Completed,
         Main.Build_World
           (log ++ login_response row
                     (or_else
                        (Auth.MakeJWT (user_ID row) (Main.secret a) GoTime.Hour
                           (now e) (now e)) "")
                     refreshToken)
           (with_token db (issued_row e refreshToken (user_ID row))))
      else
        (Main.Completed,
         Main.Build_World
           (log ++ [Http.WriteHeader Http.StatusInternalServerError]) db)
    end
  end.
Proof.
  intros Hdecode. rewrite (postLogin_steps a e rq inp _ Hdecode).
  change (GetUserByEmail e (Main.in_Email inp)
            (Main.store (Main.Build_World log db)))
    with (fst (Postgres.GetUserByEmail e (Main.in_Email inp) db), db).
  cbv zeta iota beta.
  destruct (fst (Postgres.GetUserByEmail e (Main.in_Email inp) db))
    as [row|err]; [|reflexivity].
  destruct (Auth.CheckPasswordHash (Main.in_Password inp)
              (user_HashedPassword row)); [reflexivity|].
  change (CreateRefreshToken e ?p db) with (Postgres.CreateRefreshToken e p db).
  unfold Postgres.CreateRefreshToken.
  destruct (Postgres.refresh_token_admissible db _); reflexivity.
Qed.

Lemma filter_none {A} (P : A → Prop) `{!∀ x, Decision (P x)} (l : list A) :
  (∀ x, x ∈ l → ¬ P x) → filter P l = [].
Proof.
  intros Hnone. destruct (filter P l) as [|x xs] eqn:Hf; [reflexivity|].
  assert (Hin : x ∈ filter P l) by (rewrite Hf; left).
  apply list_elem_of_filter in Hin. destruct Hin as [HP Hin].
  destruct (Hnone x Hin HP).
Qed.

(** A token just issued is found until sixty days later, and not from
    then on. *)
Lemma GetRefreshToken_issued e e' t owner (db : Postgres.DB) :
  t ∉ rt_Token <$> Postgres.refresh_tokens db →
  fst (Postgres.GetRefreshToken e' t (with_token db (issued_row e t owner)))
  = if now e' <? now e + Postgres.sixtyDays then Ok (issued_row e t owner)
    else Err (Errors.Of sql_ErrNoRows "sql: no rows in result set").
Proof.
  intros Hfresh. unfold Postgres.GetRefreshToken, with_token.
  cbn [fst Postgres.refresh_tokens]. rewrite filter_app.
  rewrite (filter_none (Postgres.redeemable e' t) (Postgres.refresh_tokens db)).
  2: { intros row Hin (Htok & _). apply Hfresh. rewrite <- Htok.
       apply list_elem_of_fmap. exists row. auto. }
  cbn [app]. rewrite filter_cons, filter_nil.
  destruct (Z.ltb_spec (now e') (now e + Postgres.sixtyDays)) as [Hlt|Hge].
  - rewrite decide_True; [reflexivity|]. repeat split. exact Hlt.
  - rewrite decide_False; [reflexivity|]. intros (_ & _ & Hlt). simpl in Hlt. lia.
Qed.

Lemma ValidateJWT_at_issue {jwtlib : JwtLib} u secret t :
  Auth.ValidateJWT (or_else (Auth.MakeJWT u secret GoTime.Hour t t) "") secret t
  = Ok u.
Proof.
  destruct (ValidateJWT_MakeJWT u secret GoTime.Hour t t)
    as (tokenString & Hmake & Hwindow).
  rewrite Hmake. cbn [or_else]. rewrite Hwindow.
  pose proof (Truncate_gt (t + GoTime.Hour)) as Hgt.
  destruct (Z.ltb_spec t (GoTime.Truncate (t + GoTime.Hour) GoTime.Second));
    [reflexivity|]. unfold GoTime.Hour, GoTime.Second in *. lia.
Qed.

(** X9: a login with the password of a stored user, when the random
    bytes give a token not yet in the table, answers 200 with an access
    token that validates for that user and with a refresh token, the
    random bytes in hexadecimal, that [GetBearerToken] reads back from
    the Authorization field.  With the store that the login leaves, a
    refresh request carrying this token is answered with a new access
    token for the same user at every instant earlier than sixty days
    after the login, and with the bare 401 from then on. *)
Theorem login_then_refresh {jwtlib : JwtLib} {bcryptlib : BcryptLib}
    (a : Main.apiConfig) (e : Env) (rq : Main.Request Main.input)
    (inp : Main.input) (row : User) (db : Postgres.DB)
    (log : list (Http.call Main.body)) :
  Main.rq_Decode rq = Some inp →
  fst (Postgres.GetUserByEmail e (Main.in_Email inp) db) = Ok row →
  Auth.CheckPasswordHash (Main.in_Password inp) (user_HashedPassword row)
  = None →
  Hex.EncodeToString (randomBytes e) ∉ rt_Token <$> Postgres.refresh_tokens db →
  let refreshToken := Hex.EncodeToString (randomBytes e) in
  ∃ tokenString db',
    Main.run (Main.postLogin a e rq) (Main.Build_World log db)
    = (Main.Completed,
       Main.Build_World (log ++ login_response row tokenString refreshToken) db')
    ∧ Auth.ValidateJWT tokenString (Main.secret a) (now e) = Ok (user_ID row)
    ∧ Auth.GetBearerToken (Model.bearer refreshToken) = Ok refreshToken
    ∧ ∀ a' e' (rq' : Main.Request unit) log',
        Auth.GetBearerToken (Main.rq_Header rq') = Ok refreshToken →
        Main.run (Main.postRefresh a' e' rq') (Main.Build_World log' db')
        = (Main.Completed,
           Main.Build_World
             (log'
              ++ if now e' <? now e + Postgres.sixtyDays
                 then token_response
                        (or_else
                           (Auth.MakeJWT (user_ID row) (Main.secret a')
                              GoTime.Hour (now e') (now e')) "")
                 else [Http.WriteHeader Http.StatusUnauthorized])
             db').
Proof.
  intros Hdecode Hrow Hcheck Hfresh refreshToken.
  exists (or_else (Auth.MakeJWT (user_ID row) (Main.secret a) GoTime.Hour
                     (now e) (now e)) ""),
         (with_token db (issued_row e refreshToken (user_ID row))).
  split; [|split; [apply ValidateJWT_at_issue|split; [apply GetBearerToken_hex|]]].
  - rewrite (postLogin_tables a e rq inp log db Hdecode), Hrow, Hcheck.
    cbv zeta. fold refreshToken.
    assert (Hadm : Postgres.refresh_token_admissible db
                     {| crt_Token := refreshToken; crt_UserID := user_ID row |}
                   = true).
    { apply andb_true_iff. split; apply bool_decide_eq_true; [exact Hfresh|].
      destruct (one_filter_Ok _ _ _ Hrow) as [Hin _].
      apply list_elem_of_fmap. exists row. auto. }
    rewrite Hadm. reflexivity.
  - intros a' e' rq' log' Hbearer.
    rewrite (postRefresh_run a' e' rq' refreshToken _ Hbearer).
    change (GetRefreshToken e' refreshToken (Main.store (Main.Build_World log' ?d)))
      with (fst (Postgres.GetRefreshToken e' refreshToken d), d).
    rewrite (GetRefreshToken_issued e e' refreshToken (user_ID row) db Hfresh).
    destruct (now e' <? now e + Postgres.sixtyDays); reflexivity.
Qed.

(** Alice logs in. *)
Lemma login_then_refresh_witness :
  Http.status
    (Main.rw
       (snd (Main.run
               (Main.postLogin Model.cfg Model.env
                  (Model.request ∅ ""
                     (Some {| Main.in_Password := "correct horse";
                              Main.in_Email := "alice@example.com" |})))
               (Main.Build_World [] Model.db))))
  = Some 200.
Proof.
  destruct (login_then_refresh Model.cfg Model.env
              (Model.request ∅ ""
                 (Some {| Main.in_Password := "correct horse";
                          Main.in_Email := "alice@example.com" |}))
              {| Main.in_Password := "correct horse";
                 Main.in_Email := "alice@example.com" |}
              (Model.user_row Model.alice "alice@example.com" "correct horse")
              Model.db [])
    as (tokenString & db' & Hrun & _).
  - reflexivity.
  - reflexivity.
  - vm_compute. reflexivity.
  - apply (bool_decide_unpack _). vm_compute. exact I.
  - rewrite Hrun. reflexivity.
Defined.

(** X10: [postLogin] has three outcomes and no other, whatever the
    request.  A bare 500, or a 401 with the text "Incorrect email or
    password" for a stored user whose hash does not verify the password
    sent: both leave the store as it is.  Or a 200 with the tokens: then a
    stored user has the email sent, the hash of that user verifies the
    password sent, the access token validates for that user, and the
    store has gained one refresh-token row of that user, unrevoked, that
    expires sixty days later. *)
Theorem postLogin_outcomes {jwtlib : JwtLib} {bcryptlib : BcryptLib}
    (a : Main.apiConfig) (e : Env) (rq : Main.Request Main.input)
    (w : Main.World Postgres.DB) :
  let out := Main.run (Main.postLogin a e rq) w in
  let db := Main.store w in
  let refreshToken := Hex.EncodeToString (randomBytes e) in
  out = (Main.Completed,
         Main.Build_World
           (Main.rw w ++ [Http.WriteHeader Http.StatusInternalServerError]) db)
  ∨ (out = (Main.Completed, Main.Build_World (Main.rw w ++ login_refusal) db)
     ∧ ∃ inp row,
         Main.rq_Decode rq = Some inp
         ∧ row ∈ Postgres.users db ∧ user_Email row = Main.in_Email inp
         ∧ Auth.CheckPasswordHash (Main.in_Password inp)
             (user_HashedPassword row) ≠ None)
  ∨ ∃ inp row tokenString,
      Main.rq_Decode rq = Some inp
      ∧ row ∈ Postgres.users db ∧ user_Email row = Main.in_Email inp
      ∧ Auth.CheckPasswordHash (Main.in_Password inp)
          (user_HashedPassword row) = None
      ∧ Auth.ValidateJWT tokenString (Main.secret a) (now e) = Ok (user_ID row)
      ∧ out = (Main.Completed,
               Main.Build_World
                 (Main.rw w ++ login_response row tokenString refreshToken)
                 (with_token db (issued_row e refreshToken (user_ID row)))).
Proof.
  intros out db refreshToken. subst out db refreshToken. destruct w as [log db].
  cbn [Main.rw Main.store].
  destruct (Main.rq_Decode rq) as [inp|] eqn:Hdecode.
  2: { left. unfold Main.postLogin. rewrite Hdecode. handler. reflexivity. }
  rewrite (postLogin_tables a e rq inp log db Hdecode).
  destruct (fst (Postgres.GetUserByEmail e (Main.in_Email inp) db))
    as [row|err] eqn:Hrow; [|left; reflexivity].
  destruct (one_filter_Ok _ _ _ Hrow) as [Hin Hemail].
  destruct (Auth.CheckPasswordHash (Main.in_Password inp)
              (user_HashedPassword row)) as [err|] eqn:Hcheck.
  { right. left. split; [reflexivity|]. exists inp, row.
    rewrite Hcheck. repeat split; auto. }
  cbv zeta.
  destruct (Postgres.refresh_token_admissible db _); [|left; reflexivity].
  right. right. exists inp, row. eexists.
  repeat (split; [reflexivity || assumption|]).
  split; [apply ValidateJWT_at_issue|reflexivity].
Qed.

(** ** Registration *)

(** [postUsers] over any store, once the body is decoded. *)
Lemma postUsers_steps {bcryptlib : BcryptLib} {S : Type} {users : UserQueries S}
    a e salt rq inp (w : Main.World S) :
  Main.rq_Decode rq = Some inp →
  Main.run (Accounts.postUsers a e salt rq) w =
  if bool_decide (Main.in_Email inp = "")
     || bool_decide (Main.in_Password inp = "")
  then
    (Main.Completed,
     {| Main.rw := Main.rw w ++ [Http.WriteHeader Http.StatusBadRequest];
        Main.store := Main.store w |})
  else
    match Auth.HashPassword (Main.in_Password inp) salt with
    | Err _ =>
      (Main.Completed,
       {| Main.rw :=
            Main.rw w ++ [Http.WriteHeader Http.StatusInternalServerError];
          Main.store := Main.store w |})
    | Ok Password =>
      let '(r, s) :=
        CreateUser e {| cu_Email := Main.in_Email inp;
                        cu_HashedPassword := Password |} (Main.store w) in
      match r with
      | Ok row =>
        (Main.Completed,
         {| Main.rw := Main.rw w ++ user_response Http.StatusCreated row;
            Main.store := s |})
      | Err _ =>
        (Main.Completed,
         {| Main.rw :=
              Main.rw w ++ [Http.WriteHeader Http.StatusInternalServerError];
            Main.store := s |})
      end
    end.
Proof.
  intros Hdecode. unfold Accounts.postUsers. rewrite Hdecode. handler.
  destruct (bool_decide (Main.in_Email inp = "")
            || bool_decide (Main.in_Password inp = "")); simpl;
    [destruct w; reflexivity|].
  destruct (Auth.HashPassword (Main.in_Password inp) salt) as [Password|err];
    simpl; [|destruct w; reflexivity].
  destruct (CreateUser e _ (Main.store w)) as [[row|err] s]; simpl.
  - rewrite <- !app_assoc. reflexivity.
  - reflexivity.
Qed.

Lemma HashPassword_verifies {bcryptlib : BcryptLib} p salt h :
  Auth.HashPassword p salt = Ok h → Auth.CheckPasswordHash p h = None.
Proof.
  intros Hhash. apply HashPassword_Ok in Hhash. subst h.
  apply CheckPasswordHash_None. reflexivity.
Qed.

(** X11: [postUsers] has three outcomes and no other, whatever the
    request.  A bare 500, or a bare 400 when the email or the password
    sent is empty: both leave the store as it is.  Or a 201: then email
    and password are not empty, no stored user had the email, and the
    store has gained one user with that email, a fresh id, the current
    time, no privilege, and a hash that verifies the password sent; the
    answer describes that user and carries neither hash nor token. *)
Theorem postUsers_outcomes {bcryptlib : BcryptLib}
    (a : Main.apiConfig) (e : Env) (salt : Salt) (rq : Main.Request Main.input)
    (w : Main.World Postgres.DB) :
  let out := Main.run (Accounts.postUsers a e salt rq) w in
  let db := Main.store w in
  out = (Main.Completed,
         Main.Build_World
           (Main.rw w ++ [Http.WriteHeader Http.StatusInternalServerError]) db)
  ∨ (out = (Main.Completed,
            Main.Build_World
              (Main.rw w ++ [Http.WriteHeader Http.StatusBadRequest]) db)
     ∧ ∃ inp, Main.rq_Decode rq = Some inp
              ∧ (Main.in_Email inp = "" ∨ Main.in_Password inp = ""))
  ∨ ∃ inp hash,
      Main.rq_Decode rq = Some inp
      ∧ Main.in_Email inp ≠ "" ∧ Main.in_Password inp ≠ ""
      ∧ Auth.HashPassword (Main.in_Password inp) salt = Ok hash
      ∧ Auth.CheckPasswordHash (Main.in_Password inp) hash = None
      ∧ (Main.in_Email inp ∉ user_Email <$> Postgres.users db)
      ∧ (randomUUID e ∉ user_ID <$> Postgres.users db)
      ∧ let row := created_user e (Main.in_Email inp) hash in
        out = (Main.Completed,
               Main.Build_World
                 (Main.rw w ++ user_response Http.StatusCreated row)
                 (with_users db (Postgres.users db ++ [row]))).
Proof.
  intros out db. subst out db. destruct w as [log db]. cbn [Main.rw Main.store].
  destruct (Main.rq_Decode rq) as [inp|] eqn:Hdecode.
  2: { left. unfold Accounts.postUsers. rewrite Hdecode. handler. reflexivity. }
  rewrite (postUsers_steps a e salt rq inp _ Hdecode). cbn [Main.rw Main.store].
  destruct (bool_decide (Main.in_Email inp = "")
            || bool_decide (Main.in_Password inp = "")) eqn:Hempty.
  { right. left. split; [reflexivity|]. exists inp. split; [reflexivity|].
    apply orb_true_iff in Hempty.
    destruct Hempty as [Hempty|Hempty]; apply bool_decide_eq_true in Hempty; auto. }
  apply orb_false_iff in Hempty. destruct Hempty as [Hemail Hpassword].
  apply bool_decide_eq_false in Hemail. apply bool_decide_eq_false in Hpassword.
  destruct (Auth.HashPassword (Main.in_Password inp) salt) as [hash|err] eqn:Hhash;
    [|left; reflexivity].
  change (CreateUser e ?p db) with (UserSql.CreateUser e p db).
  unfold UserSql.CreateUser.
  destruct (UserSql.user_admissible db (randomUUID e) _) eqn:Hadm;
    [|left; reflexivity].
  apply andb_true_iff in Hadm. destruct Hadm as [Hid Hfresh].
  apply bool_decide_eq_true in Hid. apply bool_decide_eq_true in Hfresh.
  right. right. exists inp, hash.
  repeat (split; [reflexivity || assumption|]).
  split; [exact (HashPassword_verifies _ _ _ Hhash)|].
  split; [exact Hfresh|]. split; [exact Hid|]. reflexivity.
Qed.

Lemma GetUserByEmail_created e e' email hash (db : Postgres.DB) :
  email ∉ user_Email <$> Postgres.users db →
  fst (Postgres.GetUserByEmail e' email
         (with_users db (Postgres.users db ++ [created_user e email hash])))
  = Ok (created_user e email hash).
Proof.
  intros Hfresh. unfold Postgres.GetUserByEmail, with_users.
  cbn [fst Postgres.users]. rewrite filter_app.
  rewrite (filter_none (fun u => user_Email u = email) (Postgres.users db)).
  2: { intros row Hin Hemail. apply Hfresh. rewrite <- Hemail.
       apply list_elem_of_fmap. exists row. auto. }
  cbn [app]. rewrite filter_cons, filter_nil.
  rewrite decide_True by reflexivity. reflexivity.
Qed.

(** X12: a registration that is accepted makes the login work.  When
    email and password are not empty, the hashing accepts the password,
    no stored user has the email and the generated id is fresh,
    [postUsers] answers 201; on the store it leaves, a login with the
    same email and password, at any later time and with a refresh token
    not yet in the table, answers 200 with an access token that
    validates for the new user, and a login with the same email and a
    password that the stored hash does not verify answers 401. *)
Theorem register_then_login {jwtlib : JwtLib} {bcryptlib : BcryptLib}
    (a : Main.apiConfig) (e : Env) (salt : Salt) (rq : Main.Request Main.input)
    (inp : Main.input) (hash : string) (db : Postgres.DB)
    (log : list (Http.call Main.body)) :
  Main.rq_Decode rq = Some inp →
  Main.in_Email inp ≠ "" → Main.in_Password inp ≠ "" →
  Auth.HashPassword (Main.in_Password inp) salt = Ok hash →
  Main.in_Email inp ∉ user_Email <$> Postgres.users db →
  randomUUID e ∉ user_ID <$> Postgres.users db →
  let row := created_user e (Main.in_Email inp) hash in
  let db' := with_users db (Postgres.users db ++ [row]) in
  Main.run (Accounts.postUsers a e salt rq) (Main.Build_World log db)
  = (Main.Completed,
     Main.Build_World (log ++ user_response Http.StatusCreated row) db')
  ∧ (∀ a' e' rq' log',
       Main.rq_Decode rq' = Some inp →
       Hex.EncodeToString (randomBytes e')
       ∉ rt_Token <$> Postgres.refresh_tokens db →
       ∃ tokenString db'',
         Main.run (Main.postLogin a' e' rq') (Main.Build_World log' db')
         = (Main.Completed,
            Main.Build_World
              (log' ++ login_response row tokenString
                         (Hex.EncodeToString (randomBytes e'))) db'')
         ∧ Auth.ValidateJWT tokenString (Main.secret a') (now e')
           = Ok (randomUUID e))
  ∧ (∀ a' e' rq' inp' log',
       Main.rq_Decode rq' = Some inp' →
       Main.in_Email inp' = Main.in_Email inp →
       Auth.CheckPasswordHash (Main.in_Password inp') hash ≠ None →
       Main.run (Main.postLogin a' e' rq') (Main.Build_World log' db')
       = (Main.Completed, Main.Build_World (log' ++ login_refusal) db')).
Proof.
  intros Hdecode Hemail Hpassword Hhash Hfresh Hid row db'.
  split; [|split].
  - rewrite (postUsers_steps a e salt rq inp _ Hdecode). cbn [Main.rw Main.store].
    rewrite (bool_decide_eq_false_2 _ Hemail), (bool_decide_eq_false_2 _ Hpassword).
    cbn [orb]. rewrite Hhash.
    change (CreateUser e ?p db) with (UserSql.CreateUser e p db).
    unfold UserSql.CreateUser, UserSql.user_admissible.
    rewrite (bool_decide_eq_true_2 _ Hid). cbn [cu_Email andb].
    rewrite (bool_decide_eq_true_2 _ Hfresh). reflexivity.
  - intros a' e' rq' log' Hdecode' Htoken.
    rewrite (postLogin_tables a' e' rq' inp log' db' Hdecode').
    subst db' row. rewrite (GetUserByEmail_created e e' _ hash db Hfresh).
    cbn [user_HashedPassword created_user].
    rewrite (HashPassword_verifies _ _ _ Hhash). cbv zeta.
    match goal with
    | |- context [Postgres.refresh_token_admissible ?d ?p] =>
      assert (Hadm : Postgres.refresh_token_admissible d p = true)
    end.
    { apply andb_true_iff. split; apply bool_decide_eq_true; [exact Htoken|].
      cbn [crt_UserID with_users Postgres.users]. rewrite fmap_app.
      apply elem_of_app. right. left. }
    rewrite Hadm. eexists _, _. split; [reflexivity|].
    apply ValidateJWT_at_issue.
  - intros a' e' rq' inp' log' Hdecode' Hsame Hwrong.
    rewrite (postLogin_tables a' e' rq' inp' log' db' Hdecode').
    subst db' row. rewrite Hsame, (GetUserByEmail_created e e' _ hash db Hfresh).
    cbn [user_HashedPassword created_user].
    destruct (Auth.CheckPasswordHash (Main.in_Password inp') hash);
      [reflexivity|congruence].
Qed.

(** Carol registers. *)
Lemma register_then_login_witness :
  let e := {| now := 10500000000; randomBytes := ""; randomUUID := Uuid.Nil |} in
  Http.status
    (Main.rw
       (snd (Main.run
               (Accounts.postUsers (bcryptlib := Model.bcrypt) Model.cfg e
                  "fedcba9876543210"
                  (Model.request ∅ ""
                     (Some {| Main.in_Password := "tr0ub4dor";
                              Main.in_Email := "carol@example.com" |})))
               (Main.Build_World [] Model.db))))
  = Some 201.
Proof.
  intros e.
  destruct (register_then_login (jwtlib := Model.jwt) (bcryptlib := Model.bcrypt)
              Model.cfg e "fedcba9876543210"
              (Model.request ∅ ""
                 (Some {| Main.in_Password := "tr0ub4dor";
                          Main.in_Email := "carol@example.com" |}))
              {| Main.in_Password := "tr0ub4dor";
                 Main.in_Email := "carol@example.com" |}
              (or_else (Auth.HashPassword (bcryptlib := Model.bcrypt)
                          "tr0ub4dor" "fedcba9876543210") "")
              Model.db []) as [Hrun _].
  - reflexivity.
  - discriminate.
  - discriminate.
  - reflexivity.
  - apply (bool_decide_unpack _). vm_compute. exact I.
  - apply (bool_decide_unpack _). vm_compute. exact I.
  - rewrite Hrun. reflexivity.
Defined.

(** ** Changing the credentials *)

(** [putUsers] over any store, once authenticated and decoded. *)
Lemma putUsers_steps {jwtlib : JwtLib} {bcryptlib : BcryptLib}
    {S : Type} {users : UserQueries S} a e salt rq userID inp (w : Main.World S) :
  authenticate a e (Main.rq_Header rq) = Some userID →
  Main.rq_Decode rq = Some inp →
  Main.run (Accounts.putUsers a e salt rq) w =
  match Auth.HashPassword (Main.in_Password inp) salt with
  | Err _ =>
    (Main.Completed,
     {| Main.rw :=
          Main.rw w ++ [Http.WriteHeader Http.StatusInternalServerError];
        Main.store := Main.store w |})
  | Ok Password =>
    let '(r, s) :=
      UpdateUser e {| uu_Email := Main.in_Email inp;
                      uu_HashedPassword := Password;
                      uu_ID := userID |} (Main.store w) in
    match r with
    | Ok userRow =>
      (Main.Completed,
       {| Main.rw := Main.rw w ++ user_response Http.StatusOK userRow;
          Main.store := s |})
    | Err _ =>
      (Main.Completed,
       {| Main.rw :=
            Main.rw w ++ [Http.WriteHeader Http.StatusInternalServerError];
          Main.store := s |})
    end
  end.
Proof.
  intros Hauth Hdecode. unfold authenticate in Hauth. unfold Accounts.putUsers.
  destruct (Auth.GetBearerToken (Main.rq_Header rq)) as [tokenString|];
    [|discriminate].
  destruct (Auth.ValidateJWT tokenString (Main.secret a) (now e)) as [u|] eqn:Hv;
    [|discriminate].
  injection Hauth as ->. rewrite Hdecode. handler. rewrite Hv. simpl.
  destruct (Auth.HashPassword (Main.in_Password inp) salt) as [Password|err];
    simpl; [|destruct w; reflexivity].
  destruct (UpdateUser e _ (Main.store w)) as [[row|err] s]; simpl.
  - rewrite <- !app_assoc. reflexivity.
  - reflexivity.
Qed.

(** The requests that [putUsers] turns away before any query. *)
Lemma putUsers_turned_away {jwtlib : JwtLib} {bcryptlib : BcryptLib}
    {S : Type} {users : UserQueries S} a e salt rq (w : Main.World S) :
  authenticate a e (Main.rq_Header rq) = None ∨ Main.rq_Decode rq = None →
  Main.store (snd (Main.run (Accounts.putUsers a e salt rq) w)) = Main.store w.
Proof.
  intros Hno. unfold authenticate in Hno. unfold Accounts.putUsers.
  destruct (Auth.GetBearerToken (Main.rq_Header rq)) as [tokenString|];
    [|handler; reflexivity].
  destruct (Auth.ValidateJWT tokenString (Main.secret a) (now e)) as [u|] eqn:Hv;
    [|handler; rewrite Hv; reflexivity].
  destruct Hno as [Hno|Hno]; [discriminate|]. rewrite Hno. handler.
  rewrite Hv. reflexivity.
Qed.

Lemma update_same_but_credentials p u :
  same_but_credentials u (UserSql.update p u).
Proof. unfold UserSql.update. case_bool_decide; repeat split. Qed.

(** X13: whatever the request, [putUsers] leaves the refresh tokens and
    the chirps as they are, and of the users it changes nothing but
    email and hash, and these in no row but that of the user whom the
    bearer token authenticates, who gets the email sent and a hash of
    the password sent.  Ids, the two dates and the privilege of every row
    stay, the date of the last update included, and the refresh tokens
    issued before a change of password remain redeemable. *)
Theorem putUsers_changes_only_credentials
    {jwtlib : JwtLib} {bcryptlib : BcryptLib}
    (a : Main.apiConfig) (e : Env) (salt : Salt) (rq : Main.Request Main.input)
    (w : Main.World Postgres.DB) :
  let db := Main.store w in
  let db' := Main.store (snd (Main.run (Accounts.putUsers a e salt rq) w)) in
  Postgres.refresh_tokens db' = Postgres.refresh_tokens db
  ∧ Postgres.chirps db' = Postgres.chirps db
  ∧ (∀ e' t, usable e' t db' ↔ usable e' t db)
  ∧ Forall2
      (fun u u' =>
         same_but_credentials u u'
         ∧ (u' = u
            ∨ (authenticate a e (Main.rq_Header rq) = Some (user_ID u)
               ∧ ∃ inp,
                   Main.rq_Decode rq = Some inp
                   ∧ user_Email u' = Main.in_Email inp
                   ∧ Auth.HashPassword (Main.in_Password inp) salt
                     = Ok (user_HashedPassword u'))))
      (Postgres.users db) (Postgres.users db').
Proof.
  intros db db'. subst db db'.
  assert (Hsame : ∀ db0 : Postgres.DB,
            Postgres.refresh_tokens db0 = Postgres.refresh_tokens db0
            ∧ Postgres.chirps db0 = Postgres.chirps db0
            ∧ (∀ e' t, usable e' t db0 ↔ usable e' t db0)
            ∧ Forall2
                (fun u u' =>
                   same_but_credentials u u'
                   ∧ (u' = u
                      ∨ (authenticate a e (Main.rq_Header rq) = Some (user_ID u)
                         ∧ ∃ inp,
                             Main.rq_Decode rq = Some inp
                             ∧ user_Email u' = Main.in_Email inp
                             ∧ Auth.HashPassword (Main.in_Password inp) salt
                               = Ok (user_HashedPassword u'))))
                (Postgres.users db0) (Postgres.users db0)).
  { intros db0. split; [reflexivity|]. split; [reflexivity|].
    split; [reflexivity|]. apply Forall_Forall2_diag, Forall_forall.
    intros u _. split; [repeat split|left; reflexivity]. }
  destruct (authenticate a e (Main.rq_Header rq)) as [userID|] eqn:Hauth.
  2: { rewrite putUsers_turned_away by (left; exact Hauth). apply Hsame. }
  destruct (Main.rq_Decode rq) as [inp|] eqn:Hdecode.
  2: { rewrite putUsers_turned_away by (right; exact Hdecode). apply Hsame. }
  rewrite (putUsers_steps a e salt rq userID inp w Hauth Hdecode).
  destruct (Auth.HashPassword (Main.in_Password inp) salt) as [hash|err] eqn:Hhash;
    [|apply Hsame].
  change (UpdateUser e ?p (Main.store w)) with (UserSql.UpdateUser e p (Main.store w)).
  unfold UserSql.UpdateUser.
  destruct (UserSql.email_taken (Main.store w) _); [apply Hsame|]. clear Hsame.
  assert (Hrows :
    ∀ o : result User,
      let db' :=
        Main.store
          (snd (let '(r, s) :=
                  (o, with_users (Main.store w)
                        (UserSql.update
                           {| uu_Email := Main.in_Email inp;
                              uu_HashedPassword := hash; uu_ID := userID |}
                         <$> Postgres.users (Main.store w))) in
                match r with
                | Ok userRow =>
                  (Main.Completed,
                   {| Main.rw := Main.rw w ++ user_response Http.StatusOK userRow;
                      Main.store := s |})
                | Err _ =>
                  (Main.Completed,
                   {| Main.rw :=
                        Main.rw w
                        ++ [Http.WriteHeader Http.StatusInternalServerError];
                      Main.store := s |})
                end)) in
      db' = with_users (Main.store w)
              (UserSql.update
                 {| uu_Email := Main.in_Email inp;
                    uu_HashedPassword := hash; uu_ID := userID |}
               <$> Postgres.users (Main.store w))).
  { intros [row|err]; reflexivity. }
  cbv zeta in Hrows. unfold with_users in Hrows. cbv zeta. rewrite Hrows.
  cbn [Postgres.users Postgres.refresh_tokens Postgres.chirps].
  split; [reflexivity|]. split; [reflexivity|]. split; [reflexivity|].
  apply Forall2_fmap_r, Forall_Forall2_diag, Forall_forall. intros u _.
  split; [apply update_same_but_credentials|].
  unfold UserSql.update. case_bool_decide as Hid; [right|left; reflexivity].
  cbn [uu_ID] in Hid. rewrite Hid. split; [reflexivity|].
  exists inp. split; [reflexivity|]. split; [reflexivity|]. exact Hhash.
Qed.



(** ** The webhook *)

(** [postPolkaWebhooks] over any store: every answer is one bare
    status. *)
Lemma postPolkaWebhooks_steps {S : Type} {users : UserQueries S}
    (GetAPIKey : Header → result string) a e rq (w : Main.World S) :
  Main.run (Accounts.postPolkaWebhooks GetAPIKey a e rq) w =
  let answer code s :=
    (Main.Completed,
     {| Main.rw := Main.rw w ++ [Http.WriteHeader code]; Main.store := s |}) in
  if bool_decide (GetAPIKey (Main.rq_Header rq) = Ok (Main.polkaKey a)) then
    match Main.rq_Decode rq with
    | None => answer Http.StatusInternalServerError (Main.store w)
    | Some inp =>
      if bool_decide (Accounts.wh_Event inp ≠ "user.upgraded") then
        answer Http.StatusNoContent (Main.store w)
      else
        match Uuid.Parse (Accounts.wh_UserID inp) with
        | Err _ => answer Http.StatusInternalServerError (Main.store w)
        | Ok userID =>
          let '(r, s) := UpdateToChirpyRed e userID (Main.store w) in
          match r with
          | Ok _ => answer Http.StatusNoContent s
          | Err _ => answer Http.StatusInternalServerError s
          end
        end
    end
  else answer Http.StatusUnauthorized (Main.store w).
Proof.
  unfold Accounts.postPolkaWebhooks.
  destruct (GetAPIKey (Main.rq_Header rq)) as [apiKey|err].
  2: { rewrite bool_decide_eq_false_2 by discriminate. handler. reflexivity. }
  destruct (decide (apiKey = Main.polkaKey a)) as [->|Hkey].
  2: { rewrite (bool_decide_eq_true_2 _ Hkey).
       rewrite bool_decide_eq_false_2 by congruence. handler. reflexivity. }
  rewrite bool_decide_eq_false_2 by (intros Hne; apply Hne; reflexivity).
  rewrite bool_decide_eq_true_2 by reflexivity.
  destruct (Main.rq_Decode rq) as [inp|]; [|handler; reflexivity].
  handler.
  destruct (decide (Accounts.wh_Event inp = "user.upgraded")) as [Hevent|Hevent].
  2: { rewrite !(bool_decide_eq_true_2 _ Hevent). reflexivity. }
  rewrite !bool_decide_eq_false_2 by (intros Hne; exact (Hne Hevent)). simpl.
  destruct (Uuid.Parse (Accounts.wh_UserID inp)) as [userID|err];
    [|reflexivity].
  simpl. destruct (UpdateToChirpyRed e userID (Main.store w)) as [[row|err] s];
    simpl; [reflexivity|].
  destruct (Errors.Is err sql_ErrNoRows); reflexivity.
Qed.

(** X15: the webhook upgrades a user on the right key and the right
    event and does nothing else.  Whatever the function that reads the
    key from the headers: a request whose key is missing or is not the
    configured one is answered 401; with the key, an event other than
    "user.upgraded" is answered 204; in both cases the store is as it
    was.  With the key and the event, the rows of the user id sent get
    the privilege, and the answer is 204 when there is such a user and
    500, not 404, when there is none.  In every case the refresh tokens
    and the chirps stay, and a row of users is as before or differs by
    the privilege, which it has. *)
Theorem postPolkaWebhooks_upgrades_on_key_and_event
    (GetAPIKey : Header → result string)
    (a : Main.apiConfig) (e : Env) (rq : Main.Request Accounts.webhook)
    (w : Main.World Postgres.DB) :
  let out := Main.run (Accounts.postPolkaWebhooks GetAPIKey a e rq) w in
  let db := Main.store w in
  let db' := Main.store (snd out) in
  let answer code db :=
    (Main.Completed,
     Main.Build_World (Main.rw w ++ [Http.WriteHeader code]) db) in
  (GetAPIKey (Main.rq_Header rq) ≠ Ok (Main.polkaKey a) →
   out = answer Http.StatusUnauthorized db)
  ∧ (∀ inp,
       GetAPIKey (Main.rq_Header rq) = Ok (Main.polkaKey a) →
       Main.rq_Decode rq = Some inp →
       (Accounts.wh_Event inp ≠ "user.upgraded" →
        out = answer Http.StatusNoContent db)
       ∧ ∀ userID,
           Accounts.wh_Event inp = "user.upgraded" →
           Uuid.Parse (Accounts.wh_UserID inp) = Ok userID →
           out = answer
                   (if bool_decide (userID ∈ user_ID <$> Postgres.users db)
                    then Http.StatusNoContent
                    else Http.StatusInternalServerError)
                   (with_users db (UserSql.upgrade userID <$> Postgres.users db)))
  ∧ Postgres.refresh_tokens db' = Postgres.refresh_tokens db
  ∧ Postgres.chirps db' = Postgres.chirps db
  ∧ Forall2
      (fun u u' =>
         u' = u
         ∨ (user_IsChirpyRed u' = true
            ∧ u' = UserSql.upgrade (user_ID u) u
            ∧ GetAPIKey (Main.rq_Header rq) = Ok (Main.polkaKey a)))
      (Postgres.users db) (Postgres.users db').
Proof.
  intros out db db' answer. subst out db db' answer.
  rewrite postPolkaWebhooks_steps. cbv zeta.
  assert (Hupgrade : ∀ userID,
    (let '(r, s) := UpdateToChirpyRed e userID (Main.store w) in
     match r with
     | Ok _ =>
       (Main.Completed,
        {| Main.rw := Main.rw w ++ [Http.WriteHeader Http.StatusNoContent];
           Main.store := s |})
     | Err _ =>
       (Main.Completed,
        {| Main.rw :=
             Main.rw w ++ [Http.WriteHeader Http.StatusInternalServerError];
           Main.store := s |})
     end)
    = (Main.Completed,
       Main.Build_World
         (Main.rw w
          ++ [Http.WriteHeader
                (if bool_decide (userID ∈ user_ID <$> Postgres.users (Main.store w))
                 then Http.StatusNoContent
                 else Http.StatusInternalServerError)])
         (with_users (Main.store w)
            (UserSql.upgrade userID <$> Postgres.users (Main.store w))))).
  { intros userID.
    change (UpdateToChirpyRed e userID (Main.store w))
      with (UserSql.UpdateToChirpyRed e userID (Main.store w)).
    unfold UserSql.UpdateToChirpyRed. cbv zeta.
    assert (Hid : ∀ u, user_ID (UserSql.upgrade userID u) = user_ID u).
    { intros u. unfold UserSql.upgrade. case_bool_decide; reflexivity. }
    case_bool_decide as Hstored.
    - apply list_elem_of_fmap in Hstored. destruct Hstored as (u & Hu & Hin).
      destruct (one_filter_found (fun r => user_ID r = userID)
                  (UserSql.upgrade userID <$> Postgres.users (Main.store w))
                  (UserSql.upgrade userID u)) as [row Hrow].
      { apply list_elem_of_fmap. exists u. auto. }
      { rewrite Hid. congruence. }
      rewrite Hrow. reflexivity.
    - rewrite (one_filter_none (fun r => user_ID r = userID)); [reflexivity|].
      intros r Hin Hr. apply list_elem_of_fmap in Hin.
      destruct Hin as (u & -> & Hin). rewrite Hid in Hr. apply Hstored.
      apply list_elem_of_fmap. exists u. auto. }
  assert (Hdiag : ∀ P : User → User → Prop, (∀ u, P u u) →
            Forall2 P (Postgres.users (Main.store w))
              (Postgres.users (Main.store w))).
  { intros P HP. apply Forall_Forall2_diag, Forall_forall. intros u _. apply HP. }
  case_bool_decide as Hkey.
  2: { split; [intros _; destruct w; reflexivity|].
       split; [intros inp Hkey'; congruence|].
       cbn [snd Main.store]. split; [reflexivity|]. split; [reflexivity|].
       apply Hdiag. auto. }
  split; [congruence|].
  destruct (Main.rq_Decode rq) as [inp|].
  2: { split; [intros inp _ [=]|]. cbn [snd Main.store].
       split; [reflexivity|]. split; [reflexivity|]. apply Hdiag. auto. }
  case_bool_decide as Hevent.
  { split.
    - intros inp' _ [= <-]. split; [intros _; destruct w; reflexivity|].
      intros userID Hup. congruence.
    - cbn [snd Main.store]. split; [reflexivity|]. split; [reflexivity|].
      apply Hdiag. auto. }
  destruct (Uuid.Parse (Accounts.wh_UserID inp)) as [userID|err] eqn:Hparse.
  2: { split.
       - intros inp' _ [= <-]. split; [intros Hne; congruence|].
         intros userID _ Hp. rewrite Hparse in Hp. discriminate.
       - cbn [snd Main.store]. split; [reflexivity|]. split; [reflexivity|].
         apply Hdiag. auto. }
  rewrite Hupgrade. split.
  - intros inp' _ [= <-]. split; [intros Hne; congruence|].
    intros userID' _ Hp. rewrite Hparse in Hp. injection Hp as <-. reflexivity.
  - cbn [snd Main.store with_users Postgres.users Postgres.refresh_tokens
         Postgres.chirps].
    split; [reflexivity|]. split; [reflexivity|].
    apply Forall2_fmap_r, Forall_Forall2_diag, Forall_forall. intros u _.
    destruct (decide (user_ID u = userID)) as [<-|Hid].
    + right. split; [|auto]. unfold UserSql.upgrade.
      rewrite bool_decide_eq_true_2 by reflexivity. reflexivity.
    + left. unfold UserSql.upgrade.
      rewrite bool_decide_eq_false_2 by exact Hid. reflexivity.
Qed.

(** ** Listing chirps *)

(** X16: in [getChirps] an error of the query by author is lost.  With
    no [author_id] in the URL an error of [GetAllChirps] is answered with
    500; with an [author_id] that does not parse the answer is 500 too;
    but with one that parses, an error of [GetChirpsByUserID] is assigned
    to a variable of the inner block, the test after the block sees none,
    and the answer is 200 with the empty list, as for an author with no
    chirps. *)
Theorem getChirps_author_query_error_lost
    {S : Type} {lists : ListQueries S}
    (a : Main.apiConfig) (e : Env) (URLQuery : string → string)
    (log : list (Http.call Reading.body)) (s : S) :
  (∀ err s',
     URLQuery "author_id" = "" →
     GetAllChirps e s = (Err err, s') →
     Reading.getChirps a e URLQuery log s
     = (log ++ [Http.WriteHeader Http.StatusInternalServerError], s'))
  ∧ (∀ err,
       URLQuery "author_id" ≠ "" →
       Uuid.Parse (URLQuery "author_id") = Err err →
       Reading.getChirps a e URLQuery log s
       = (log ++ [Http.WriteHeader Http.StatusInternalServerError], s))
  ∧ (∀ userID err s',
       URLQuery "author_id" ≠ "" →
       Uuid.Parse (URLQuery "author_id") = Ok userID →
       GetChirpsByUserID e userID s = (Err err, s') →
       Reading.getChirps a e URLQuery log s
       = (log ++ [Http.SetHeader "Content-Type" "application/json";
                  Http.WriteHeader Http.StatusOK;
                  Http.Write (Reading.JsonChirps [])], s'))
  ∧ (∀ userID rows s',
       URLQuery "author_id" ≠ "" →
       Uuid.Parse (URLQuery "author_id") = Ok userID →
       GetChirpsByUserID e userID s = (Ok rows, s') →
       Reading.getChirps a e URLQuery log s
       = (log ++ [Http.SetHeader "Content-Type" "application/json";
                  Http.WriteHeader Http.StatusOK;
                  Http.Write (Reading.JsonChirps (Reading.to_chirp <$> rows))],
          s')).
Proof.
  unfold Reading.getChirps. cbv zeta. repeat split.
  - intros err s' Hnone Hall.
    rewrite (bool_decide_eq_true_2 _ Hnone), Hall. reflexivity.
  - intros err Hsome Hparse.
    rewrite (bool_decide_eq_false_2 _ Hsome), Hparse. reflexivity.
  - intros userID err s' Hsome Hparse Hby.
    rewrite (bool_decide_eq_false_2 _ Hsome), Hparse, Hby. reflexivity.
  - intros userID rows s' Hsome Hparse Hby.
    rewrite (bool_decide_eq_false_2 _ Hsome), Hparse, Hby. reflexivity.
Qed.

(** The chirps of alice, asked of a database that cannot be reached. *)
Example getChirps_unreachable :
  Reading.getChirps (lists := Unreachable.lists) Model.cfg Model.env
    (fun key => if bool_decide (key = "author_id")
                then Uuid.String Model.alice else "") [] tt
  = ([Http.SetHeader "Content-Type" "application/json";
      Http.WriteHeader Http.StatusOK;
      Http.Write (Reading.JsonChirps [])], tt).
Proof. vm_compute. reflexivity. Qed.

(** ** The counter of visits *)

Example FormatInt32_ex :
  Strconv.FormatInt32 <$> [0; 7; 42; 2147483647; -1; -2147483648]
  = ["0"; "7"; "42"; "2147483647"; "-1"; "-2147483648"].
Proof. reflexivity. Qed.

Lemma int32_small z : - 2 ^ 31 <= z < 2 ^ 31 → Admin.int32 z = z.
Proof.
  intros Hz. unfold Admin.int32.
  rewrite Z.mod_small by lia. lia.
Qed.

Lemma int32_add z d : Admin.int32 (Admin.int32 z + d) = Admin.int32 (z + d).
Proof.
  unfold Admin.int32.
  replace ((z + 2 ^ 31) mod 2 ^ 32 - 2 ^ 31 + d + 2 ^ 31)
    with ((z + 2 ^ 31) mod 2 ^ 32 + d) by lia.
  rewrite Zplus_mod_idemp_l. f_equal. f_equal. lia.
Qed.

(** A visit adds one to the counter, whatever the handler behind the
    middleware does, a panic included. *)
Lemma serve_middleware {S : Type} a (next : Main.M S unit) (s : Admin.Server S) :
  Admin.fileserverHits (Admin.serve (Admin.middlewareMetricsInc a next) s)
  = Admin.int32 (Admin.fileserverHits s + 1).
Proof.
  unfold Admin.serve, Admin.middlewareMetricsInc, Admin.ServeHTTP,
    Admin.on_database, Admin.Add.
  handler. destruct (next _) as [[[]| |] w']; reflexivity.
Qed.

Lemma int32_range z : - 2 ^ 31 <= Admin.int32 z < 2 ^ 31.
Proof.
  unfold Admin.int32.
  pose proof (Z.mod_pos_bound (z + 2 ^ 31) (2 ^ 32) ltac:(lia)). lia.
Qed.

Lemma serve_visits {S : Type} a (nexts : list (Main.M S unit)) :
  ∀ s : Admin.Server S,
    - 2 ^ 31 <= Admin.fileserverHits s < 2 ^ 31 →
    Admin.fileserverHits
      (fold_left (fun s next => Admin.serve (Admin.middlewareMetricsInc a next) s)
         nexts s)
    = Admin.int32 (Admin.fileserverHits s + Z.of_nat (length nexts)).
Proof.
  induction nexts as [|next nexts IH]; intros s Hs.
  - cbn [fold_left length]. rewrite Z.add_0_r, int32_small by exact Hs.
    reflexivity.
  - cbn [fold_left length]. rewrite IH, serve_middleware.
    + rewrite int32_add. f_equal. lia.
    + rewrite serve_middleware. apply int32_range.
Qed.

(** [postReset] over any store. *)
Lemma postReset_steps {S : Type} {reset : ResetQueries S}
    a e (w : Main.World (Admin.Server S)) :
  Main.run (Admin.postReset a e) w =
  if bool_decide (Main.platform a = "dev") then
    let '(err, s) := ResetUsers e (Admin.database (Main.store w)) in
    (Main.Completed,
     {| Main.rw :=
          Main.rw w
          ++ match err with
             | Some _ => [Http.WriteHeader Http.StatusInternalServerError]
             | None =>
               [Http.SetHeader "Content-Type" "text/plain; charset=utf-8";
                Http.WriteHeader Http.StatusOK;
                Http.Write (Main.Text "counter reset")]
             end;
        Main.store := {| Admin.fileserverHits := 0; Admin.database := s |} |})
  else
    (Main.Completed,
     {| Main.rw := Main.rw w ++ [Http.WriteHeader Http.StatusForbidden];
        Main.store := Main.store w |}).
Proof.
  unfold Admin.postReset.
  destruct (decide (Main.platform a = "dev")) as [Hdev|Hdev].
  - rewrite (bool_decide_eq_true_2 _ Hdev).
    rewrite bool_decide_eq_false_2 by (intros Hne; exact (Hne Hdev)).
    unfold Admin.on_database, Admin.Store. handler.
    destruct (ResetUsers e (Admin.database (Main.store w))) as [[err|] s]; simpl.
    + reflexivity.
    + rewrite <- !app_assoc. reflexivity.
  - rewrite (bool_decide_eq_false_2 _ Hdev), (bool_decide_eq_true_2 _ Hdev).
    handler. reflexivity.
Qed.

(** X17: the reset is for the platform "dev" alone, and there it sets
    the counter to zero before it asks the database.  On any other
    platform the answer is 403 and neither the counter nor the store
    changes, no query being made; on "dev" the counter is zero
    afterwards also when [ResetUsers] fails, in which case the answer is
    500, and the answer is 200 with the text "counter reset"
    otherwise. *)
Theorem postReset_outcome {S : Type} {reset : ResetQueries S}
    (a : Main.apiConfig) (e : Env) (w : Main.World (Admin.Server S)) :
  let out := Main.run (Admin.postReset a e) w in
  let s' := Main.store (snd out) in
  let sent := Http.status (drop (length (Main.rw w)) (Main.rw (snd out))) in
  (Main.platform a ≠ "dev" →
   out = (Main.Completed,
          Main.Build_World
            (Main.rw w ++ [Http.WriteHeader Http.StatusForbidden])
            (Main.store w)))
  ∧ (Main.platform a = "dev" →
     Admin.fileserverHits s' = 0
     ∧ Admin.database s' = snd (ResetUsers e (Admin.database (Main.store w)))
     ∧ sent = Some (match fst (ResetUsers e (Admin.database (Main.store w))) with
                    | Some _ => Http.StatusInternalServerError
                    | None => Http.StatusOK
                    end)).
Proof.
  intros out s' sent. subst out s' sent. rewrite postReset_steps. split.
  - intros Hdev. rewrite (bool_decide_eq_false_2 _ Hdev). destruct w; reflexivity.
  - intros Hdev. rewrite (bool_decide_eq_true_2 _ Hdev).
    destruct (ResetUsers e (Admin.database (Main.store w))) as [[err|] s];
      cbn [fst snd Main.rw Main.store Admin.fileserverHits Admin.database];
      rewrite drop_app_length; repeat split.
Qed.

(** X18: the page of metrics shows the visits since the last reset.
    On the platform "dev", after a reset and then any number of requests
    below 2^31 through the middleware, whatever the handlers behind it
    do and whether or not the reset reached the database, the counter
    holds the number of these requests and [getMetrics] answers 200 with
    the page that prints it. *)
Theorem visits_since_reset_shown {S : Type} {reset : ResetQueries S}
    (a : Main.apiConfig) (e : Env) (nexts : list (Main.M S unit))
    (s : Admin.Server S) :
  Main.platform a = "dev" →
  Z.of_nat (length nexts) < 2 ^ 31 →
  let visit s next := Admin.serve (Admin.middlewareMetricsInc a next) s in
  let s' := fold_left visit nexts (Admin.serve (Admin.postReset a e) s) in
  Admin.fileserverHits s' = Z.of_nat (length nexts)
  ∧ Main.run (Admin.getMetrics a) (Main.Build_World [] s')
    = (Main.Completed,
       Main.Build_World
         [Http.SetHeader "Content-Type" "text/html; charset=utf-8";
          Http.WriteHeader Http.StatusOK;
          Http.Write (Main.Text (Admin.page (Z.of_nat (length nexts))))] s').
Proof.
  intros Hdev Hfew visit s'.
  assert (Hzero : Admin.fileserverHits (Admin.serve (Admin.postReset a e) s) = 0).
  { unfold Admin.serve. rewrite postReset_steps, (bool_decide_eq_true_2 _ Hdev).
    cbn [Main.store]. destruct (ResetUsers e _) as [err s0]. reflexivity. }
  assert (Hhits : Admin.fileserverHits s' = Z.of_nat (length nexts)).
  { subst s' visit. rewrite serve_visits; rewrite Hzero; [|lia].
    rewrite int32_small by lia. lia. }
  split; [exact Hhits|].
  unfold Admin.getMetrics, Admin.Load. handler. rewrite Hhits. reflexivity.
Qed.

(** Three visits after a reset that did not reach the database, the
    second of which ends in a panic. *)
Lemma visits_since_reset_shown_witness :
  let visit s next :=
    Admin.serve (Admin.middlewareMetricsInc (S := unit) Model.cfg next) s in
  Admin.fileserverHits
    (fold_left visit [Main.skip; Main.panic; Main.skip]
       (Admin.serve
          (Admin.postReset (reset := Unreachable.reset) Model.cfg Model.env)
          (Admin.Build_Server 41 tt)))
  = 3.
Proof.
  intros visit.
  destruct (visits_since_reset_shown (reset := Unreachable.reset)
              Model.cfg Model.env [Main.skip; Main.panic; Main.skip]
              (Admin.Build_Server 41 tt)) as [Hhits _].
  - reflexivity.
  - reflexivity.
  - exact Hhits.
Defined.

(** ** Reading one chirp *)

(** [getChirpsChirpID] over any store. *)
Lemma getChirpsChirpID_steps {S : Type} {qry : Queries S}
    a e rq (w : Main.World S) :
  Main.run (Reading.getChirpsChirpID a e rq) w =
  match Uuid.Parse (Main.rq_PathValue rq "chirpID") with
  | Err _ =>
    (Main.Completed,
     {| Main.rw := Main.rw w ++ [Http.WriteHeader Http.StatusBadRequest];
        Main.store := Main.store w |})
  | Ok id =>
    let '(r, s) := GetChirp e id (Main.store w) in
    match r with
    | Err err =>
      (Main.Completed,
       {| Main.rw :=
            Main.rw w
            ++ [Http.WriteHeader
                  (if Errors.Is err sql_ErrNoRows then Http.StatusNotFound
                   else Http.StatusInternalServerError)];
          Main.store := s |})
    | Ok row =>
      (Main.Completed,
       {| Main.rw :=
            Main.rw w
            ++ [Http.SetHeader "Content-Type" "application/json";
                Http.WriteHeader Http.StatusOK;
                Http.Write (Main.JsonChirp (Reading.to_chirp row))];
          Main.store := s |})
    end
  end.
Proof.
  unfold Reading.getChirpsChirpID.
  destruct (Uuid.Parse (Main.rq_PathValue rq "chirpID")) as [id|err];
    [|handler; reflexivity].
  handler. destruct (GetChirp e id (Main.store w)) as [[row|err] s]; simpl.
  - rewrite <- !app_assoc. reflexivity.
  - destruct (Errors.Is err sql_ErrNoRows); reflexivity.
Qed.

(** X19: [getChirpsChirpID] reads and never writes, and needs no
    token.  Whatever the request the store is afterwards as before; a
    path value that does not parse as a UUID is answered 400, an id that
    no chirp has 404, and an id that a chirp has 200 with the five fields
    of the first chirp of that id. *)
Theorem getChirpsChirpID_reads_only
    (a : Main.apiConfig) (e : Env) (rq : Main.Request unit)
    (w : Main.World Postgres.DB) :
  let out := Main.run (Reading.getChirpsChirpID a e rq) w in
  let db := Main.store w in
  let answer code :=
    (Main.Completed,
     Main.Build_World (Main.rw w ++ [Http.WriteHeader code]) db) in
  Main.store (snd out) = db
  ∧ (∀ err, Uuid.Parse (Main.rq_PathValue rq "chirpID") = Err err →
            out = answer Http.StatusBadRequest)
  ∧ (∀ id, Uuid.Parse (Main.rq_PathValue rq "chirpID") = Ok id →
       ((∀ c, c ∈ Postgres.chirps db → chirp_ID c ≠ id) →
        out = answer Http.StatusNotFound)
       ∧ (id ∈ chirp_ID <$> Postgres.chirps db →
          ∃ row, row ∈ Postgres.chirps db ∧ chirp_ID row = id
            ∧ out = (Main.Completed,
                     Main.Build_World
                       (Main.rw w
                        ++ [Http.SetHeader "Content-Type" "application/json";
                            Http.WriteHeader Http.StatusOK;
                            Http.Write
                              (Main.JsonChirp (Reading.to_chirp row))]) db))).
Proof.
  intros out db answer. subst out db answer. rewrite getChirpsChirpID_steps.
  destruct (Uuid.Parse (Main.rq_PathValue rq "chirpID")) as [id|err].
  2: { split; [reflexivity|]. split; [|intros id [=]]. intros err' _. reflexivity. }
  change (GetChirp e id (Main.store w))
    with (fst (Postgres.GetChirp e id (Main.store w)), Main.store w).
  cbv iota beta.
  destruct (fst (Postgres.GetChirp e id (Main.store w))) as [row|err] eqn:Hget.
  - split; [reflexivity|]. split; [intros err [=]|].
    intros id' [= <-]. destruct (one_filter_Ok _ _ _ Hget) as [Hin Hid]. split.
    + intros Hnone. destruct (Hnone row Hin Hid).
    + intros _. exists row. split; [exact Hin|]. split; [exact Hid|]. reflexivity.
  - split; [reflexivity|]. split; [intros err' [=]|].
    intros id' [= <-]. split.
    + intros Hnone. unfold Postgres.GetChirp in Hget. cbn [fst] in Hget.
      rewrite (one_filter_none (fun c => chirp_ID c = id)) in Hget
        by (intros c Hin Hid; exact (Hnone c Hin Hid)).
      injection Hget as <-. reflexivity.
    + intros Hin. apply list_elem_of_fmap in Hin. destruct Hin as (c & Hc & Hin).
      destruct (one_filter_found (fun c => chirp_ID c = id) _ c Hin
                  ltac:(congruence)) as [row Hrow].
      unfold Postgres.GetChirp in Hget. cbn [fst] in Hget. congruence.
Qed.

(** ** Revoking: what is touched *)

(** [postRevoke] over any store. *)
Lemma postRevoke_steps {S : Type} {qry : Queries S} a e rq (w : Main.World S) :
  Main.run (Main.postRevoke a e rq) w =
  match Auth.GetBearerToken (Main.rq_Header rq) with
  | Err _ =>
    (Main.Completed,
     {| Main.rw := Main.rw w ++ [Http.WriteHeader Http.StatusUnauthorized];
        Main.store := Main.store w |})
  | Ok refreshToken =>
    let '(err, s) := RevokeRefreshToken e refreshToken (Main.store w) in
    (Main.Completed,
     {| Main.rw :=
          (Main.rw w
           ++ match err with
              | Some _ => [Http.WriteHeader Http.StatusInternalServerError]
              | None => []
              end)
          ++ [Http.WriteHeader Http.StatusNoContent];
        Main.store := s |})
  end.
Proof.
  unfold Main.postRevoke.
  destruct (Auth.GetBearerToken (Main.rq_Header rq)) as [refreshToken|err];
    [|handler; reflexivity].
  handler.
  destruct (RevokeRefreshToken e refreshToken (Main.store w)) as [[err|] s]; simpl.
  - reflexivity.
  - rewrite app_nil_r. reflexivity.
Qed.

(** X20: [postRevoke] touches the rows of the token presented and
    nothing else.  Whatever the request, users and chirps stay as they
    are, every refresh-token row is as before or is a row of the bearer
    token, stamped as revoked and as updated at the current time and
    otherwise the same, and every other token is usable exactly when it
    was.  The request proves no identity: the token is all it takes. *)
Theorem postRevoke_touches_only_the_token
    (a : Main.apiConfig) (e : Env) (rq : Main.Request unit)
    (w : Main.World Postgres.DB) :
  let db := Main.store w in
  let db' := Main.store (snd (Main.run (Main.postRevoke a e rq) w)) in
  Postgres.users db' = Postgres.users db
  ∧ Postgres.chirps db' = Postgres.chirps db
  ∧ Forall2
      (fun r r' =>
         r' = r
         ∨ (Auth.GetBearerToken (Main.rq_Header rq) = Ok (rt_Token r)
            ∧ r' = {| rt_Token := rt_Token r;
                      rt_CreatedAt := rt_CreatedAt r;
                      rt_UpdatedAt := now e;
                      rt_UserID := rt_UserID r;
                      rt_ExpiresAt := rt_ExpiresAt r;
                      rt_RevokedAt := Some (now e) |}))
      (Postgres.refresh_tokens db) (Postgres.refresh_tokens db')
  ∧ ∀ e' t, Auth.GetBearerToken (Main.rq_Header rq) ≠ Ok t →
            (usable e' t db' ↔ usable e' t db).
Proof.
  intros db db'. subst db db'. rewrite postRevoke_steps.
  destruct (Auth.GetBearerToken (Main.rq_Header rq)) as [token|err].
  2: { split; [reflexivity|]. split; [reflexivity|].
       split; [|reflexivity]. apply Forall_Forall2_diag, Forall_forall. auto. }
  change (RevokeRefreshToken e token (Main.store w))
    with (Postgres.RevokeRefreshToken e token (Main.store w)).
  unfold Postgres.RevokeRefreshToken.
  cbn [snd Main.store Postgres.users Postgres.chirps Postgres.refresh_tokens].
  split; [reflexivity|]. split; [reflexivity|]. split.
  - apply Forall2_fmap_r, Forall_Forall2_diag, Forall_forall. intros r _.
    unfold compose, Postgres.revoke. cbv beta.
    case_bool_decide as Ht; [right|left; reflexivity].
    rewrite Ht. auto.
  - intros e' t Hother. unfold usable. cbn [Postgres.refresh_tokens].
    split.
    + intros (r' & Hin & Hred). apply list_elem_of_fmap in Hin.
      destruct Hin as (r & -> & Hin). exists r. split; [exact Hin|].
      unfold Postgres.revoke in Hred. case_bool_decide as Ht; [|exact Hred].
      destruct Hred as (Htok & _). simpl in Htok. congruence.
    + intros (r & Hin & Hred). exists r. split; [|exact Hred].
      apply list_elem_of_fmap. exists r. split; [|exact Hin].
      unfold Postgres.revoke. rewrite bool_decide_eq_false_2; [reflexivity|].
      destruct Hred as (Htok & _). congruence.
Qed.

(** ** Passwords that are too long *)

